(** * DeckPilot backend (stream-only): the SSE relay of [backend/app.py]

    A shallow embedding of the relay: the line decoder [_safe_decode], the
    URL extractor and scorer ([URL_RE], [_collect_urls_from_text],
    [_score_url], [_pick_best_url]), the handshake parser
    [_endpoint_and_context_from_data], the query builder [build_query] and
    the generator [event_stream] with its closure [flush_and_emit].

    Python text ([str]) is a list of Unicode code points, [bytes] is a list
    of [Byte.byte].  Exceptions are values of [PyExn] carried by [Result];
    the closure's [nonlocal] variables are the record [Session], threaded
    explicitly; what the generator yields and the trigger POST it performs
    are the [Action]s of a trace. *)

From Stdlib Require Import List NArith ZArith Bool String Ascii Lia Permutation.
From Stdlib Require Import Strings.Byte.
Import ListNotations.

Set Implicit Arguments.
Set Warnings "-register-all".

(** ** Python text and bytes *)

Definition str := list N.
Definition bytes := list byte.

Definition str_eq_dec : forall a b : str, {a = b} + {a <> b} :=
  list_eq_dec N.eq_dec.

Fixpoint str_eqb (a b : str) : bool :=
  match a, b with
  | [], [] => true
  | x :: a', y :: b' => N.eqb x y && str_eqb a' b'
  | _, _ => false
  end.

(** Exceptions.  Every class below derives from [Exception]; only
    [UnicodeDecodeError] is ever caught by name.  [what] names the
    operation that failed; the text [str(e)] gives is the runtime's. *)
Inductive PyExn : Type :=
| UnicodeDecodeError
| TypeError (what : str)
| AttributeError (what : str)
| LibraryError (what : str).

Inductive Result (A : Type) : Type :=
| Ok (a : A)
| Raise (e : PyExn).
Arguments Ok {A} a.
Arguments Raise {A} e.

(** *** UTF-8, as [bytes.decode("utf-8", errors=...)] reads it

    The decoder is a byte-at-a-time automaton.  [Pending n acc lo hi] means
    that [n] continuation bytes are still expected, the next of which must
    lie in [lo..hi] (the first continuation byte after E0, ED, F0 and F4 has
    a narrowed range, which is how overlong forms, surrogates and values
    above 10FFFF are rejected).  A byte that cannot continue a pending
    sequence closes it as one error and is then read again as a start
    byte. *)

Inductive ErrorsMode := Strict | Ignore.

Inductive Utf8State :=
| Idle
| Pending (need : nat) (acc lo hi : N).

(** One decoded item: a code point, or one undecodable span. *)
Inductive Utf8Item := Char (c : N) | Bad.

Definition utf8_start (b : N) : list Utf8Item * Utf8State :=
  if (b <? 0x80)%N then ([Char b], Idle)
  else if (b <? 0xC2)%N then ([Bad], Idle)
  else if (b <? 0xE0)%N then ([], Pending 1 (b - 0xC0) 0x80 0xBF)
  else if (b =? 0xE0)%N then ([], Pending 2 0 0xA0 0xBF)
  else if (b =? 0xED)%N then ([], Pending 2 0xD 0x80 0x9F)
  else if (b <? 0xF0)%N then ([], Pending 2 (b - 0xE0) 0x80 0xBF)
  else if (b =? 0xF0)%N then ([], Pending 3 0 0x90 0xBF)
  else if (b <? 0xF4)%N then ([], Pending 3 (b - 0xF0) 0x80 0xBF)
  else if (b =? 0xF4)%N then ([], Pending 3 4 0x80 0x8F)
  else ([Bad], Idle).

Definition utf8_feed (st : Utf8State) (b : N) : list Utf8Item * Utf8State :=
  match st with
  | Idle => utf8_start b
  | Pending n acc lo hi =>
      if ((lo <=? b) && (b <=? hi))%N then
        let acc' := (acc * 64 + (b - 0x80))%N in
        match n with
        | 0%nat | 1%nat => ([Char acc'], Idle)
        | S k => ([], Pending k acc' 0x80 0xBF)
        end
      else
        let '(items, st') := utf8_start b in (Bad :: items, st')
  end.

Fixpoint utf8_items (st : Utf8State) (bs : list N) : list Utf8Item :=
  match bs with
  | [] => match st with Idle => [] | Pending _ _ _ _ => [Bad] end
  | b :: rest =>
      let '(items, st') := utf8_feed st b in
      items ++ utf8_items st' rest
  end.

Fixpoint utf8_strict (items : list Utf8Item) : Result str :=
  match items with
  | [] => Ok []
  | Bad :: _ => Raise UnicodeDecodeError
  | Char c :: rest =>
      match utf8_strict rest with
      | Ok s => Ok (c :: s)
      | Raise e => Raise e
      end
  end.

Fixpoint utf8_lossy (items : list Utf8Item) : str :=
  match items with
  | [] => []
  | Bad :: rest => utf8_lossy rest
  | Char c :: rest => c :: utf8_lossy rest
  end.

(** [b.decode("utf-8")] and [b.decode("utf-8", errors="ignore")]. *)
Definition decode_utf8 (mode : ErrorsMode) (b : bytes) : Result str :=
  match mode with
  | Strict => utf8_strict (utf8_items Idle (map Byte.to_N b))
  | Ignore => Ok (utf8_lossy (utf8_items Idle (map Byte.to_N b)))
  end.

(** [b.decode("latin1", errors="ignore")]: every byte is the code point of
    the same value, so no error handler is ever consulted. *)
Definition decode_latin1 (b : bytes) : Result str :=
  Ok (map Byte.to_N b).

(** Text literals: the UTF-8 bytes of a source literal, decoded. *)
Definition lit (s : string) : str :=
  utf8_lossy (utf8_items Idle (map Byte.to_N (list_byte_of_string s))).

Definition nl : N := 10.

(** *** The [str] methods the relay uses *)

(** [str.isspace] for one code point; also the class [\s] of [re] on text
    patterns. *)
Definition is_space (c : N) : bool :=
  (((0x09 <=? c) && (c <=? 0x0D)) || ((0x1C <=? c) && (c <=? 0x20))
   || (c =? 0x85) || (c =? 0xA0) || (c =? 0x1680)
   || ((0x2000 <=? c) && (c <=? 0x200A))
   || (c =? 0x2028) || (c =? 0x2029) || (c =? 0x202F) || (c =? 0x205F)
   || (c =? 0x3000))%N.

Fixpoint lstrip (s : str) : str :=
  match s with
  | c :: rest => if is_space c then lstrip rest else s
  | [] => []
  end.

Definition rstrip (s : str) : str := rev (lstrip (rev s)).

Definition strip (s : str) : str := rstrip (lstrip s).

Fixpoint startswith (s p : str) {struct p} : bool :=
  match p, s with
  | [], _ => true
  | x :: p', y :: s' => N.eqb x y && startswith s' p'
  | _ :: _, [] => false
  end.

Definition endswith (s p : str) : bool := startswith (rev s) (rev p).

(** [needle in s] *)
Fixpoint contains (s needle : str) : bool :=
  startswith s needle ||
  match s with
  | [] => false
  | _ :: rest => contains rest needle
  end.

(** [s.split(sep, 1)] for a one-character separator. *)
Fixpoint split1 (sep : N) (s : str) : list str :=
  match s with
  | [] => [[]]
  | c :: rest =>
      if N.eqb c sep then [[]; rest]
      else match split1 sep rest with
           | h :: t => (c :: h) :: t
           | [] => [[c]]
           end
  end.

(** [s.split(sep)] for a one-character separator. *)
Fixpoint split (sep : N) (s : str) : list str :=
  match s with
  | [] => [[]]
  | c :: rest =>
      if N.eqb c sep then [] :: split sep rest
      else match split sep rest with
           | h :: t => (c :: h) :: t
           | [] => [[c]]
           end
  end.

(** [s.replace(old, new)] for a non-empty [old]: left to right, without
    overlap.  [skip] counts the characters of a match still to be dropped. *)
Fixpoint replace_go (old new : str) (skip : nat) (s : str) : str :=
  match s with
  | [] => []
  | c :: rest =>
      match skip with
      | S k => replace_go old new k rest
      | O =>
          if startswith s old
          then new ++ replace_go old new (List.length old - 1) rest
          else c :: replace_go old new 0 rest
      end
  end.

Definition replace (old new s : str) : str := replace_go old new 0 s.

(** [sep.join(parts)] for a one-character separator. *)
Fixpoint join_with (sep : N) (parts : list str) : str :=
  match parts with
  | [] => []
  | [x] => x
  | x :: rest => x ++ sep :: join_with sep rest
  end.

(** [str.lower].  The case tables are reproduced where a lower-cased
    character is (or contains) an ASCII character: A-Z, U+0130 (which lowers
    to [i] followed by U+0307) and the Kelvin sign U+212A (which lowers to
    [k]).  Every other character is left as it is; those lower to
    non-ASCII characters, so every comparison of the lowered text with an
    ASCII needle (the keywords of this program, the extensions of a
    preference list written in ASCII) is the one Python makes. *)
Definition lower_char (c : N) : str :=
  if ((0x41 <=? c) && (c <=? 0x5A))%N then [(c + 32)%N]
  else if (c =? 0x130)%N then [0x69%N; 0x307%N]
  else if (c =? 0x212A)%N then [0x6B%N]
  else [c].

Definition lower (s : str) : str := flat_map lower_char s.

(** ** [_safe_decode] *)

(** The nested [try] of [_safe_decode], over the three decoders it calls.
    The first handler names [UnicodeDecodeError], so any other exception of
    the first attempt propagates; the second handler catches everything. *)
Definition safe_decode_with
    (first retry fallback : bytes -> Result str) (b_line : bytes) : Result str :=
  match first b_line with
  | Ok s => Ok s
  | Raise UnicodeDecodeError =>
      match retry b_line with
      | Ok s => Ok s
      | Raise _ => fallback b_line
      end
  | Raise e => Raise e
  end.

Definition _safe_decode (b_line : bytes) : Result str :=
  safe_decode_with (decode_utf8 Strict) (decode_utf8 Ignore) decode_latin1 b_line.


(** ** JSON values, as [json.loads] returns them *)

(** A JSON number with a fraction or an exponent becomes a Python [float];
    it is kept as the decimal it was written as, [mant] times ten to the
    [exp10], together with the special literals [json] accepts. *)
Inductive PyFloat :=
| FNaN
| FInf (neg : bool)
| FDec (neg : bool) (mant : N) (exp10 : Z).

Inductive JSON :=
| JNull
| JBool (b : bool)
| JInt (z : Z)
| JFloat (f : PyFloat)
| JString (s : str)
| JArray (items : list JSON)
| JObject (fields : list (str * JSON)).

(** A Python [dict] with text keys: an association list in insertion order,
    each key at most once. *)
Definition dict (V : Type) := list (str * V).

Fixpoint dict_get {V} (d : dict V) (k : str) : option V :=
  match d with
  | [] => None
  | (k', v) :: rest => if str_eqb k' k then Some v else dict_get rest k
  end.

(** [d[k] = v]: an existing key keeps its place. *)
Fixpoint dict_set {V} (d : dict V) (k : str) (v : V) : dict V :=
  match d with
  | [] => [(k, v)]
  | (k', v') :: rest =>
      if str_eqb k' k then (k', v) :: rest else (k', v') :: dict_set rest k v
  end.

(** [d.update(other)] *)
Definition dict_update {V} (d other : dict V) : dict V :=
  fold_left (fun acc kv => dict_set acc (fst kv) (snd kv)) other d.

(** A decimal is read as the nearest double; it is [0.0] when its digits are
    all zero or when it is at most half the smallest subnormal, 2^-1075. *)
Definition float_is_zero (f : PyFloat) : bool :=
  match f with
  | FNaN | FInf _ => false
  | FDec _ mant exp10 =>
      (mant =? 0)%N ||
      ((exp10 <? 0)%Z && (Z.of_N mant * 2 ^ 1075 <=? 10 ^ (- exp10))%Z)
  end.

(** Truth value of a decoded JSON value, as [if v:], [not v] and [a or b]
    test it. *)
Definition truthy (v : JSON) : bool :=
  match v with
  | JNull => false
  | JBool b => b
  | JInt z => negb (z =? 0)%Z
  | JFloat f => negb (float_is_zero f)
  | JString s => match s with [] => false | _ => true end
  | JArray l => match l with [] => false | _ => true end
  | JObject m => match m with [] => false | _ => true end
  end.

(** ** What the relay takes from the interpreter and its libraries

    The library calls whose result is not fixed by the program text are the
    fields of [PyRuntime]; a [Raise] result is the call raising.  The order
    in which a [set] is listed is one of them: it is only known to list
    each distinct element once. *)
Class PyRuntime := {
  (** [json.loads(text)]; [None] when it raises *)
  json_loads : str -> option JSON;
  (** [list(set(xs))] *)
  set_to_list : list str -> list str;
  set_to_list_perm :
    forall xs, Permutation (set_to_list xs) (nodup str_eq_dec xs);
  (** [urljoin(base, url)] *)
  urljoin : str -> str -> Result str;
  (** [parse_qs(urlparse(url).query)] *)
  url_query_params : str -> Result (dict (list str));
  (** [str(v)] of a decoded JSON value that is not text *)
  py_str : JSON -> str;
  (** [str(e)] of an exception *)
  exn_str : PyExn -> str
}.

(** ** Configuration: the process environment read at import time *)

Record Environ := {
  SKYWORK_SECRET_ID : option str;
  SKYWORK_SECRET_KEY : option str;
  SKYWORK_MCP_SSE_URL : option str;
  DECKPILOT_PREFERRED_EXTS : option str
}.

Definition getenv (v : option str) (default : str) : str :=
  match v with Some s => s | None => default end.

Definition SKY_ID (env : Environ) : str := getenv (SKYWORK_SECRET_ID env) [].
Definition SKY_KEY (env : Environ) : str := getenv (SKYWORK_SECRET_KEY env) [].
Definition MCP_SSE (env : Environ) : str :=
  getenv (SKYWORK_MCP_SSE_URL env) (lit "https://api.skywork.ai/open/sse").

Definition comma : N := 44.
Definition colon : N := 58.

Definition PREFERRED_EXTS (env : Environ) : list str :=
  split comma
    (lower (getenv (DECKPILOT_PREFERRED_EXTS env) (lit "pptx,docx,xlsx,pdf,zip"))).

(** The environment in which no variable is set. *)
Definition default_environ : Environ :=
  {| SKYWORK_SECRET_ID := None; SKYWORK_SECRET_KEY := None;
     SKYWORK_MCP_SSE_URL := None; DECKPILOT_PREFERRED_EXTS := None |}.

Definition default_exts : list str := PREFERRED_EXTS default_environ.

(** ** [URL_RE] and the URL scorer *)

(** A literal letter of the pattern under [re.IGNORECASE]: the letter or
    its capital; [s] also matches U+017F, the long s. *)
Definition ci (letter c : N) : bool :=
  ((c =? letter) || (c =? letter - 32))%N.

Definition ci_s (c : N) : bool := (ci 0x73 c || (c =? 0x17F))%N.

(** The negated class of the pattern: anything but white space, the two
    quote characters and the two angle brackets. *)
Definition url_char (c : N) : bool :=
  negb (is_space c || (c =? 34) || (c =? 39) || (c =? 60) || (c =? 62))%N.

Fixpoint take_while (f : N -> bool) (s : str) : str :=
  match s with
  | c :: rest => if f c then c :: take_while f rest else []
  | [] => []
  end.

Definition is_empty_list {A} (l : list A) : bool :=
  match l with [] => true | _ => false end.

Definition orelse {A} (a b : option A) : option A :=
  match a with Some _ => a | None => b end.

(** The rest of the pattern at the start of [after]: colon, two slashes and
    one or more characters of the class, as many as there are.  [scheme] is
    the text matched so far; the result is the whole match. *)
Definition url_tail (scheme after : str) : option str :=
  if startswith after (lit "://") then
    match take_while url_char (skipn 3 after) with
    | [] => None
    | body => Some (scheme ++ lit "://" ++ body)
    end
  else None.

(** [URL_RE.match] at the start of [text]: [https?] tries the [s] first. *)
Definition url_match (text : str) : option str :=
  match text with
  | h :: t1 :: t2 :: p :: rest =>
      if ci 0x68 h && ci 0x74 t1 && ci 0x74 t2 && ci 0x70 p then
        orelse
          match rest with
          | s :: rest' =>
              if ci_s s then url_tail [h; t1; t2; p; s] rest' else None
          | [] => None
          end
          (url_tail [h; t1; t2; p] rest)
      else None
  | _ => None
  end.

(** [URL_RE.findall(text)]: matches from left to right, a match resuming
    where the previous one ended.  [skip] counts the characters of the last
    match still to be passed. *)
Fixpoint findall_go (skip : nat) (text : str) : list str :=
  match text with
  | [] => []
  | _ :: rest =>
      match skip with
      | S k => findall_go k rest
      | O =>
          match url_match text with
          | Some u => u :: findall_go (List.length u - 1) rest
          | None => findall_go 0 rest
          end
      end
  end.

Definition URL_RE_findall (text : str) : list str := findall_go 0 text.

Definition _collect_urls_from_text `{PyRuntime} (text : str) : list str :=
  set_to_list (URL_RE_findall text).

(** The loop of [_score_url] over [enumerate(PREFERRED_EXTS, start=1)]. *)
Fixpoint score_exts (s : str) (i : Z) (exts : list str) (score : Z) : Z :=
  match exts with
  | [] => score
  | ext :: rest =>
      score_exts s (i + 1) rest
        (if endswith s (lit "." ++ ext) then score + (100 - i) else score)
  end.

Definition has_keyword (s : str) : bool :=
  contains s (lit "download") || contains s (lit "export")
  || contains s (lit "file").

Definition has_signature (s : str) : bool :=
  contains s (lit "signature=") || contains s (lit "token=").

Definition _score_url (exts : list str) (u : str) : Z :=
  let s := lower u in
  let score := 10%Z in
  let score := score_exts s 1 exts score in
  let score := if has_keyword s then (score + 15)%Z else score in
  let score := if has_signature s then (score + 10)%Z else score in
  score.

(** [sorted(urls, key=key, reverse=True)]: the sort is stable, also when
    reversed, so among equal keys the earlier element stays first. *)
Fixpoint insert_desc (key : str -> Z) (x : str) (l : list str) : list str :=
  match l with
  | [] => [x]
  | y :: rest =>
      if (key x <? key y)%Z then y :: insert_desc key x rest else x :: l
  end.

Definition sorted_desc (key : str -> Z) (l : list str) : list str :=
  fold_right (insert_desc key) [] l.

Definition _pick_best_url (exts : list str) (urls : list str) : option str :=
  match urls with
  | [] => None
  | _ => hd_error (sorted_desc (_score_url exts) urls)
  end.


(** ** Requests and [build_query] *)

Inductive Mode := ppt | ppt_fast | doc | excel.

Definition mode_name (m : Mode) : str :=
  match m with
  | ppt => lit "ppt"
  | ppt_fast => lit "ppt-fast"
  | doc => lit "doc"
  | excel => lit "excel"
  end.

Record MakeDeckReq := {
  topic : str;
  template_hint : option str;
  use_network : bool;
  mode : Mode;
  outline_md : option str
}.

(** Truth value of an [Optional[str]]: [None] and the empty text are
    false. *)
Definition nonempty (o : option str) : bool :=
  match o with
  | Some (_ :: _) => true
  | _ => false
  end.

Definition text_of (o : option str) : str :=
  match o with Some s => s | None => [] end.

(** [template.format(topic=t)] for a template whose only braces are those
    of the field [topic]. *)
Definition format_topic (template t : str) : str :=
  replace (lit "{topic}") t template.

Definition mode_desc : dict str :=
  [ (lit "ppt", lit "{topic}");
    (lit "ppt-fast", lit "{topic}");
    (lit "doc", lit "{topic}");
    (lit "excel", lit "{topic}") ].

(** [d.get(k, default)] *)
Definition dict_get_default {V} (d : dict V) (k : str) (default : V) : V :=
  match dict_get d k with Some v => v | None => default end.

Definition build_query (req : MakeDeckReq) : str :=
  let prefix :=
    if nonempty (outline_md req)
    then lit "请基于以下大纲生成：" ++ [nl] ++ text_of (outline_md req) ++ [nl]
    else format_topic
           (dict_get_default mode_desc (mode_name (mode req))
              (dict_get_default mode_desc (lit "ppt-fast") []))
           (topic req) in
  let hint :=
    if nonempty (template_hint req)
    then lit " 模板/品牌要求：" ++ text_of (template_hint req) ++ lit "。"
    else [] in
  strip (prefix ++ hint).

(** ** [json.dumps] of the one object the relay serialises *)

Definition hex_digit (n : N) : N :=
  if (n <? 10)%N then (48 + n)%N else (87 + n)%N.

(** One character of a JSON string under [ensure_ascii=False]: the quote,
    the backslash and the control characters below U+0020 are escaped. *)
Definition json_escape_char (c : N) : str :=
  if (c =? 34)%N then lit "\" ++ [34%N]
  else if (c =? 92)%N then lit "\\"
  else if (c =? 10)%N then lit "\n"
  else if (c =? 13)%N then lit "\r"
  else if (c =? 9)%N then lit "\t"
  else if (c =? 8)%N then lit "\b"
  else if (c =? 12)%N then lit "\f"
  else if (c <? 32)%N then lit "\u00" ++ [hex_digit (c / 16); hex_digit (c mod 16)]
  else [c].

Definition json_string (s : str) : str :=
  [34%N] ++ flat_map json_escape_char s ++ [34%N].

(** [json.dumps({"download_url": url}, ensure_ascii=False)] *)
Definition dumps_download_url (url : str) : str :=
  lit "{" ++ json_string (lit "download_url") ++ lit ": " ++ json_string url
  ++ lit "}".

(** ** [_endpoint_and_context_from_data] *)

Definition BASE_ORIGIN : str := lit "https://api.skywork.ai".

Definition meta_keys : list str :=
  [ lit "session_id"; lit "sessionId"; lit "conversation_id";
    lit "conversationId"; lit "channel"; lit "room" ].

Definition query_keys : list str :=
  [ lit "sessionId"; lit "session_id"; lit "conversationId";
    lit "conversation_id" ].

(** [d.get(k)], with [None] as [JNull] *)
Definition json_get (d : dict JSON) (k : str) : JSON :=
  match dict_get d k with Some v => v | None => JNull end.

(** [a or b] *)
Definition py_or (a b : JSON) : JSON := if truthy a then a else b.

(** The [try] block over the decoded object [meta]. *)
Definition meta_fields (meta : dict JSON) (ctx : dict JSON) : JSON * dict JSON :=
  let endpoint := py_or (json_get meta (lit "endpoint")) (json_get meta (lit "url")) in
  let ctx :=
    match json_get meta (lit "context") with
    | JObject c => dict_update ctx c
    | _ => ctx
    end in
  let ctx :=
    fold_left
      (fun ctx k =>
         match dict_get meta k with
         | Some v => dict_set ctx k v
         | None => ctx
         end)
      meta_keys ctx in
  (endpoint, ctx).

(** The second [try] block: session identifiers found in the query string. *)
Definition query_fields (q : dict (list str)) (ctx : dict JSON) : dict JSON :=
  fold_left
    (fun ctx k =>
       match dict_get q k with
       | Some (v :: _) => dict_set ctx k (JString v)
       | _ => ctx
       end)
    query_keys ctx.

Definition _endpoint_and_context_from_data `{PyRuntime} (data : str)
  : Result (option str * dict JSON) :=
  let ctx : dict JSON := [] in
  let '(endpoint, ctx) :=
    if startswith data (lit "{") then
      match json_loads data with
      | Some (JObject meta) => meta_fields meta ctx
      | Some _ => (JString data, ctx)   (* [meta.get] raises, caught *)
      | None => (JString data, ctx)     (* [json.loads] raises, caught *)
      end
    else (JString data, ctx) in
  if negb (truthy endpoint) then Ok (None, ctx)
  else
    match endpoint with
    | JString e =>
        match (if startswith e (lit "/") then urljoin BASE_ORIGIN e else Ok e) with
        | Raise ex => Raise ex
        | Ok e' =>
            let ctx :=
              match url_query_params e' with
              | Ok q => query_fields q ctx
              | Raise _ => ctx
              end in
            Ok (Some e', ctx)
        end
    | _ => Raise (AttributeError (lit "startswith"))
    end.

(** ** The relay session *)

(** The variables [event_stream] and [flush_and_emit] close over: the
    connection parameters built by [make_deck_stream] and the module
    constants. *)
Record Closure := {
  query_text : str;          (* [sse_params["query"]] *)
  use_network_text : str;    (* [sse_params["use_network"]] *)
  tool_name : str;
  export_ext : str;
  secret_id : str;           (* [SKY_ID] *)
  sign : str;                (* [sky_sign(SKY_ID, SKY_KEY)] *)
  exts : list str            (* [PREFERRED_EXTS] *)
}.

(** The JSON body of the trigger POST; its constant members ([jsonrpc],
    [id], [method], [status_updates], [debug]) are left out. *)
Record ToolCall := {
  tc_secret_id : str;
  tc_sign : str;
  tc_name : str;
  tc_query : str;
  tc_use_network : str;
  tc_export : str;
  tc_context : option (dict JSON)
}.

(** What a session does that the outside sees: a chunk yielded to the
    client, or the trigger POST. *)
Inductive Action :=
| Yield (chunk : str)
| Post (url : str) (payload : ToolCall).

(** The [nonlocal] variables of [flush_and_emit]. *)
Record Session := {
  endpoint_url : option str;
  called : bool;
  context : dict JSON;
  sent_done : bool
}.

Definition initial_session : Session :=
  {| endpoint_url := None; called := false; context := []; sent_done := false |}.

Definition set_sent_done (st : Session) : Session :=
  {| endpoint_url := endpoint_url st; called := called st;
     context := context st; sent_done := true |}.

Definition set_called (st : Session) : Session :=
  {| endpoint_url := endpoint_url st; called := true;
     context := context st; sent_done := sent_done st |}.

Definition set_handshake (st : Session) (e : option str) (ctx : dict JSON) : Session :=
  {| endpoint_url := e; called := called st;
     context := match ctx with
                | [] => context st
                | _ => dict_update (context st) ctx
                end;
     sent_done := sent_done st |}.

(** The six characters backslash, u, 0, 0, 2, 6: an ampersand as an
    upstream JSON encoder escapes it. *)
Definition ESCAPED_AMP : str := lit "\" ++ lit "u0026".

(** The chunks. *)
Definition event_chunk (name payload : str) : str :=
  lit "event: " ++ name ++ [nl] ++ lit "data: " ++ payload ++ [nl; nl].

Definition DONE_CHUNK : str := event_chunk (lit "done") (lit "[DONE]").
Definition EOF_CHUNK : str := lit ": EOF" ++ [nl; nl].
Definition done_url_chunk (url : str) : str :=
  event_chunk (lit "done") (dumps_download_url url).
Definition error_chunk (msg : str) : str := event_chunk (lit "error") msg.
Definition log_chunk (msg : str) : str := event_chunk (lit "log") msg.
Definition PING_CHUNK : str := log_chunk (lit "...").
Definition STARTED_CHUNK : str :=
  log_chunk (lit "已连接引擎，正在生成大纲与内容...").
Definition TOKEN_CHUNK : str := error_chunk (lit "Token exhausted").

(** The result of one call of [flush_and_emit]: what it yielded and
    posted, the variables afterwards, and the exception it ended with, if
    any. *)
Record Step := {
  acts : list Action;
  after : Session;
  raised : option PyExn
}.

Definition returns (a : list Action) (st : Session) : Step :=
  {| acts := a; after := st; raised := None |}.

Definition raises (st : Session) (e : PyExn) : Step :=
  {| acts := []; after := st; raised := Some e |}.

(** The first loop of [flush_and_emit]: the record's name and its data. *)
Fixpoint assemble (buf : list str) (name data_str : str) : str * str :=
  match buf with
  | [] => (name, data_str)
  | ln :: rest =>
      if startswith ln (lit "event:") then
        assemble rest (strip (nth 1 (split1 colon ln) [])) data_str
      else if startswith ln (lit "data:") then
        assemble rest name
          (data_str ++ lstrip (nth 1 (split1 colon ln) []) ++ [nl])
      else assemble rest name data_str
  end.

Definition is_ping (json_obj : option JSON) : bool :=
  match json_obj with
  | Some (JObject d) =>
      match json_get d (lit "method") with
      | JString m => str_eqb m (lit "ping")
      | _ => false
      end
  | _ => false
  end.

(** [x == "text"] for a decoded value [x] *)
Definition is_text (x : JSON) : bool :=
  match x with JString s => str_eqb s (lit "text") | _ => false end.

(** [c[0]["text"]] once ["text" in c[0]] has been tested. *)
Definition first_text (c0 : JSON) : Result JSON :=
  match c0 with
  | JObject f =>
      match dict_get f (lit "text") with
      | None => Ok JNull
      | Some (JString t) =>
          if startswith (strip t) (lit "{") then Ok JNull else Ok (JString t)
      | Some _ => Raise (AttributeError (lit "strip"))
      end
  | JString s0 =>
      if contains s0 (lit "text") then Raise (TypeError (lit "str index")) else Ok JNull
  | JArray l0 =>
      if existsb is_text l0 then Raise (TypeError (lit "list index")) else Ok JNull
  | _ => Raise (TypeError (lit "not iterable"))
  end.

(** Step 5, first half: the message taken from the decoded object; [JNull]
    is [None]. *)
Definition extract_log (json_obj : option JSON) : Result JSON :=
  match json_obj with
  | Some (JObject d) =>
      match dict_get d (lit "message") with
      | Some v => Ok v
      | None =>
          match dict_get d (lit "content") with
          | Some (JArray (c0 :: _)) => first_text c0
          | _ => Ok JNull
          end
      end
  | _ => Ok JNull
  end.

(** [f"{v}"] *)
Definition fmt `{PyRuntime} (v : JSON) : str :=
  match v with JString s => s | _ => py_str v end.

Definition passthrough `{PyRuntime} (st : Session) (json_obj : option JSON)
    (data_str : str) : Step :=
  match extract_log json_obj with
  | Raise e => raises st e
  | Ok log_msg =>
      let log_msg :=
        if negb (truthy log_msg) && negb (startswith data_str (lit "{"))
           && (List.length data_str <? 200)%nat
        then JString data_str else log_msg in
      if truthy log_msg then returns [Yield (log_chunk (fmt log_msg))] st
      else returns [] st
  end.

Definition make_payload (cl : Closure) (ctx : dict JSON) : ToolCall :=
  {| tc_secret_id := secret_id cl; tc_sign := sign cl;
     tc_name := tool_name cl;
     tc_query := query_text cl; tc_use_network := use_network_text cl;
     tc_export := export_ext cl;
     tc_context := match ctx with [] => None | _ => Some ctx end |}.

(** The [endpoint] branch.  [post] is [requests.post]: [None] when it
    returns, the exception when it raises. *)
Definition handshake `{PyRuntime} (cl : Closure)
    (post : str -> ToolCall -> option PyExn)
    (st : Session) (data_str : str) : Step :=
  match _endpoint_and_context_from_data data_str with
  | Raise e => raises st e
  | Ok (e, ctx) =>
      let st := set_handshake st e ctx in
      if negb (called st) && nonempty (endpoint_url st) then
        let url := text_of (endpoint_url st) in
        let payload := make_payload cl (context st) in
        match post url payload with
        | Some ex =>
            {| acts :=
                 [Post url payload;
                  Yield (error_chunk (lit "tools/call failed: " ++ exn_str ex))]
                 ++ (if sent_done st then [] else [Yield DONE_CHUNK]);
               after := if sent_done st then st else set_sent_done st;
               raised := None |}
        | None =>
            returns [Post url payload; Yield STARTED_CHUNK] (set_called st)
        end
      else returns [] st
  end.

(** Steps 3 to 5 of [flush_and_emit], on a record with a payload. *)
Definition dispatch `{PyRuntime} (cl : Closure)
    (post : str -> ToolCall -> option PyExn)
    (st : Session) (name data_str : str) : Step :=
  let raw_urls := _collect_urls_from_text data_str in
  let best_link := _pick_best_url (exts cl) raw_urls in
  if nonempty best_link then
    let best_link := replace ESCAPED_AMP (lit "&") (text_of best_link) in
    returns [Yield (done_url_chunk best_link); Yield EOF_CHUNK]
            (set_sent_done st)
  else
    let json_obj := json_loads data_str in
    if is_ping json_obj then returns [Yield PING_CHUNK] st
    else if str_eqb name (lit "endpoint") then handshake cl post st data_str
    else if contains (lower data_str) (lit "token exhausted") then
      {| acts := Yield TOKEN_CHUNK
                 :: (if sent_done st then [] else [Yield DONE_CHUNK]);
         after := if sent_done st then st else set_sent_done st;
         raised := None |}
    else passthrough st json_obj data_str.

(** The record a buffer holds. *)
Definition record_name (buf : list str) : str :=
  fst (assemble buf (lit "message") []).

Definition payload_of (buf : list str) : str :=
  strip (snd (assemble buf (lit "message") [])).

Definition flush_and_emit `{PyRuntime} (cl : Closure)
    (post : str -> ToolCall -> option PyExn)
    (st : Session) (buf : list str) : Step :=
  match buf with
  | [] => returns [] st
  | _ =>
      if sent_done st then returns [] st
      else
        match payload_of buf with
        | [] => returns [] st
        | data_str => dispatch cl post st (record_name buf) data_str
        end
  end.

(** The upstream, as one session meets it: [requests.get] raises, or gives
    a response whose [iter_lines] yields [lines] and then stops, cleanly or
    by raising. *)
Inductive Ending := CleanClose | ReadRaises (e : PyExn).

Inductive GetOutcome :=
| GetRaises (e : PyExn)
| Response (status_code : Z) (text : Result str) (lines : list bytes)
           (ending : Ending).

Record World := {
  requests_get : GetOutcome;
  requests_post : str -> ToolCall -> option PyExn
}.

(** How the read loop stops. *)
Inductive LoopExit := Exhausted | Broke | Threw (e : PyExn).

(** A run: the actions in order, the variables after every call of
    [flush_and_emit] in order, and the variables at the end. *)
Record Run := {
  trace : list Action;
  history : list Session;
  final : Session;
  exit : LoopExit
}.

Definition run_then (a : list Action) (h : list Session) (r : Run) : Run :=
  {| trace := a ++ trace r; history := h ++ history r;
     final := final r; exit := exit r |}.

Definition is_blank (raw_line : bytes) : bool :=
  match raw_line with [] => true | _ => false end.

(** The read loop over what [iter_lines] yields. *)
Fixpoint read_loop `{PyRuntime} (cl : Closure)
    (post : str -> ToolCall -> option PyExn)
    (st : Session) (buffer : list str) (lines : list bytes) : Run :=
  match lines with
  | [] => {| trace := []; history := []; final := st; exit := Exhausted |}
  | raw_line :: rest =>
      if sent_done st then
        {| trace := []; history := []; final := st; exit := Broke |}
      else if is_blank raw_line then
        let s := flush_and_emit cl post st buffer in
        match raised s with
        | Some e =>
            {| trace := acts s; history := [after s]; final := after s;
               exit := Threw e |}
        | None =>
            run_then (acts s) [after s] (read_loop cl post (after s) [] rest)
        end
      else
        match _safe_decode raw_line with
        | Raise e =>
            {| trace := []; history := []; final := st; exit := Threw e |}
        | Ok text => read_loop cl post st (buffer ++ [strip text]) rest
        end
  end.

(** The handler of the outer [try]. *)
Definition on_exception `{PyRuntime} (st : Session) (e : PyExn) : list Action :=
  Yield (error_chunk (exn_str e))
  :: (if sent_done st then [] else [Yield DONE_CHUNK]).

(** After the loop. *)
Definition on_close (st : Session) : list Action * Session :=
  if sent_done st then ([], st) else ([Yield DONE_CHUNK], set_sent_done st).

Definition event_stream `{PyRuntime} (cl : Closure) (w : World) : Run :=
  let st := initial_session in
  match requests_get w with
  | GetRaises e =>
      {| trace := on_exception st e; history := []; final := st; exit := Threw e |}
  | Response status_code text lines ending =>
      if negb (status_code =? 200)%Z then
        match text with
        | Raise e =>
            {| trace := on_exception st e; history := []; final := st;
               exit := Threw e |}
        | Ok body =>
            {| trace := [Yield (error_chunk (lit "SSE connect failed: " ++ body));
                         Yield DONE_CHUNK];
               history := []; final := st; exit := Exhausted |}
        end
      else
        let r := read_loop cl (requests_post w) st [] lines in
        let closed :=
          let '(a, st') := on_close (final r) in
          {| trace := trace r ++ a; history := history r; final := st';
             exit := exit r |} in
        let failed e :=
          {| trace := trace r ++ on_exception (final r) e;
             history := history r; final := final r; exit := Threw e |} in
        match exit r with
        | Threw e => failed e
        | Broke => closed
        | Exhausted =>
            match ending with
            | CleanClose => closed
            | ReadRaises e => failed e
            end
        end
  end.

(** ** [make_deck_stream] *)

(** [sky_sign], over the digest function. *)
Definition sky_sign (md5_hexdigest : str -> str) (secret_id secret_key : str) : str :=
  md5_hexdigest (secret_id ++ [colon] ++ secret_key).

Definition mode_to_tool : dict str :=
  [ (lit "ppt", lit "gen_ppt");
    (lit "ppt-fast", lit "gen_ppt_fast");
    (lit "doc", lit "gen_doc");
    (lit "excel", lit "gen_excel") ].

Definition tool_to_ext : dict str :=
  [ (lit "gen_ppt", lit "pptx");
    (lit "gen_ppt_fast", lit "pptx");
    (lit "gen_doc", lit "docx");
    (lit "gen_excel", lit "xlsx") ].

(** The request handler up to the streaming response: [None] is the
    [HTTPException(500)] of a server without credentials. *)
Definition make_deck_stream (md5_hexdigest : str -> str) (env : Environ)
    (req : MakeDeckReq) : option Closure :=
  let tool :=
    dict_get_default mode_to_tool (mode_name (mode req)) (lit "gen_ppt_fast") in
  (* the subscript cannot miss: every tool name above is a key *)
  let ext := dict_get_default tool_to_ext tool [] in
  match SKY_ID env, SKY_KEY env with
  | _ :: _, _ :: _ =>
      Some {| query_text := build_query req;
              use_network_text := if use_network req then lit "true" else lit "false";
              tool_name := tool;
              export_ext := ext;
              secret_id := SKY_ID env;
              sign := sky_sign md5_hexdigest (SKY_ID env) (SKY_KEY env);
              exts := PREFERRED_EXTS env |}
  | _, _ => None
  end.

(** ** A reference runtime

    One [PyRuntime], with which the relay runs on concrete inputs: a JSON
    reader for the grammar [json.loads] accepts, [urljoin] and [parse_qs]
    after [urllib.parse], sets listed in the order of [nodup].  The limits
    of an interpreter (recursion depth, the digits of an integer), the
    validation [urllib.parse] applies to a host name and its removal of
    tabs and line ends from a URL are not reproduced, and [py_str] and
    [exn_str] give a text of their own where [str] words a value or an
    exception.  The statements below hold for every runtime; this one
    serves to run them on sample inputs. *)
Module Reference.

Definition json_ws (c : N) : bool :=
  ((c =? 32) || (c =? 9) || (c =? 10) || (c =? 13))%N.

Fixpoint skip_ws (s : str) : str :=
  match s with
  | c :: rest => if json_ws c then skip_ws rest else s
  | [] => []
  end.

Definition is_digit (c : N) : bool := ((48 <=? c) && (c <=? 57))%N.

Fixpoint take_digits (s : str) : str * str :=
  match s with
  | c :: rest =>
      if is_digit c then let '(ds, r) := take_digits rest in (c :: ds, r)
      else ([], s)
  | [] => ([], [])
  end.

Definition digits_value (ds : str) : N :=
  fold_left (fun acc d => (acc * 10 + (d - 48))%N) ds 0%N.

(** The integer part of [NUMBER_RE]: a zero, or a non-zero digit and more
    digits. *)
Definition scan_int_part (s : str) : option (str * str) :=
  match s with
  | d :: r =>
      if (d =? 48)%N then Some ([d], r)
      else if is_digit d then
        let '(ds, r') := take_digits r in Some (d :: ds, r')
      else None
  | [] => None
  end.

(** The optional fraction: a dot and at least one digit. *)
Definition scan_frac (s : str) : option str * str :=
  match s with
  | c :: r =>
      if (c =? 46)%N then
        match take_digits r with
        | ([], _) => (None, s)
        | (fs, r') => (Some fs, r')
        end
      else (None, s)
  | [] => (None, s)
  end.

(** The optional exponent: [e] or [E], an optional sign, at least one
    digit. *)
Definition scan_exp (s : str) : option Z * str :=
  match s with
  | c :: r =>
      if ((c =? 101) || (c =? 69))%N then
        let '(negative, r1) :=
          match r with
          | sg :: r1 =>
              if (sg =? 45)%N then (true, r1)
              else if (sg =? 43)%N then (false, r1)
              else (false, r)
          | [] => (false, r)
          end in
        match take_digits r1 with
        | ([], _) => (None, s)
        | (es, r2) =>
            let v := Z.of_N (digits_value es) in
            (Some (if negative then (- v)%Z else v), r2)
        end
      else (None, s)
  | [] => (None, s)
  end.

Definition scan_number (s : str) : option (JSON * str) :=
  let '(negative, s1) :=
    match s with
    | c :: r => if (c =? 45)%N then (true, r) else (false, s)
    | [] => (false, s)
    end in
  match scan_int_part s1 with
  | None => None
  | Some (ds, r) =>
      let '(frac, r1) := scan_frac r in
      let '(ex, r2) := scan_exp r1 in
      match frac, ex with
      | None, None =>
          let v := Z.of_N (digits_value ds) in
          Some (JInt (if negative then (- v)%Z else v), r2)
      | _, _ =>
          let fs := match frac with Some fs => fs | None => [] end in
          let e := match ex with Some e => e | None => 0%Z end in
          Some (JFloat (FDec negative (digits_value (ds ++ fs))
                          (e - Z.of_nat (List.length fs))), r2)
      end
  end.

Definition hex_value (c : N) : option N :=
  if is_digit c then Some (c - 48)%N
  else if ((97 <=? c) && (c <=? 102))%N then Some (c - 87)%N
  else if ((65 <=? c) && (c <=? 70))%N then Some (c - 55)%N
  else None.

Definition hex4 (a b c d : N) : option N :=
  match hex_value a, hex_value b, hex_value c, hex_value d with
  | Some x, Some y, Some z, Some w => Some (((x * 16 + y) * 16 + z) * 16 + w)%N
  | _, _, _, _ => None
  end.

(** The character a one-letter escape stands for. *)
Definition unescape (c : N) : option N :=
  if (c =? 34)%N then Some 34%N
  else if (c =? 92)%N then Some 92%N
  else if (c =? 47)%N then Some 47%N
  else if (c =? 98)%N then Some 8%N
  else if (c =? 102)%N then Some 12%N
  else if (c =? 110)%N then Some 10%N
  else if (c =? 114)%N then Some 13%N
  else if (c =? 116)%N then Some 9%N
  else None.

(** A low surrogate escape at the start of [s], if there is one. *)
Definition low_surrogate (s : str) : option N :=
  match s with
  | b :: u :: g1 :: g2 :: g3 :: g4 :: _ =>
      if ((b =? 92) && (u =? 117))%N then
        match hex4 g1 g2 g3 g4 with
        | Some lo => if ((0xDC00 <=? lo) && (lo <=? 0xDFFF))%N then Some lo else None
        | None => None
        end
      else None
  | _ => None
  end.

(** The body of a string after its opening quote, and what follows the
    closing quote.  Control characters are refused (the reader is strict). *)
Fixpoint scan_string (s : str) : option (str * str) :=
  let emit c r := match r with Some (t, rest) => Some (c :: t, rest) | None => None end in
  match s with
  | [] => None
  | c :: r =>
      if (c =? 34)%N then Some ([], r)
      else if (c <? 32)%N then None
      else if (c =? 92)%N then
        match r with
        | [] => None
        | e :: r1 =>
            if (e =? 117)%N then
              match r1 with
              | h1 :: h2 :: h3 :: h4 :: r2 =>
                  match hex4 h1 h2 h3 h4 with
                  | None => None
                  | Some uni =>
                      if ((0xD800 <=? uni) && (uni <=? 0xDBFF))%N then
                        match low_surrogate r2, r2 with
                        | Some lo, _ :: _ :: _ :: _ :: _ :: _ :: r3 =>
                            emit (0x10000 + ((uni - 0xD800) * 1024 + (lo - 0xDC00)))%N
                                 (scan_string r3)
                        | _, _ => emit uni (scan_string r2)
                        end
                      else emit uni (scan_string r2)
                  end
              | _ => None
              end
            else
              match unescape e with
              | Some ch => emit ch (scan_string r1)
              | None => None
              end
        end
      else emit c (scan_string r)
  end.

(** [scan_once] and the object and array readers.  Every call consumes at
    least one character, so a fuel above the length of the text is never
    used up. *)
Fixpoint parse_value (fuel : nat) (s : str) : option (JSON * str) :=
  match fuel with
  | O => None
  | S f =>
      match s with
      | [] => None
      | c :: r =>
          if (c =? 34)%N then
            match scan_string r with
            | Some (t, rest) => Some (JString t, rest)
            | None => None
            end
          else if (c =? 123)%N then
            match skip_ws r with
            | c1 :: r1 =>
                if (c1 =? 125)%N then Some (JObject [], r1)
                else parse_members f (skip_ws r) []
            | [] => None
            end
          else if (c =? 91)%N then
            match skip_ws r with
            | c1 :: r1 =>
                if (c1 =? 93)%N then Some (JArray [], r1)
                else parse_elements f (skip_ws r) []
            | [] => None
            end
          else if startswith s (lit "null") then Some (JNull, skipn 4 s)
          else if startswith s (lit "true") then Some (JBool true, skipn 4 s)
          else if startswith s (lit "false") then Some (JBool false, skipn 5 s)
          else
            match scan_number s with
            | Some res => Some res
            | None =>
                if startswith s (lit "NaN") then Some (JFloat FNaN, skipn 3 s)
                else if startswith s (lit "Infinity")
                then Some (JFloat (FInf false), skipn 8 s)
                else if startswith s (lit "-Infinity")
                then Some (JFloat (FInf true), skipn 9 s)
                else None
            end
      end
  end

with parse_members (fuel : nat) (s : str) (acc : dict JSON) : option (JSON * str) :=
  match fuel with
  | O => None
  | S f =>
      match s with
      | q :: r =>
          if (q =? 34)%N then
            match scan_string r with
            | None => None
            | Some (key, r1) =>
                match skip_ws r1 with
                | c :: r2 =>
                    if (c =? 58)%N then
                      match parse_value f (skip_ws r2) with
                      | None => None
                      | Some (v, r3) =>
                          let acc' := dict_set acc key v in
                          match skip_ws r3 with
                          | d :: r4 =>
                              if (d =? 125)%N then Some (JObject acc', r4)
                              else if (d =? 44)%N
                              then parse_members f (skip_ws r4) acc'
                              else None
                          | [] => None
                          end
                      end
                    else None
                | [] => None
                end
            end
          else None
      | [] => None
      end
  end

with parse_elements (fuel : nat) (s : str) (acc : list JSON) : option (JSON * str) :=
  match fuel with
  | O => None
  | S f =>
      match parse_value f s with
      | None => None
      | Some (v, r) =>
          let acc' := acc ++ [v] in
          match skip_ws r with
          | d :: r1 =>
              if (d =? 93)%N then Some (JArray acc', r1)
              else if (d =? 44)%N then parse_elements f (skip_ws r1) acc'
              else None
          | [] => None
          end
      end
  end.

(** [json.loads]: one value, white space around it, nothing else. *)
Definition loads (s : str) : option JSON :=
  match parse_value (S (S (List.length s))) (skip_ws s) with
  | Some (v, rest) =>
      match skip_ws rest with
      | [] => Some v
      | _ => None
      end
  | None => None
  end.

(** *** [urllib.parse] *)

(** [s.partition(c)]: the text before the first [c] and, when there is
    one, the text after it. *)
Fixpoint cut (c : N) (s : str) : str * option str :=
  match s with
  | [] => ([], None)
  | x :: rest =>
      if N.eqb x c then ([], Some rest)
      else let '(a, b) := cut c rest in (x :: a, b)
  end.

Definition is_alpha (c : N) : bool :=
  (((97 <=? c) && (c <=? 122)) || ((65 <=? c) && (c <=? 90)))%N.

Definition scheme_char (c : N) : bool :=
  (is_alpha c || is_digit c || (c =? 43) || (c =? 45) || (c =? 46))%N.

Record SplitResult := {
  scheme : str;
  netloc : str;
  path : str;
  query : str;
  fragment : str
}.

(** The end of a network location: the first slash, question mark or
    hash. *)
Fixpoint split_netloc (s : str) : str * str :=
  match s with
  | [] => ([], [])
  | c :: rest =>
      if ((c =? 47) || (c =? 63) || (c =? 35))%N then ([], s)
      else let '(a, b) := split_netloc rest in (c :: a, b)
  end.

(** [urlsplit(url, default_scheme)] *)
Definition urlsplit (url default_scheme : str) : SplitResult :=
  let '(sch, url1) :=
    match cut colon url with
    | (c0 :: before, Some after_colon) =>
        if is_alpha c0 && forallb scheme_char (c0 :: before)
        then (lower (c0 :: before), after_colon)
        else (default_scheme, url)
    | _ => (default_scheme, url)
    end in
  let '(loc, url2) :=
    if startswith url1 (lit "//") then split_netloc (skipn 2 url1)
    else ([], url1) in
  let '(url3, frag) := cut 35 url2 in
  let '(url4, qry) := cut 63 url3 in
  {| scheme := sch; netloc := loc; path := url4;
     query := text_of qry; fragment := text_of frag |}.

(** [urlunsplit], for a scheme that uses a network location. *)
Definition urlunsplit (r : SplitResult) : str :=
  let url := path r in
  let url :=
    match netloc r, scheme r with
    | [], [] => url
    | _, _ =>
        if negb (startswith url (lit "//")) || nonempty (Some (netloc r)) then
          lit "//" ++ netloc r ++
          (match url with
           | [] => []
           | c :: _ => if (c =? 47)%N then url else 47%N :: url
           end)
        else url
    end in
  let url := match scheme r with [] => url | sch => sch ++ [colon] ++ url end in
  let url := match query r with [] => url | q => url ++ [63%N] ++ q end in
  match fragment r with [] => url | f => url ++ [35%N] ++ f end.

(** The loop of [urljoin] that resolves the dot segments. *)
Fixpoint resolve_segments (segments resolved : list str) : list str :=
  match segments with
  | [] => resolved
  | seg :: rest =>
      if str_eqb seg (lit "..") then resolve_segments rest (removelast resolved)
      else if str_eqb seg (lit ".") then resolve_segments rest resolved
      else resolve_segments rest (resolved ++ [seg])
  end.

Definition is_empty (s : str) : bool :=
  match s with [] => true | _ => false end.

(** [_splitparams]: the parameters of the last path segment, after its
    first semicolon. *)
Fixpoint split_params (url : str) : str * str :=
  match url with
  | [] => ([], [])
  | c :: rest =>
      if existsb (N.eqb 47) rest then
        let '(p, params) := split_params rest in (c :: p, params)
      else if (c =? 47)%N then
        match cut 59 rest with
        | (seg, Some params) => (c :: seg, params)
        | (_, None) => (url, [])
        end
      else
        match cut 59 url with
        | (seg, Some params) => (seg, params)
        | (_, None) => (url, [])
        end
  end.

Record ParseResult := {
  parts : SplitResult;   (* [path] without the parameters *)
  params : str
}.

(** [urlparse(url, default_scheme)] *)
Definition urlparse (url default_scheme : str) : ParseResult :=
  let r := urlsplit url default_scheme in
  let '(p, prm) := split_params (path r) in
  {| parts := {| scheme := scheme r; netloc := netloc r; path := p;
                 query := query r; fragment := fragment r |};
     params := prm |}.

(** [urlunparse] *)
Definition urlunparse (r : ParseResult) : str :=
  let p := parts r in
  urlunsplit {| scheme := scheme p; netloc := netloc p;
                path := match params r with
                        | [] => path p
                        | prm => path p ++ [59%N] ++ prm
                        end;
                query := query p; fragment := fragment p |}.

(** [urljoin(base, url)] for an http or https base. *)
Definition join (base url : str) : str :=
  match base, url with
  | [], _ => url
  | _, [] => base
  | _, _ =>
      let b := urlparse base [] in
      let u := urlparse url (scheme (parts b)) in
      let pb := parts b in
      let pu := parts u in
      if negb (str_eqb (scheme pu) (scheme pb)) then url
      else if nonempty (Some (netloc pu)) then urlunparse u
      else if is_empty (path pu) && is_empty (params u) then
        urlunparse
          {| parts := {| scheme := scheme pu; netloc := netloc pb;
                         path := path pb;
                         query := match query pu with [] => query pb | q => q end;
                         fragment := fragment pu |};
             params := params b |}
      else
        let base_parts :=
          let segs := split 47 (path pb) in
          if is_empty (last segs []) then segs else removelast segs in
        let segments :=
          if startswith (path pu) (lit "/") then split 47 (path pu)
          else
            match base_parts ++ split 47 (path pu) with
            | first :: (_ :: _) as more =>
                first :: filter (fun x => negb (is_empty x)) (removelast more)
                      ++ [last more []]
            | short => short
            end in
        let resolved := resolve_segments segments [] in
        let resolved :=
          let tail := last segments [] in
          if str_eqb tail (lit ".") || str_eqb tail (lit "..")
          then resolved ++ [[]] else resolved in
        let joined := join_with 47 resolved in
        urlunparse
          {| parts := {| scheme := scheme pu; netloc := netloc pb;
                         path := match joined with [] => lit "/" | _ => joined end;
                         query := query pu; fragment := fragment pu |};
             params := params u |}
  end.

(** [bytes.decode("utf-8", errors="replace")] *)
Fixpoint utf8_replace (items : list Utf8Item) : str :=
  match items with
  | [] => []
  | Bad :: rest => 0xFFFD%N :: utf8_replace rest
  | Char c :: rest => c :: utf8_replace rest
  end.

(** [unquote]: the percent escapes of every ASCII run are read as UTF-8
    bytes.  [pending] holds the bytes of the current run, last first. *)
Fixpoint unquote_go (pending : list N) (s : str) : str :=
  let flush p := utf8_replace (utf8_items Idle (rev p)) in
  match s with
  | [] => flush pending
  | c :: r =>
      if (c <? 128)%N then
        if (c =? 37)%N then
          match r with
          | h1 :: h2 :: r' =>
              match hex_value h1, hex_value h2 with
              | Some a, Some b => unquote_go ((a * 16 + b)%N :: pending) r'
              | _, _ => unquote_go (c :: pending) r
              end
          | _ => unquote_go (c :: pending) r
          end
        else unquote_go (c :: pending) r
      else flush pending ++ c :: unquote_go [] r
  end.

Definition unquote (s : str) : str := unquote_go [] s.

Definition plus_to_space (s : str) : str :=
  map (fun c => if (c =? 43)%N then 32%N else c) s.

(** [parse_qs(qs)]: fields without [=] or with an empty value are
    dropped, repeated names collect their values. *)
Definition parse_qs (qs : str) : dict (list str) :=
  fold_left
    (fun acc name_value =>
       match cut 61 name_value with
       | (name, Some (v0 :: v)) =>
           let name := unquote (plus_to_space name) in
           let value := unquote (plus_to_space (v0 :: v)) in
           match dict_get acc name with
           | Some values => dict_set acc name (values ++ [value])
           | None => dict_set acc name [value]
           end
       | _ => acc
       end)
    (split 38 qs) [].

(** *** Text of values and of exceptions *)

Fixpoint decimal_go (fuel : nat) (n : N) (acc : str) : str :=
  match fuel with
  | O => acc
  | S f =>
      let acc' := (48 + n mod 10)%N :: acc in
      if (n <? 10)%N then acc' else decimal_go f (n / 10)%N acc'
  end.

Definition decimal (n : N) : str := decimal_go (S (N.to_nat (N.log2 n))) n [].

Definition decimal_Z (z : Z) : str :=
  if (z <? 0)%Z then 45%N :: decimal (Z.to_N (- z)) else decimal (Z.to_N z).

(** [str(v)] where it is plain: [None], the booleans and the integers.
    Floats are written as their decimal, containers by their kind. *)
Definition str_of_value (v : JSON) : str :=
  match v with
  | JNull => lit "None"
  | JBool true => lit "True"
  | JBool false => lit "False"
  | JInt z => decimal_Z z
  | JFloat FNaN => lit "nan"
  | JFloat (FInf true) => lit "-inf"
  | JFloat (FInf false) => lit "inf"
  | JFloat (FDec negative m e) =>
      (if negative then [45%N] else []) ++ decimal m ++ lit "e" ++ decimal_Z e
  | JString s => s
  | JArray _ => lit "[...]"
  | JObject _ => lit "{...}"
  end.

Definition str_of_exn (e : PyExn) : str :=
  match e with
  | UnicodeDecodeError => lit "'utf-8' codec can't decode"
  | TypeError what => lit "TypeError: " ++ what
  | AttributeError what => lit "object has no attribute '" ++ what ++ lit "'"
  | LibraryError what => what
  end.

End Reference.

Definition reference_runtime : PyRuntime := {|
  json_loads := Reference.loads;
  set_to_list := nodup str_eq_dec;
  set_to_list_perm := fun xs => Permutation_refl _;
  urljoin := fun base url => Ok (Reference.join base url);
  url_query_params :=
    fun url =>
      Ok (Reference.parse_qs
            (Reference.query (Reference.parts (Reference.urlparse url []))));
  py_str := Reference.str_of_value;
  exn_str := Reference.str_of_exn
|}.

(** A literal in which the apostrophe stands for the double quote. *)
Definition qlit (s : string) : str :=
  map (fun c => if (c =? 39)%N then 34%N else c) (lit s).


(** ** The statements' own vocabulary *)

(** The extension bonus of a lowered URL [s]: 100 minus the rank for every
    rank (counted from 1) whose extension ends [s]. *)
Definition ext_bonus (exts : list str) (s : str) : Z :=
  fold_right Z.add 0%Z
    (map (fun p : nat * str =>
            if endswith s (lit "." ++ snd p) then (100 - Z.of_nat (fst p))%Z
            else 0%Z)
         (combine (seq 1 (List.length exts)) exts)).

Definition keyword_bonus (s : str) : Z := if has_keyword s then 15%Z else 0%Z.
Definition signature_bonus (s : str) : Z := if has_signature s then 10%Z else 0%Z.

(** The lines of a buffer by field. *)
Definition is_event_line (ln : str) : bool := startswith ln (lit "event:").
Definition is_data_line (ln : str) : bool :=
  negb (is_event_line ln) && startswith ln (lit "data:").

(** The name of a record in words: the value of the last [event:] line, or
    [message]. *)
Definition last_event_name (buf : list str) : str :=
  match rev (filter is_event_line buf) with
  | ln :: _ => strip (skipn 6 ln)
  | [] => lit "message"
  end.

(** The payload of a record in words: what follows the colon of each
    [data:] line, cleaned by [clean], joined by newlines, and trimmed. *)
Definition joined_payload (clean : str -> str) (buf : list str) : str :=
  strip (join_with nl (map (fun ln => clean (skipn 5 ln)) (filter is_data_line buf))).

(** Dropping exactly one leading space, as the SSE convention has it. *)
Definition drop_one_space (s : str) : str :=
  match s with
  | c :: rest => if (c =? 32)%N then rest else s
  | [] => []
  end.

(** A text holds a URL: somewhere in it stands [http] or [https] in any
    letter case, then a colon and two slashes, then a character that is
    neither white space, a quote nor an angle bracket. *)
Definition is_scheme (sch : str) : bool :=
  match sch with
  | [h; t1; t2; p] => ci 0x68 h && ci 0x74 t1 && ci 0x74 t2 && ci 0x70 p
  | [h; t1; t2; p; s] =>
      ci 0x68 h && ci 0x74 t1 && ci 0x74 t2 && ci 0x70 p && ci_s s
  | _ => false
  end.

Definition holds_url (text : str) : Prop :=
  exists before sch c rest,
    text = before ++ sch ++ lit "://" ++ c :: rest /\
    is_scheme sch = true /\ url_char c = true.

(** The chunks of a trace that are [done] events. *)
Definition is_done_chunk (chunk : str) : bool :=
  startswith chunk (lit "event: done" ++ [nl]).

Definition is_error_chunk (chunk : str) : bool :=
  startswith chunk (lit "event: error" ++ [nl]).

Fixpoint dones (t : list Action) : list str :=
  match t with
  | [] => []
  | Yield chunk :: rest =>
      if is_done_chunk chunk then chunk :: dones rest else dones rest
  | Post _ _ :: rest => dones rest
  end.

Fixpoint posts (t : list Action) : list (str * ToolCall) :=
  match t with
  | [] => []
  | Post url payload :: rest => (url, payload) :: posts rest
  | Yield _ :: rest => posts rest
  end.

(** The buffers the read loop hands to [flush_and_emit] when no flush ends
    the session: the records of the upstream. *)
Fixpoint records_of (buffer : list str) (lines : list bytes) : list (list str) :=
  match lines with
  | [] => []
  | raw_line :: rest =>
      if is_blank raw_line then buffer :: records_of [] rest
      else
        match _safe_decode raw_line with
        | Ok text => records_of (buffer ++ [strip text]) rest
        | Raise _ => []
        end
  end.

(** No record of the upstream carries a URL. *)
Definition sends_no_url (w : World) : Prop :=
  match requests_get w with
  | GetRaises _ => True
  | Response _ _ lines _ =>
      Forall (fun buf => URL_RE_findall (payload_of buf) = []) (records_of [] lines)
  end.

(** A record reaches the handshake branch: it has a payload without URL,
    is no ping, and is named [endpoint]. *)
Definition is_handshake `{PyRuntime} (buf : list str) : bool :=
  match payload_of buf with
  | [] => false
  | data_str =>
      is_empty_list (URL_RE_findall data_str)
      && negb (is_ping (json_loads data_str))
      && str_eqb (record_name buf) (lit "endpoint")
  end.

(** Bytes of an ASCII literal. *)
Definition blit (s : string) : bytes := list_byte_of_string s.

(** How one call of [flush_and_emit] on the buffer [buf] can end, from the
    variables [st]: the seven ways out of its body. *)
Inductive Outcome `{PyRuntime} (cl : Closure)
    (post : str -> ToolCall -> option PyExn)
    (st : Session) (buf : list str) : Step -> Prop :=
| quiet (a : list Action) :
    dones a = [] -> posts a = [] ->
    Outcome cl post st buf (returns a st)
| raised_early (e : PyExn) :
    Outcome cl post st buf (raises st e)
| found_url (best : str) :
    In best (URL_RE_findall (payload_of buf)) ->
    Outcome cl post st buf
      (returns [Yield (done_url_chunk (replace ESCAPED_AMP (lit "&") best));
                Yield EOF_CHUNK]
               (set_sent_done st))
| token_exhausted :
    URL_RE_findall (payload_of buf) = [] ->
    Outcome cl post st buf
      (returns [Yield TOKEN_CHUNK; Yield DONE_CHUNK] (set_sent_done st))
| handshake_idle (e : option str) (ctx : dict JSON) :
    is_handshake buf = true ->
    _endpoint_and_context_from_data (payload_of buf) = Ok (e, ctx) ->
    called st = true \/ nonempty e = false ->
    Outcome cl post st buf (returns [] (set_handshake st e ctx))
| trigger_failed (e : option str) (ctx : dict JSON) (ex : PyExn) :
    is_handshake buf = true ->
    _endpoint_and_context_from_data (payload_of buf) = Ok (e, ctx) ->
    called st = false -> nonempty e = true ->
    post (text_of e) (make_payload cl (context (set_handshake st e ctx))) = Some ex ->
    Outcome cl post st buf
      (returns
         [Post (text_of e) (make_payload cl (context (set_handshake st e ctx)));
          Yield (error_chunk (lit "tools/call failed: " ++ exn_str ex));
          Yield DONE_CHUNK]
         (set_sent_done (set_handshake st e ctx)))
| triggered (e : option str) (ctx : dict JSON) :
    is_handshake buf = true ->
    _endpoint_and_context_from_data (payload_of buf) = Ok (e, ctx) ->
    called st = false -> nonempty e = true ->
    post (text_of e) (make_payload cl (context (set_handshake st e ctx))) = None ->
    Outcome cl post st buf
      (returns
         [Post (text_of e) (make_payload cl (context (set_handshake st e ctx)));
          Yield STARTED_CHUNK]
         (set_called (set_handshake st e ctx))).

(** The line the read loop appends for a raw line. *)
Definition decoded_line (raw_line : bytes) : str :=
  match _safe_decode raw_line with
  | Ok text => strip text
  | Raise _ => []
  end.

(** A record that carries a URL. *)
Definition carries_url (buf : list str) : Prop :=
  URL_RE_findall (payload_of buf) <> [].

(** A byte below 128. *)
Definition is_ascii_byte (b : byte) : bool := (Byte.to_N b <? 128)%N.

(** A text is a URL as [URL_RE] matches them: a scheme, a colon and two
    slashes, and a non-empty run of URL characters. *)
Definition is_url (u : str) : Prop :=
  exists sch body,
    u = sch ++ lit "://" ++ body /\ is_scheme sch = true /\
    body <> [] /\ forallb url_char body = true.

(** [u] occurs in [text]. *)
Definition occurs_in (u text : str) : Prop :=
  exists before rest, text = before ++ u ++ rest.

(** A decoded value is text. *)
Definition is_string (v : JSON) : bool :=
  match v with JString _ => true | _ => false end.

(** The step of [query_fields] for one key. *)
Definition query_field (q : dict (list str)) (ctx : dict JSON) (k : str) : dict JSON :=
  match dict_get q k with
  | Some (v :: _) => dict_set ctx k (JString v)
  | _ => ctx
  end.

(** A decoded value is a JSON object. *)
Definition is_object (json_obj : option JSON) : bool :=
  match json_obj with Some (JObject _) => true | _ => false end.

(** What a trace holds after its first [done] event, if it has one. *)
Fixpoint after_done (t : list Action) : option (list Action) :=
  match t with
  | [] => None
  | Yield chunk :: rest =>
      if is_done_chunk chunk then Some rest else after_done rest
  | Post _ _ :: rest => after_done rest
  end.

(** The chunks a client can be sent: an event named [log], [error] or
    [done], or the end-of-file comment. *)
Definition is_downstream_chunk (chunk : str) : Prop :=
  chunk = EOF_CHUNK \/
  exists name payload,
    chunk = event_chunk name payload /\
    (name = lit "log" \/ name = lit "error" \/ name = lit "done").

(** Two runs of the read loop end alike: by the same exception, or both
    without one. *)
Definition same_end (x y : LoopExit) : Prop :=
  match x, y with
  | Threw e, Threw e' => e = e'
  | Threw _, _ | _, Threw _ => False
  | _, _ => True
  end.

(** The keys of a dictionary are pairwise distinct. *)
Definition distinct_keys {V} (d : dict V) : Prop := NoDup (map fst d).

(** [d.update(other)], read key by key. *)
Definition merged {V} (d other : dict V) (k : str) : option V :=
  match dict_get other k with
  | Some v => Some v
  | None => dict_get d k
  end.

(** [sep.join(parts)] for a separator of any length. *)
Fixpoint join_text (sep : str) (parts : list str) : str :=
  match parts with
  | [] => []
  | [p] => p
  | p :: rest => p ++ sep ++ join_text sep rest
  end.

(** The records a run of the read loop hands to [flush_and_emit], in
    order: the buffer at every blank line met while the session is not
    done. *)
Fixpoint flushed_records `{PyRuntime} (cl : Closure)
    (post : str -> ToolCall -> option PyExn)
    (st : Session) (buffer : list str) (lines : list bytes) : list (list str) :=
  match lines with
  | [] => []
  | raw_line :: rest =>
      if sent_done st then []
      else if is_blank raw_line then
        let s := flush_and_emit cl post st buffer in
        buffer :: match raised s with
                  | Some _ => []
                  | None => flushed_records cl post (after s) [] rest
                  end
      else
        match _safe_decode raw_line with
        | Raise _ => []
        | Ok text => flushed_records cl post st (buffer ++ [strip text]) rest
        end
  end.

(** The records a session reads: none when the connection fails or is
    refused. *)
Definition records_read `{PyRuntime} (cl : Closure) (w : World) : list (list str) :=
  match requests_get w with
  | GetRaises _ => []
  | Response status_code _ lines _ =>
      if negb (status_code =? 200)%Z then []
      else flushed_records cl (requests_post w) initial_session [] lines
  end.

(** *** What a client parses

    The text on the wire is the chunks of a trace one after another.  A
    client reads it as an event stream: lines end at a line feed, a
    carriage return or both; a line that opens with a colon is a comment;
    the field [event] names the event, every field [data] adds a line to
    its data; an empty line dispatches the event if it has data; what
    follows the last line end is dropped. *)
Definition wire (t : list Action) : str :=
  flat_map (fun a => match a with Yield chunk => chunk | Post _ _ => [] end) t.

Fixpoint sse_lines (text cur : str) : list str :=
  match text with
  | [] => []
  | c :: rest =>
      if (c =? 10)%N then rev cur :: sse_lines rest []
      else if (c =? 13)%N then
        rev cur :: match rest with
                   | c' :: rest' =>
                       if (c' =? 10)%N then sse_lines rest' []
                       else sse_lines rest []
                   | [] => []
                   end
      else sse_lines rest (c :: cur)
  end.

Definition sse_field (line : str) : str * str :=
  match split1 colon line with
  | [field; value] => (field, drop_one_space value)
  | _ => (line, [])
  end.

Fixpoint sse_dispatch (lines : list str) (name : str) (data : option str)
  : list (str * str) :=
  match lines with
  | [] => []
  | [] :: rest =>
      match data with
      | Some d =>
          (match name with [] => lit "message" | _ => name end, d)
          :: sse_dispatch rest [] None
      | None => sse_dispatch rest [] None
      end
  | (c :: _) as line :: rest =>
      if (c =? colon)%N then sse_dispatch rest name data
      else
        let '(field, value) := sse_field line in
        if str_eqb field (lit "event") then sse_dispatch rest value data
        else if str_eqb field (lit "data") then
          sse_dispatch rest name
            (Some match data with
                  | Some d => d ++ [nl] ++ value
                  | None => value
                  end)
        else sse_dispatch rest name data
  end.

(** The [done] events a client reads out of a trace, by their data. *)
Definition observed_dones (t : list Action) : list str :=
  map snd
    (filter (fun ev => str_eqb (fst ev) (lit "done"))
       (sse_dispatch (sse_lines (wire t) []) [] None)).

(** [link] is [best] with every backslash-u0026 written as an ampersand:
    cut at its escapes, [best] falls into parts that hold none, and [link]
    is those parts with an ampersand between them. *)
Definition ampersands_restored (best link : str) : Prop :=
  exists parts,
    best = join_text (lit "\" ++ lit "u0026") parts /\
    Forall (fun part => contains part (lit "\" ++ lit "u0026") = false) parts /\
    link = join_text (lit "&") parts.

(** ** Sample inputs *)

(** The closure of a [ppt-fast] request under the default configuration. *)
Definition sample_closure : Closure :=
  {| query_text := lit "Q3 review"; use_network_text := lit "true";
     tool_name := lit "gen_ppt_fast"; export_ext := lit "pptx";
     secret_id := lit "id"; sign := lit "00"; exts := default_exts |}.

(** A world whose upstream answers 200 with the given lines and closes
    cleanly, and whose trigger POST succeeds. *)
Definition upstream_of (lines : list bytes) : World :=
  {| requests_get := Response 200 (Ok []) lines CleanClose;
     requests_post := fun _ _ => None |}.

(** A world whose upstream answers 200 with the given lines and then ends
    as told. *)
Definition upstream_ending (lines : list bytes) (ending : Ending)
    (post : str -> ToolCall -> option PyExn) : World :=
  {| requests_get := Response 200 (Ok []) lines ending;
     requests_post := post |}.

(** Bytes of an ASCII literal in which an apostrophe stands for a double
    quote. *)
Definition qblit (s : string) : bytes :=
  map (fun b => if Byte.eqb b x27 then x22 else b) (blit s).

(** A trigger POST that returns, and one that is refused. *)
Definition accepting_post : str -> ToolCall -> option PyExn := fun _ _ => None.

Definition refusing_post : str -> ToolCall -> option PyExn :=
  fun _ _ => Some (LibraryError (lit "refused")).

(** A configured server and a request for a document. *)
Definition sample_environ : Environ :=
  {| SKYWORK_SECRET_ID := Some (lit "id");
     SKYWORK_SECRET_KEY := Some (lit "key");
     SKYWORK_MCP_SSE_URL := None;
     DECKPILOT_PREFERRED_EXTS := None |}.

Definition sample_request : MakeDeckReq :=
  {| topic := lit "Q3 review"; template_hint := None; use_network := true;
     mode := doc; outline_md := None |}.

(** A session that a first handshake has named. *)
Definition named_session : Session :=
  {| endpoint_url := Some (lit "https://api.skywork.ai/open/message?sessionId=a");
     called := true;
     context := [(lit "sessionId", JString (lit "a"));
                 (lit "room", JString (lit "r1"))];
     sent_done := false |}.

(** A server whose preference list was written with a space after the
    comma. *)
Definition spaced_environ : Environ :=
  {| SKYWORK_SECRET_ID := Some (lit "id");
     SKYWORK_SECRET_KEY := Some (lit "key");
     SKYWORK_MCP_SSE_URL := None;
     DECKPILOT_PREFERRED_EXTS := Some (lit "PPTX, docx") |}.

(** * Properties *)

Unset Implicit Arguments.

(** ** The line decoder *)

Lemma utf8_strict_raises_only_decode_error (items : list Utf8Item) (e : PyExn) :
  utf8_strict items = Raise e -> e = UnicodeDecodeError.
Proof.
  induction items as [|[c|] rest IH]; simpl.
  - discriminate.
  - destruct (utf8_strict rest); [discriminate|].
    intros [= <-]. now apply IH.
  - now intros [= <-].
Qed.

(** Where strict decoding succeeds, the lossy reading is the same text. *)
Lemma utf8_strict_lossy (items : list Utf8Item) (s : str) :
  utf8_strict items = Ok s -> utf8_lossy items = s.
Proof.
  revert s. induction items as [|[c|] rest IH]; simpl; intros s.
  - now intros [= <-].
  - destruct (utf8_strict rest); [|discriminate].
    intros [= <-]. f_equal. now apply IH.
  - discriminate.
Qed.

Lemma safe_decode_total (b : bytes) : exists s, _safe_decode b = Ok s.
Proof.
  unfold _safe_decode, safe_decode_with.
  destruct (decode_utf8 Strict b) as [s|e] eqn:Hstrict; [eauto|].
  apply utf8_strict_raises_only_decode_error in Hstrict. subst e.
  simpl. eauto.
Qed.

(** C9: [_safe_decode] returns text for every byte sequence and never
    raises.  It returns the strict UTF-8 reading when there is one; when
    the strict reading raises, the exception is [UnicodeDecodeError] and the
    result is the UTF-8 reading that ignores invalid sequences; and were
    that second attempt to raise anything, the result would be the latin-1
    reading, which maps every byte to the code point of its value. *)
Theorem safe_decode_never_raises :
  (forall b : bytes, exists s, _safe_decode b = Ok s) /\
  (forall (b : bytes) (s : str),
      decode_utf8 Strict b = Ok s -> _safe_decode b = Ok s) /\
  (forall (b : bytes) (e : PyExn),
      decode_utf8 Strict b = Raise e ->
      e = UnicodeDecodeError /\ _safe_decode b = decode_utf8 Ignore b) /\
  (forall (first retry : bytes -> Result str) (b : bytes) (e : PyExn),
      first b = Raise UnicodeDecodeError -> retry b = Raise e ->
      safe_decode_with first retry decode_latin1 b = Ok (map Byte.to_N b)).
Proof.
  assert (staged : forall b e, decode_utf8 Strict b = Raise e ->
            e = UnicodeDecodeError /\ _safe_decode b = decode_utf8 Ignore b).
  { intros b e Hraise.
    assert (e = UnicodeDecodeError) as ->
      by (eapply utf8_strict_raises_only_decode_error; exact Hraise).
    split; [reflexivity|].
    unfold _safe_decode, safe_decode_with. now rewrite Hraise. }
  split; [|split; [|split]].
  - intros b. destruct (decode_utf8 Strict b) as [s|e] eqn:Hstrict.
    + exists s. unfold _safe_decode, safe_decode_with. now rewrite Hstrict.
    + destruct (staged b e Hstrict) as [_ ->]. simpl. eauto.
  - intros b s Hok. unfold _safe_decode, safe_decode_with. now rewrite Hok.
  - exact staged.
  - intros first retry b e Hfirst Hretry.
    unfold safe_decode_with. now rewrite Hfirst, Hretry.
Qed.

(** The three stages of C9 on a valid line, on a line cut inside a
    character, and with a retry that fails. *)
Lemma safe_decode_never_raises_witness :
  _safe_decode [xe8; xaf; xb7; x61] = Ok [0x8BF7%N; 0x61%N] /\
  (UnicodeDecodeError = UnicodeDecodeError /\
   _safe_decode [x61; xe8; xaf] = decode_utf8 Ignore [x61; xe8; xaf]) /\
  safe_decode_with (fun _ => Raise UnicodeDecodeError)
                   (fun _ => Raise (LibraryError []))
                   decode_latin1 [xe8; x61]
  = Ok [0xE8%N; 0x61%N].
Proof.
  destruct safe_decode_never_raises as (_ & Hok & Hstaged & Hfallback).
  split; [|split].
  - apply Hok. reflexivity.
  - apply (Hstaged _ UnicodeDecodeError). reflexivity.
  - exact (Hfallback _ _ [xe8; x61] (LibraryError []) eq_refl eq_refl).
Defined.

(** ** [build_query] *)

Lemma mode_desc_is_topic (m : Mode) :
  dict_get_default mode_desc (mode_name m)
    (dict_get_default mode_desc (lit "ppt-fast") []) = lit "{topic}".
Proof. destruct m; reflexivity. Qed.

Lemma format_topic_field (t : str) : format_topic (lit "{topic}") t = t.
Proof.
  unfold format_topic, replace. cbn. now rewrite app_nil_r.
Qed.

(** C10: requests that agree on [topic], [template_hint] and [outline_md]
    get the same query text, whatever their [mode] (and [use_network]);
    the mode only selects the tool name and the export extension of the
    connection parameters. *)
Theorem build_query_ignores_mode (r1 r2 : MakeDeckReq) :
  topic r1 = topic r2 ->
  template_hint r1 = template_hint r2 ->
  outline_md r1 = outline_md r2 ->
  build_query r1 = build_query r2.
Proof.
  intros Ht Hh Ho. unfold build_query.
  rewrite !mode_desc_is_topic, Ht, Hh, Ho. reflexivity.
Qed.

Lemma build_query_ignores_mode_witness :
  build_query {| topic := lit "Q3 review"; template_hint := Some (lit "blue");
                 use_network := true; mode := ppt; outline_md := None |}
  = build_query {| topic := lit "Q3 review"; template_hint := Some (lit "blue");
                   use_network := true; mode := excel; outline_md := None |}.
Proof.
  apply build_query_ignores_mode; reflexivity.
Defined.

(** ** The handshake parser *)

(** C8: when the JSON reader, [urljoin] and [parse_qs] answer as the
    libraries do on this payload, the handshake payload whose [endpoint]
    member is [/open/message?sessionId=abc123] resolves to the endpoint
    [https://api.skywork.ai/open/message?sessionId=abc123] with the context
    that maps [sessionId] to [abc123]. *)
Theorem handshake_payload_resolves (rt : PyRuntime) :
  json_loads (qlit "{'endpoint':'/open/message?sessionId=abc123'}")
    = Some (JObject [(lit "endpoint", JString (lit "/open/message?sessionId=abc123"))]) ->
  urljoin (lit "https://api.skywork.ai") (lit "/open/message?sessionId=abc123")
    = Ok (lit "https://api.skywork.ai/open/message?sessionId=abc123") ->
  url_query_params (lit "https://api.skywork.ai/open/message?sessionId=abc123")
    = Ok [(lit "sessionId", [lit "abc123"])] ->
  _endpoint_and_context_from_data (qlit "{'endpoint':'/open/message?sessionId=abc123'}")
  = Ok (Some (lit "https://api.skywork.ai/open/message?sessionId=abc123"),
        [(lit "sessionId", JString (lit "abc123"))]).
Proof.
  intros Hjson Hjoin Hquery.
  unfold _endpoint_and_context_from_data.
  replace (startswith (qlit "{'endpoint':'/open/message?sessionId=abc123'}") (lit "{"))
    with true by reflexivity.
  rewrite Hjson.
  replace (meta_fields [(lit "endpoint", JString (lit "/open/message?sessionId=abc123"))] [])
    with (JString (lit "/open/message?sessionId=abc123"), @nil (str * JSON))
    by reflexivity.
  replace (truthy (JString (lit "/open/message?sessionId=abc123"))) with true
    by reflexivity.
  replace (startswith (lit "/open/message?sessionId=abc123") (lit "/")) with true
    by reflexivity.
  cbv beta iota zeta delta [negb BASE_ORIGIN].
  rewrite Hjoin, Hquery. reflexivity.
Qed.

(** The reference runtime reads, joins and parses as C8 supposes. *)
Lemma handshake_payload_resolves_witness :
  @_endpoint_and_context_from_data reference_runtime
     (qlit "{'endpoint':'/open/message?sessionId=abc123'}")
  = Ok (Some (lit "https://api.skywork.ai/open/message?sessionId=abc123"),
        [(lit "sessionId", JString (lit "abc123"))]).
Proof.
  apply (handshake_payload_resolves reference_runtime); vm_compute; reflexivity.
Defined.

(** ** The URL scorer *)

Lemma score_exts_sum (s : str) (exts : list str) :
  forall (k : nat) (acc : Z),
    score_exts s (Z.of_nat k) exts acc
    = (acc + fold_right Z.add 0
               (map (fun p : nat * str =>
                       if endswith s (lit "." ++ snd p)
                       then 100 - Z.of_nat (fst p) else 0)
                    (combine (seq k (List.length exts)) exts)))%Z.
Proof.
  induction exts as [|ext rest IH]; intros k acc.
  - simpl. lia.
  - cbn [score_exts List.length seq combine map fold_right fst snd].
    replace (Z.of_nat k + 1)%Z with (Z.of_nat (S k)) by lia.
    rewrite IH.
    destruct (endswith s (lit "." ++ ext)); lia.
Qed.

Lemma score_url_sum (exts : list str) (u : str) :
  _score_url exts u
  = (10 + ext_bonus exts (lower u) + keyword_bonus (lower u)
     + signature_bonus (lower u))%Z.
Proof.
  unfold _score_url, ext_bonus, keyword_bonus, signature_bonus.
  pose proof (score_exts_sum (lower u) exts 1 10) as Hsum.
  change (Z.of_nat 1) with 1%Z in Hsum. rewrite Hsum.
  destruct (has_keyword (lower u)), (has_signature (lower u)); lia.
Qed.

Lemma startswith_both (r a b : str) :
  startswith r a = true -> startswith r b = true ->
  startswith a b = true \/ startswith b a = true.
Proof.
  revert a b. induction r as [|c r IH]; intros [|x a] [|y b]; simpl; auto;
    try discriminate.
  intros Ha Hb.
  apply andb_prop in Ha as [Hx Ha]. apply andb_prop in Hb as [Hy Hb].
  apply N.eqb_eq in Hx, Hy. subst x y.
  rewrite N.eqb_refl. simpl. now apply IH.
Qed.

Lemma endswith_exclusive (s p q : str) :
  endswith s p = true ->
  startswith (rev p) (rev q) = false ->
  startswith (rev q) (rev p) = false ->
  endswith s q = false.
Proof.
  unfold endswith. intros Hp Hpq Hqp.
  destruct (startswith (rev s) (rev q)) eqn:Hq; [|reflexivity].
  destruct (startswith_both _ _ _ Hp Hq) as [H|H]; congruence.
Qed.

(** Under the default preference list a lowered URL has the bonus of the
    one extension that ends it. *)
Lemma default_bonus_at_rank (s ext : str) (rank : nat) :
  nth_error default_exts rank = Some ext ->
  endswith s (lit "." ++ ext) = true ->
  ext_bonus default_exts s = (100 - Z.of_nat (S rank))%Z.
Proof.
  intros Hnth Hends.
  assert (Hex : forall q, startswith (rev (lit "." ++ ext)) (rev q) = false ->
                     startswith (rev q) (rev (lit "." ++ ext)) = false ->
                     endswith s q = false)
    by (intros q; now apply endswith_exclusive).
  unfold ext_bonus.
  change default_exts with [lit "pptx"; lit "docx"; lit "xlsx"; lit "pdf"; lit "zip"] in *.
  cbn [List.length seq combine map fold_right fst snd].
  do 5 (destruct rank as [|rank];
        [ injection Hnth as <-;
          rewrite Hends;
          repeat match goal with
          | |- context [endswith s ?q] =>
              lazymatch q with
              | _ => rewrite (Hex q) by reflexivity
              end
          end; reflexivity
        | simpl in Hnth ]).
  destruct rank; discriminate.
Qed.

Lemma default_bonus_none (s : str) :
  (forall ext, In ext default_exts -> endswith s (lit "." ++ ext) = false) ->
  ext_bonus default_exts s = 0%Z.
Proof.
  intros Hnone. unfold ext_bonus.
  change default_exts with [lit "pptx"; lit "docx"; lit "xlsx"; lit "pdf"; lit "zip"] in *.
  cbn [List.length seq combine map fold_right fst snd].
  rewrite !Hnone by (simpl; tauto). reflexivity.
Qed.

Lemma insert_desc_not_nil (key : str -> Z) (x : str) (l : list str) :
  insert_desc key x l <> [].
Proof. destruct l; simpl; [|destruct (_ <? _)%Z]; discriminate. Qed.

Lemma sorted_desc_nil (key : str -> Z) (l : list str) :
  sorted_desc key l = [] -> l = [].
Proof.
  destruct l as [|x l]; [reflexivity|]. simpl. intros H.
  now apply insert_desc_not_nil in H.
Qed.

(** The head of the sorted list is an element of greatest key. *)
Lemma sorted_desc_head (key : str -> Z) (l : list str) (u : str) :
  hd_error (sorted_desc key l) = Some u ->
  In u l /\ forall v, In v l -> (key v <= key u)%Z.
Proof.
  revert u. induction l as [|x l IH]; intros u; simpl; [discriminate|].
  destruct (sorted_desc key l) as [|y rest] eqn:Hsorted.
  - apply sorted_desc_nil in Hsorted. subst l. simpl.
    intros [= <-]. split; [now left|]. intros v [<-|[]]. lia.
  - specialize (IH y eq_refl) as [Hin Hmax]. simpl.
    destruct (key x <? key y)%Z eqn:Hlt; simpl; intros [= <-].
    + apply Z.ltb_lt in Hlt. split; [now right|].
      intros v [<-|Hv]; [lia|now apply Hmax].
    + apply Z.ltb_ge in Hlt. split; [now left|].
      intros v [<-|Hv]; [lia|]. specialize (Hmax v Hv). lia.
Qed.

Lemma pick_best_of (exts : list str) (urls : list str) :
  urls <> [] ->
  exists best,
    _pick_best_url exts urls = Some best /\ In best urls /\
    forall v, In v urls -> (_score_url exts v <= _score_url exts best)%Z.
Proof.
  intros Hne. unfold _pick_best_url.
  destruct urls as [|x l]; [congruence|].
  destruct (hd_error (sorted_desc (_score_url exts) (x :: l))) as [u|] eqn:Hhd.
  - exists u. split; [reflexivity|]. now apply sorted_desc_head.
  - exfalso. simpl in Hhd.
    destruct (insert_desc (_score_url exts) x (sorted_desc (_score_url exts) l)) eqn:Hins;
      [now apply insert_desc_not_nil in Hins|discriminate].
Qed.

(** Of two URLs the one of strictly greater score is picked, in either
    order. *)
Lemma pick_best_of_two (exts : list str) (a b : str) :
  (_score_url exts a < _score_url exts b)%Z ->
  _pick_best_url exts [a; b] = Some b /\ _pick_best_url exts [b; a] = Some b.
Proof.
  intros Hlt. unfold _pick_best_url, sorted_desc. simpl.
  assert ((_score_url exts a <? _score_url exts b)%Z = true) as ->
    by now apply Z.ltb_lt.
  assert ((_score_url exts b <? _score_url exts a)%Z = false) as ->
    by (apply Z.ltb_ge; lia).
  now split.
Qed.

Lemma bonus_values (s : str) :
  let b := (keyword_bonus s + signature_bonus s)%Z in
  b = 0%Z \/ b = 10%Z \/ b = 15%Z \/ b = 25%Z.
Proof.
  unfold keyword_bonus, signature_bonus.
  destruct (has_keyword s), (has_signature s); simpl; auto.
Qed.

(** C7, as the code has it: the score of a URL is 10, plus 100 minus the
    rank for every extension of the preference list that ends the lowered
    URL (under the default list that is the one term 100 minus the rank of
    the extension that ends it, or nothing), plus 15 for a keyword, plus 10
    for a signature marker, all tested on the lowered URL.  Of a [.zip] and
    a [.pptx] URL the [.pptx] one is picked, in either order, when the
    keyword and signature bonuses of the [.zip] URL do not exceed its own;
    when they do, the [.zip] URL is picked. *)
Theorem score_url_formula_and_pick :
  (forall exts u,
      (_score_url exts u
       = 10 + ext_bonus exts (lower u) + keyword_bonus (lower u)
         + signature_bonus (lower u))%Z) /\
  (forall u ext rank,
      nth_error default_exts rank = Some ext ->
      endswith (lower u) (lit "." ++ ext) = true ->
      (_score_url default_exts u
       = 10 + (100 - Z.of_nat (S rank)) + keyword_bonus (lower u)
         + signature_bonus (lower u))%Z) /\
  (forall u,
      (forall ext, In ext default_exts ->
                   endswith (lower u) (lit "." ++ ext) = false) ->
      (_score_url default_exts u
       = 10 + keyword_bonus (lower u) + signature_bonus (lower u))%Z) /\
  (forall z p,
      endswith (lower z) (lit ".zip") = true ->
      endswith (lower p) (lit ".pptx") = true ->
      (keyword_bonus (lower z) + signature_bonus (lower z)
       <= keyword_bonus (lower p) + signature_bonus (lower p))%Z ->
      _pick_best_url default_exts [z; p] = Some p /\
      _pick_best_url default_exts [p; z] = Some p) /\
  (forall z p,
      endswith (lower z) (lit ".zip") = true ->
      endswith (lower p) (lit ".pptx") = true ->
      (keyword_bonus (lower p) + signature_bonus (lower p)
       < keyword_bonus (lower z) + signature_bonus (lower z))%Z ->
      _pick_best_url default_exts [z; p] = Some z /\
      _pick_best_url default_exts [p; z] = Some z).
Proof.
  assert (Hrank : forall u ext rank,
      nth_error default_exts rank = Some ext ->
      endswith (lower u) (lit "." ++ ext) = true ->
      (_score_url default_exts u
       = 10 + (100 - Z.of_nat (S rank)) + keyword_bonus (lower u)
         + signature_bonus (lower u))%Z).
  { intros u ext rank Hnth Hends.
    rewrite score_url_sum, (default_bonus_at_rank _ _ _ Hnth Hends). reflexivity. }
  assert (Hzip : forall z, endswith (lower z) (lit ".zip") = true ->
      (_score_url default_exts z
       = 105 + keyword_bonus (lower z) + signature_bonus (lower z))%Z).
  { intros z Hz. rewrite (Hrank z (lit "zip") 4%nat eq_refl Hz). simpl Z.of_nat. lia. }
  assert (Hpptx : forall p, endswith (lower p) (lit ".pptx") = true ->
      (_score_url default_exts p
       = 109 + keyword_bonus (lower p) + signature_bonus (lower p))%Z).
  { intros p Hp. rewrite (Hrank p (lit "pptx") 0%nat eq_refl Hp). simpl Z.of_nat. lia. }
  split; [exact score_url_sum|].
  split; [exact Hrank|].
  split; [|split].
  - intros u Hnone. rewrite score_url_sum, (default_bonus_none _ Hnone). lia.
  - intros z p Hz Hp Hle. apply pick_best_of_two.
    rewrite (Hzip z Hz), (Hpptx p Hp). lia.
  - intros z p Hz Hp Hlt. apply and_comm, pick_best_of_two.
    rewrite (Hzip z Hz), (Hpptx p Hp).
    pose proof (bonus_values (lower z)) as Bz.
    pose proof (bonus_values (lower p)) as Bp. simpl in Bz, Bp. lia.
Qed.

(** C7 at a [.docx] URL, at a URL without preferred extension, and at two
    pairs of a [.zip] and a [.pptx] URL. *)
Lemma score_url_formula_and_pick_witness :
  _score_url default_exts (lit "https://x.test/Export/Report.DOCX") = 123%Z /\
  _score_url default_exts (lit "https://x.test/out.pptx?signature=abc") = 20%Z /\
  (_pick_best_url default_exts
     [lit "https://x.test/a.zip"; lit "https://x.test/a.pptx"]
     = Some (lit "https://x.test/a.pptx") /\
   _pick_best_url default_exts
     [lit "https://x.test/a.pptx"; lit "https://x.test/a.zip"]
     = Some (lit "https://x.test/a.pptx")) /\
  (_pick_best_url default_exts
     [lit "https://x.test/a.zip?token=1.zip"; lit "https://x.test/a.pptx"]
     = Some (lit "https://x.test/a.zip?token=1.zip") /\
   _pick_best_url default_exts
     [lit "https://x.test/a.pptx"; lit "https://x.test/a.zip?token=1.zip"]
     = Some (lit "https://x.test/a.zip?token=1.zip")).
Proof.
  destruct score_url_formula_and_pick as (_ & Hrank & Hnone & Hpptx & Hzip).
  split; [|split; [|split]].
  - refine (Hrank (lit "https://x.test/Export/Report.DOCX") (lit "docx") 1%nat _ _);
      vm_compute; reflexivity.
  - refine (Hnone (lit "https://x.test/out.pptx?signature=abc") _).
    intros ext Hin.
    change default_exts
      with [lit "pptx"; lit "docx"; lit "xlsx"; lit "pdf"; lit "zip"] in Hin.
    repeat (destruct Hin as [<-|Hin]; [vm_compute; reflexivity|]). destruct Hin.
  - refine (Hpptx (lit "https://x.test/a.zip") (lit "https://x.test/a.pptx") _ _ _);
      vm_compute; solve [reflexivity | discriminate].
  - refine (Hzip (lit "https://x.test/a.zip?token=1.zip")
                 (lit "https://x.test/a.pptx") _ _ _);
      vm_compute; reflexivity.
Defined.

(** C7 as stated fails: a [.zip] URL that earns the keyword bonus outscores
    a [.pptx] URL that does not, and is the one returned, in either order
    of the input. *)
Lemma pptx_does_not_always_win :
  let zip := lit "https://x.test/download/a.zip" in
  let pptx := lit "https://x.test/a.pptx" in
  endswith zip (lit ".zip") = true /\
  endswith pptx (lit ".pptx") = true /\
  _score_url default_exts zip = 120%Z /\
  _score_url default_exts pptx = 109%Z /\
  _pick_best_url default_exts [zip; pptx] = Some zip /\
  _pick_best_url default_exts [pptx; zip] = Some zip /\
  zip <> pptx.
Proof.
  vm_compute. repeat split; discriminate.
Qed.

(** ** The event assembler *)

Lemma startswith_split (s p : str) :
  startswith s p = true -> s = p ++ skipn (List.length p) s.
Proof.
  revert s. induction p as [|x p IH]; intros [|y s]; simpl; try discriminate; auto.
  intros H. apply andb_prop in H as [Hx H]. apply N.eqb_eq in Hx. subst y.
  f_equal. now apply IH.
Qed.

Lemma startswith_app (p rest : str) : startswith (p ++ rest) p = true.
Proof.
  induction p as [|x p IH]; simpl; [reflexivity|].
  now rewrite N.eqb_refl, IH.
Qed.

(** What [split(":", 1)[1]] is on the two kinds of field line. *)
Lemma event_line_value (ln : str) :
  startswith ln (lit "event:") = true ->
  nth 1 (split1 colon ln) [] = skipn 6 ln.
Proof.
  intros H. apply startswith_split in H. rewrite H. reflexivity.
Qed.

Lemma data_line_value (ln : str) :
  startswith ln (lit "data:") = true ->
  nth 1 (split1 colon ln) [] = skipn 5 ln.
Proof.
  intros H. apply startswith_split in H. rewrite H. reflexivity.
Qed.

Lemma lstrip_app (x y : str) :
  lstrip (x ++ y) = match lstrip x with [] => lstrip y | t => t ++ y end.
Proof.
  induction x as [|c x IH]; simpl.
  - now destruct (lstrip y).
  - destruct (is_space c); [exact IH|reflexivity].
Qed.

Lemma strip_app_nl (x : str) : strip (x ++ [nl]) = strip x.
Proof.
  unfold strip, rstrip. rewrite lstrip_app.
  destruct (lstrip x) as [|c t] eqn:Hx; [reflexivity|].
  now rewrite rev_app_distr.
Qed.

Lemma concat_lines_join (pieces : list str) :
  pieces <> [] ->
  List.concat (map (fun piece => piece ++ [nl]) pieces) = join_with nl pieces ++ [nl].
Proof.
  induction pieces as [|x [|y rest] IH]; intros Hne; [congruence| |].
  - simpl. now rewrite app_nil_r.
  - change (List.concat (map (fun piece => piece ++ [nl]) (x :: y :: rest)))
      with ((x ++ [nl]) ++ List.concat (map (fun piece => piece ++ [nl]) (y :: rest))).
    rewrite IH by discriminate.
    change (join_with nl (x :: y :: rest)) with (x ++ nl :: join_with nl (y :: rest)).
    now rewrite <- !app_assoc.
Qed.

(** The loop of [flush_and_emit] from any starting name and data. *)
Lemma assemble_fields (buf : list str) :
  forall name data_str,
    assemble buf name data_str
    = (match rev (filter is_event_line buf) with
       | ln :: _ => strip (skipn 6 ln)
       | [] => name
       end,
       data_str ++ List.concat (map (fun piece => piece ++ [nl])
                             (map (fun ln => lstrip (skipn 5 ln))
                                (filter is_data_line buf)))).
Proof.
  induction buf as [|ln rest IH]; intros name data_str.
  - simpl. now rewrite app_nil_r.
  - cbn [assemble filter]. unfold is_data_line, is_event_line.
    destruct (startswith ln (lit "event:")) eqn:Hev.
    + rewrite IH, (event_line_value _ Hev). cbn [negb andb rev].
      f_equal.
      destruct (rev (filter is_event_line rest)) as [|l t] eqn:Hrev;
        unfold is_event_line in Hrev; rewrite Hrev; reflexivity.
    + cbn [negb andb]. destruct (startswith ln (lit "data:")) eqn:Hda.
      * rewrite IH, (data_line_value _ Hda). cbn [map List.concat].
        now rewrite <- !app_assoc.
      * now rewrite IH.
Qed.

(** C3, as the code has it: the record name is the trimmed value of the
    last [event:] line, or [message]; the payload is what follows the colon
    of each [data:] line with all leading white space stripped (not just
    one space), joined by newlines and trimmed; and a record whose payload
    is empty produces no downstream event and changes nothing. *)
Theorem assembler_fields (buf : list str) :
  record_name buf = last_event_name buf /\
  payload_of buf = joined_payload lstrip buf /\
  (forall (rt : PyRuntime) cl post st,
      payload_of buf = [] -> flush_and_emit cl post st buf = returns [] st).
Proof.
  unfold record_name, payload_of, last_event_name, joined_payload.
  rewrite assemble_fields. cbn [fst snd app]. split; [reflexivity|]. split.
  - destruct (map (fun ln => lstrip (skipn 5 ln)) (filter is_data_line buf))
      as [|x l] eqn:Hpieces; [reflexivity|].
    rewrite concat_lines_join by discriminate. apply strip_app_nl.
  - intros rt cl post st Hempty. unfold flush_and_emit, payload_of.
    rewrite assemble_fields. cbn [fst snd app]. rewrite Hempty.
    destruct buf; [reflexivity|]. now destruct (sent_done st).
Qed.

(** C3 on a record with a name, two data lines and a comment line, and on
    a record of blank data. *)
Lemma assembler_fields_witness :
  (record_name [lit "event: a"; lit "data: x"; lit ": c"; lit "event:b"; lit "data:y"]
   = lit "b" /\
   payload_of [lit "event: a"; lit "data: x"; lit ": c"; lit "event:b"; lit "data:y"]
   = lit "x" ++ [nl] ++ lit "y") /\
  @flush_and_emit reference_runtime
     {| query_text := []; use_network_text := []; tool_name := [];
        export_ext := []; secret_id := []; sign := []; exts := default_exts |}
     (fun _ _ => None) initial_session [lit "event: log"; lit "data:"]
  = returns [] initial_session.
Proof.
  split.
  - destruct (assembler_fields
                [lit "event: a"; lit "data: x"; lit ": c"; lit "event:b"; lit "data:y"])
      as (Hname & Hpayload & _).
    rewrite Hname, Hpayload. vm_compute. split; reflexivity.
  - apply (assembler_fields [lit "event: log"; lit "data:"]). reflexivity.
Defined.

(** C3 as stated fails: of a data line that carries two spaces after the
    colon the code strips both, where dropping one space keeps the other. *)
Lemma data_line_loses_all_leading_spaces :
  let buf := [lit "data: a"; lit "data:  b"] in
  payload_of buf = lit "a" ++ [nl] ++ lit "b" /\
  joined_payload drop_one_space buf = lit "a" ++ [nl] ++ lit " b" /\
  payload_of buf <> joined_payload drop_one_space buf /\
  acts (@flush_and_emit reference_runtime sample_closure (fun _ _ => None)
          initial_session buf)
  = [Yield (log_chunk (lit "a" ++ [nl] ++ lit "b"))].
Proof.
  vm_compute. repeat split; discriminate.
Qed.

(** ** The URL short-circuit *)

Lemma url_tail_not_nil (sch after u : str) :
  url_tail sch after = Some u -> u <> [].
Proof.
  unfold url_tail. destruct (startswith after (lit "://")); [|discriminate].
  destruct (take_while url_char (skipn 3 after)) as [|c body]; [discriminate|].
  intros [= <-] H. apply app_eq_nil in H as [_ H]. discriminate.
Qed.

Lemma url_match_not_nil (text u : str) : url_match text = Some u -> u <> [].
Proof.
  unfold url_match.
  destruct text as [|h [|t1 [|t2 [|p rest]]]]; try discriminate.
  destruct (ci 104 h && ci 116 t1 && ci 116 t2 && ci 112 p); [|discriminate].
  unfold orelse.
  destruct rest as [|s rest'].
  - apply url_tail_not_nil.
  - destruct (ci_s s).
    + destruct (url_tail [h; t1; t2; p; s] rest') as [v|] eqn:Hs.
      * intros [= <-]. eapply url_tail_not_nil; eauto.
      * apply url_tail_not_nil.
    + apply url_tail_not_nil.
Qed.

(** Whatever [findall] returns is a match, hence not empty. *)
Lemma findall_not_nil (text : str) :
  forall skip u, In u (findall_go skip text) -> u <> [].
Proof.
  induction text as [|c rest IH]; intros skip u; cbn [findall_go]; [intros []|].
  destruct skip as [|k]; [|apply IH].
  destruct (url_match (c :: rest)) as [v|] eqn:Hm; [|apply IH].
  intros [<-|Hin]; [eapply url_match_not_nil; eauto|eapply IH; eauto].
Qed.

Lemma url_match_at_scheme (sch rest : str) (c : N) :
  is_scheme sch = true -> url_char c = true ->
  url_match (sch ++ lit "://" ++ c :: rest) <> None.
Proof.
  intros Hsch Hc.
  destruct sch as [|h [|t1 [|t2 [|p [|s [|x sch]]]]]]; try discriminate.
  - simpl in Hsch. unfold url_match. cbn [app]. rewrite Hsch.
    change (lit "://" ++ c :: rest) with (58%N :: 47%N :: 47%N :: c :: rest).
    replace (ci_s 58) with false by reflexivity.
    unfold orelse, url_tail. cbn [startswith N.eqb Pos.eqb andb skipn take_while lit].
    change (startswith (58%N :: 47%N :: 47%N :: c :: rest) (lit "://")) with true.
    cbn [skipn take_while]. rewrite Hc. discriminate.
  - simpl in Hsch. apply andb_prop in Hsch as [Hsch Hs].
    unfold url_match. cbn [app]. rewrite Hsch, Hs.
    change (lit "://" ++ c :: rest) with (58%N :: 47%N :: 47%N :: c :: rest).
    unfold orelse, url_tail.
    change (startswith (58%N :: 47%N :: 47%N :: c :: rest) (lit "://")) with true.
    cbn [skipn take_while]. rewrite Hc. discriminate.
Qed.

(** A text that holds a URL gives [findall] at least one match. *)
Lemma holds_url_found (text : str) :
  holds_url text -> URL_RE_findall text <> [].
Proof.
  intros (before & sch & c & rest & -> & Hsch & Hc).
  unfold URL_RE_findall.
  induction before as [|b before IH].
  - pose proof (url_match_at_scheme sch rest c Hsch Hc) as Hm.
    cbn [app] in *.
    destruct (sch ++ lit "://" ++ c :: rest) as [|x text] eqn:Htext.
    + destruct sch; discriminate.
    + cbn [findall_go]. destruct (url_match (x :: text)); [discriminate|congruence].
  - cbn [app findall_go].
    destruct (url_match (b :: before ++ sch ++ lit "://" ++ c :: rest));
      [discriminate|exact IH].
Qed.

Section Sets.
Context {rt : PyRuntime}.

Lemma set_to_list_In (xs : list str) (x : str) :
  In x (set_to_list xs) <-> In x xs.
Proof.
  split; intros H.
  - apply (nodup_In str_eq_dec).
    eapply Permutation_in; [apply set_to_list_perm|exact H].
  - eapply Permutation_in; [apply Permutation_sym, set_to_list_perm|].
    now apply nodup_In.
Qed.

Lemma set_to_list_nil (xs : list str) : set_to_list xs = [] <-> xs = [].
Proof.
  split; intros H.
  - destruct xs as [|x xs]; [reflexivity|].
    assert (Hin : In x (set_to_list (x :: xs))) by (apply set_to_list_In; now left).
    rewrite H in Hin. destruct Hin.
  - subst xs. destruct (set_to_list []) as [|y l] eqn:Hs; [reflexivity|].
    assert (Hin : In y (@nil str)) by (apply set_to_list_In; rewrite Hs; now left).
    destruct Hin.
Qed.

(** The test [if best_link:] succeeds exactly when the payload has a
    match; the link is then a match of greatest score. *)
Lemma best_link_found (exts0 : list str) (text : str) :
  URL_RE_findall text <> [] ->
  exists best,
    _pick_best_url exts0 (_collect_urls_from_text text) = Some best /\
    nonempty (Some best) = true /\
    In best (URL_RE_findall text) /\
    forall u, In u (URL_RE_findall text) ->
              (_score_url exts0 u <= _score_url exts0 best)%Z.
Proof.
  intros Hne. unfold _collect_urls_from_text.
  destruct (pick_best_of exts0 (set_to_list (URL_RE_findall text)))
    as (best & Hpick & Hin & Hmax).
  { intros H. now apply (proj1 (set_to_list_nil _)) in H. }
  apply (proj1 (set_to_list_In _ _)) in Hin.
  exists best. repeat split; auto.
  - pose proof (findall_not_nil text 0%nat best Hin). now destruct best.
  - intros u Hu. apply Hmax. now apply (proj2 (set_to_list_In _ _)).
Qed.

Lemma best_link_missing (exts0 : list str) (text : str) :
  URL_RE_findall text = [] ->
  _pick_best_url exts0 (_collect_urls_from_text text) = None.
Proof.
  intros Hnil. unfold _collect_urls_from_text.
  apply (proj2 (set_to_list_nil _)) in Hnil. now rewrite Hnil.
Qed.
End Sets.

(** ** What the client reads back *)

Section RoundTrip.
Import Reference.

Lemma hex4_of_control (c : N) :
  (c <? 32)%N = true ->
  hex4 48 48 (hex_digit (c / 16)) (hex_digit (c mod 16)) = Some c.
Proof.
  intros H. destruct c as [|p]; [reflexivity|].
  repeat match goal with
         | q : positive |- _ =>
             destruct q as [q|q|];
             try (vm_compute in H; discriminate H); try reflexivity
         end.
Qed.

Lemma scan_string_plain (c : N) (r : str) :
  (c =? 34)%N = false -> (c <? 32)%N = false -> (c =? 92)%N = false ->
  scan_string (c :: r)
  = match scan_string r with
    | Some (t, rest) => Some (c :: t, rest)
    | None => None
    end.
Proof.
  intros H1 H2 H3. cbn [scan_string]. now rewrite H1, H2, H3.
Qed.

Lemma scan_string_escape (e ch : N) (r : str) :
  (e =? 117)%N = false -> unescape e = Some ch ->
  scan_string (92%N :: e :: r)
  = match scan_string r with
    | Some (t, rest) => Some (ch :: t, rest)
    | None => None
    end.
Proof.
  intros H1 H2. cbn [scan_string].
  change (92 =? 34)%N with false. change (92 <? 32)%N with false.
  change (92 =? 92)%N with true. cbn iota. now rewrite H1, H2.
Qed.

Lemma scan_string_control (c : N) (r : str) :
  (c <? 32)%N = true ->
  scan_string (92%N :: 117%N :: 48%N :: 48%N :: hex_digit (c / 16)
               :: hex_digit (c mod 16) :: r)
  = match scan_string r with
    | Some (t, rest) => Some (c :: t, rest)
    | None => None
    end.
Proof.
  intros H. cbn [scan_string].
  change (92 =? 34)%N with false. change (92 <? 32)%N with false.
  change (92 =? 92)%N with true. change (117 =? 117)%N with true. cbn iota.
  rewrite (hex4_of_control c H).
  assert ((55296 <=? c)%N = false) as ->.
  { apply N.ltb_lt in H. apply N.leb_gt. lia. }
  reflexivity.
Qed.

(** The reader undoes the escaping of [json.dumps]. *)
Lemma scan_string_escaped (u rest : str) :
  scan_string (flat_map json_escape_char u ++ 34%N :: rest) = Some (u, rest).
Proof.
  induction u as [|c u IH]; [reflexivity|].
  cbn [flat_map]. rewrite <- app_assoc. unfold json_escape_char at 1.
  destruct (c =? 34)%N eqn:E34.
  { apply N.eqb_eq in E34. subst c.
    change (scan_string (92%N :: 34%N :: (flat_map json_escape_char u ++ 34%N :: rest))
            = Some (34%N :: u, rest)).
    rewrite (scan_string_escape 34 34) by reflexivity. now rewrite IH. }
  destruct (c =? 92)%N eqn:E92.
  { apply N.eqb_eq in E92. subst c.
    change (scan_string (92%N :: 92%N :: (flat_map json_escape_char u ++ 34%N :: rest))
            = Some (92%N :: u, rest)).
    rewrite (scan_string_escape 92 92) by reflexivity. now rewrite IH. }
  destruct (c =? 10)%N eqn:E10.
  { apply N.eqb_eq in E10. subst c.
    change (scan_string (92%N :: 110%N :: (flat_map json_escape_char u ++ 34%N :: rest))
            = Some (10%N :: u, rest)).
    rewrite (scan_string_escape 110 10) by reflexivity. now rewrite IH. }
  destruct (c =? 13)%N eqn:E13.
  { apply N.eqb_eq in E13. subst c.
    change (scan_string (92%N :: 114%N :: (flat_map json_escape_char u ++ 34%N :: rest))
            = Some (13%N :: u, rest)).
    rewrite (scan_string_escape 114 13) by reflexivity. now rewrite IH. }
  destruct (c =? 9)%N eqn:E9.
  { apply N.eqb_eq in E9. subst c.
    change (scan_string (92%N :: 116%N :: (flat_map json_escape_char u ++ 34%N :: rest))
            = Some (9%N :: u, rest)).
    rewrite (scan_string_escape 116 9) by reflexivity. now rewrite IH. }
  destruct (c =? 8)%N eqn:E8.
  { apply N.eqb_eq in E8. subst c.
    change (scan_string (92%N :: 98%N :: (flat_map json_escape_char u ++ 34%N :: rest))
            = Some (8%N :: u, rest)).
    rewrite (scan_string_escape 98 8) by reflexivity. now rewrite IH. }
  destruct (c =? 12)%N eqn:E12.
  { apply N.eqb_eq in E12. subst c.
    change (scan_string (92%N :: 102%N :: (flat_map json_escape_char u ++ 34%N :: rest))
            = Some (12%N :: u, rest)).
    rewrite (scan_string_escape 102 12) by reflexivity. now rewrite IH. }
  destruct (c <? 32)%N eqn:E32.
  { change (scan_string (92%N :: 117%N :: 48%N :: 48%N :: hex_digit (c / 16)
                         :: hex_digit (c mod 16)
                         :: (flat_map json_escape_char u ++ 34%N :: rest))
            = Some (c :: u, rest)).
    rewrite (scan_string_control c _ E32). now rewrite IH. }
  cbn [app]. rewrite scan_string_plain by assumption. now rewrite IH.
Qed.

Lemma dumps_download_url_text (url : str) :
  dumps_download_url url
  = qlit "{'download_url': '" ++ flat_map json_escape_char url ++ 34%N :: lit "}".
Proof.
  unfold dumps_download_url, json_string.
  change (flat_map json_escape_char (lit "download_url")) with (lit "download_url").
  rewrite <- !app_assoc. reflexivity.
Qed.

(** The JSON payload of the [done] event, read back, is an object whose
    [download_url] member is the URL that was written. *)
Lemma download_url_round_trip (url : str) :
  loads (dumps_download_url url)
  = Some (JObject [(lit "download_url", JString url)]).
Proof.
  rewrite dumps_download_url_text. unfold loads.
  set (tail := flat_map json_escape_char url ++ 34%N :: lit "}").
  assert (Htail : scan_string tail = Some (url, lit "}"))
    by apply scan_string_escaped.
  change (qlit "{'download_url': '" ++ tail)
    with (123%N :: 34%N :: (lit "download_url" ++ 34%N :: 58%N :: 32%N :: 34%N :: tail)).
  assert (Hkey : forall rest,
             scan_string (lit "download_url" ++ 34%N :: rest)
             = Some (lit "download_url", rest))
    by (intros rest; exact (scan_string_escaped (lit "download_url") rest)).
  clearbody tail.
  cbn [List.length skip_ws json_ws N.eqb Pos.eqb orb parse_value parse_members].
  rewrite Hkey.
  cbn [skip_ws json_ws N.eqb Pos.eqb orb parse_value parse_members].
  rewrite Htail.
  change (skip_ws (lit "}")) with [125%N].
  cbn [N.eqb Pos.eqb skip_ws]. reflexivity.
Qed.
End RoundTrip.

(** ** The escaped ampersand *)

Lemma replace_go_skip (old new : str) (s : str) :
  forall skip,
    replace_go old new skip s = replace_go old new 0 (skipn skip s).
Proof.
  induction s as [|c rest IH]; intros [|k]; cbn [replace_go skipn]; auto.
Qed.

Lemma startswith_weaken (p : str) :
  forall a b, startswith a p = true -> startswith (a ++ b) p = true.
Proof.
  induction p as [|x p IH]; intros [|y a] b; cbn [startswith app];
    try discriminate; auto.
  intros H. apply andb_prop in H as [Hx Hp]. rewrite Hx. cbn [andb]. auto.
Qed.

Lemma join_text_cons (sep p : str) (parts : list str) :
  parts <> [] -> join_text sep (p :: parts) = p ++ sep ++ join_text sep parts.
Proof. destruct parts; [congruence|reflexivity]. Qed.

Lemma join_text_head (sep : str) (c : N) (p : str) (parts : list str) :
  join_text sep ((c :: p) :: parts) = c :: join_text sep (p :: parts).
Proof. destruct parts; reflexivity. Qed.

Lemma join_text_prefix (sep p : str) (parts : list str) :
  exists rest, join_text sep (p :: parts) = p ++ rest.
Proof.
  destruct parts as [|q parts]; [exists []; cbn; now rewrite app_nil_r|].
  now exists (sep ++ join_text sep (q :: parts)).
Qed.

(** Cutting a text at the occurrences [replace] finds. *)
Lemma replace_parts (x : N) (tail new : str) (n : nat) :
  forall s, (List.length s <= n)%nat ->
    exists parts,
      parts <> [] /\
      s = join_text (x :: tail) parts /\
      Forall (fun part => contains part (x :: tail) = false) parts /\
      replace (x :: tail) new s = join_text new parts.
Proof.
  unfold replace. induction n as [|n IH]; intros s Hlen.
  - destruct s; [|cbn in Hlen; lia].
    exists [[]]. repeat split; [discriminate|]. now repeat constructor.
  - destruct s as [|c rest].
    { exists [[]]. repeat split; [discriminate|]. now repeat constructor. }
    cbn [replace_go]. destruct (startswith (c :: rest) (x :: tail)) eqn:Hmatch.
    + pose proof (startswith_split _ _ Hmatch) as Hsplit.
      cbn [List.length skipn] in Hsplit.
      destruct (IH (skipn (List.length tail) rest)) as (parts & Hne & Hs & Hfree & Hr).
      { rewrite length_skipn. cbn [List.length] in Hlen. lia. }
      exists ([] :: parts). split; [discriminate|].
      rewrite !join_text_cons by assumption. cbn [app].
      split; [|split].
      * rewrite <- Hs. exact Hsplit.
      * constructor; [reflexivity|exact Hfree].
      * rewrite <- Hr.
        replace (List.length (x :: tail) - 1)%nat with (List.length tail)
          by (cbn [List.length]; lia).
        now rewrite replace_go_skip.
    + destruct (IH rest) as (parts & Hne & Hs & Hfree & Hr).
      { cbn [List.length] in Hlen. lia. }
      destruct parts as [|p parts]; [congruence|].
      exists ((c :: p) :: parts). split; [discriminate|].
      rewrite !join_text_head. split; [now rewrite <- Hs|]. split; [|now rewrite Hr].
      inversion Hfree as [|? ? Hp Hrest]; subst. constructor; [|exact Hrest].
      cbn [contains]. rewrite Hp, orb_false_r.
      destruct (startswith (c :: p) (x :: tail)) eqn:Hhead; [|reflexivity].
      destruct (join_text_prefix (x :: tail) p parts) as [after Hafter].
      rewrite Hafter in Hmatch.
      change (c :: p ++ after) with ((c :: p) ++ after) in Hmatch.
      rewrite (startswith_weaken (x :: tail) (c :: p) after Hhead) in Hmatch.
      discriminate.
Qed.

(** A pattern that does not hold [x] cannot reach an [x]. *)
Lemma startswith_stops (x : N) (q : str) :
  ~ In x q ->
  forall p rest, startswith (p ++ x :: rest) q = true -> startswith p q = true.
Proof.
  induction q as [|y q IH]; intros Hnotin p rest; [reflexivity|].
  destruct p as [|c p]; cbn [app startswith].
  - intros H. apply andb_prop in H as [H _]. apply N.eqb_eq in H. subst y.
    elim Hnotin. now left.
  - intros H. apply andb_prop in H as [Hc Hq]. rewrite Hc. cbn [andb].
    apply (IH (fun Hin => Hnotin (or_intror Hin)) p rest Hq).
Qed.

Lemma replace_free (old new p : str) :
  contains p old = false -> replace old new p = p.
Proof.
  unfold replace. induction p as [|c p IH]; [reflexivity|].
  cbn [contains replace_go]. intros H. apply orb_false_elim in H as [Hhead Hp].
  rewrite Hhead. now rewrite IH.
Qed.

Lemma replace_part (x : N) (tail new p t : str) :
  ~ In x tail -> contains p (x :: tail) = false ->
  replace (x :: tail) new (p ++ (x :: tail) ++ t)
  = p ++ new ++ replace (x :: tail) new t.
Proof.
  unfold replace. intros Hnotin. induction p as [|c p IH]; intros Hfree.
  - cbn [app replace_go].
    change (x :: tail ++ t) with ((x :: tail) ++ t).
    rewrite startswith_app.
    replace (List.length (x :: tail) - 1)%nat with (List.length tail)
      by (cbn [List.length]; lia).
    rewrite replace_go_skip. now rewrite skipn_app, skipn_all, Nat.sub_diag.
  - cbn [contains] in Hfree. apply orb_false_elim in Hfree as [Hhead Hp].
    change ((c :: p) ++ (x :: tail) ++ t) with (c :: (p ++ (x :: tail) ++ t)).
    cbn [replace_go].
    destruct (startswith (c :: (p ++ (x :: tail) ++ t)) (x :: tail)) eqn:Hmatch.
    + exfalso. cbn [startswith] in Hmatch, Hhead.
      apply andb_prop in Hmatch as [Hc Hq]. rewrite Hc in Hhead.
      change (p ++ (x :: tail) ++ t) with (p ++ x :: (tail ++ t)) in Hq.
      rewrite (startswith_stops x tail Hnotin p (tail ++ t) Hq) in Hhead.
      discriminate.
    + rewrite IH by assumption. reflexivity.
Qed.

(** However a text is cut at its escapes into parts that hold none,
    [replace] puts the new text between those parts. *)
Lemma replace_of_parts (x : N) (tail new : str) (parts : list str) :
  ~ In x tail ->
  Forall (fun part => contains part (x :: tail) = false) parts ->
  replace (x :: tail) new (join_text (x :: tail) parts) = join_text new parts.
Proof.
  intros Hnotin. induction parts as [|p parts IH]; intros Hfree; [reflexivity|].
  inversion Hfree as [|? ? Hp Hrest]; subst.
  destruct parts as [|q parts]; [now apply replace_free|].
  rewrite !join_text_cons by discriminate.
  rewrite replace_part by assumption. now rewrite IH.
Qed.

Lemma ampersands_restored_replace (best : str) :
  ampersands_restored best (replace ESCAPED_AMP (lit "&") best).
Proof.
  destruct (replace_parts 92%N (lit "u0026") (lit "&") (List.length best) best
              (le_n _)) as (parts & _ & Hbest & Hfree & Hlink).
  exists parts. auto.
Qed.

(** The link is determined by the match. *)
Lemma ampersands_restored_unique (best link link' : str) :
  ampersands_restored best link -> ampersands_restored best link' ->
  link = link'.
Proof.
  intros (parts & Hbest & Hfree & ->) (parts' & Hbest' & Hfree' & ->).
  rewrite <- (replace_of_parts 92%N (lit "u0026") (lit "&") parts)
    by (auto; cbv; intuition discriminate).
  rewrite <- (replace_of_parts 92%N (lit "u0026") (lit "&") parts')
    by (auto; cbv; intuition discriminate).
  change (92%N :: lit "u0026") with (lit "\" ++ lit "u0026").
  now rewrite <- Hbest, <- Hbest'.
Qed.

Lemma done_url_chunk_text (link : str) :
  done_url_chunk link
  = lit "event: done" ++ [nl] ++ lit "data: " ++ dumps_download_url link
    ++ [nl; nl].
Proof. reflexivity. Qed.

Section Relay.
Context {rt : PyRuntime}.
Variable cl : Closure.
Variable post : str -> ToolCall -> option PyExn.

(** A record with a payload, in a session not yet done, is dispatched. *)
Lemma flush_dispatches (st : Session) (buf : list str) :
  sent_done st = false -> payload_of buf <> [] ->
  flush_and_emit cl post st buf
  = dispatch cl post st (record_name buf) (payload_of buf).
Proof.
  intros Hlive Hpayload. unfold flush_and_emit.
  destruct buf as [|ln rest]; [now elim Hpayload|].
  rewrite Hlive. now destruct (payload_of (ln :: rest)).
Qed.

Lemma flush_when_done (st : Session) (buf : list str) :
  sent_done st = true -> flush_and_emit cl post st buf = returns [] st.
Proof.
  intros Hdone. unfold flush_and_emit. rewrite Hdone. now destruct buf.
Qed.

Lemma holds_url_not_nil (text : str) : holds_url text -> text <> [].
Proof.
  intros (before & sch & c & rest & -> & Hsch & _) H.
  apply app_eq_nil in H as [_ H]. apply app_eq_nil in H as [-> _].
  discriminate.
Qed.

(** The first branch of [dispatch]. *)
Lemma flush_url_branch (st : Session) (buf : list str) :
  sent_done st = false ->
  URL_RE_findall (payload_of buf) <> [] ->
  exists best,
    In best (URL_RE_findall (payload_of buf)) /\
    (forall u, In u (URL_RE_findall (payload_of buf)) ->
               (_score_url (exts cl) u <= _score_url (exts cl) best)%Z) /\
    flush_and_emit cl post st buf
    = returns [Yield (done_url_chunk (replace ESCAPED_AMP (lit "&") best));
               Yield EOF_CHUNK]
              (set_sent_done st).
Proof.
  intros Hlive Hfound.
  destruct (best_link_found (exts cl) _ Hfound)
    as (best & Hpick & Hne & Hin & Hmax).
  exists best. split; [exact Hin|]. split; [exact Hmax|].
  rewrite flush_dispatches;
    [|exact Hlive|intros Hnil; rewrite Hnil in Hfound; now apply Hfound].
  unfold dispatch. rewrite Hpick, Hne. reflexivity.
Qed.

(** C4: a record whose payload holds a URL, processed in a session that
    is not done, yields exactly two chunks and leaves the session done.
    The first is the [done] event, whose data is the JSON text of an
    object with the one member [download_url]: a match of greatest score
    with every backslash-u0026 written as an ampersand.  The second is the
    end-of-file comment.  Nothing is supposed of the record's name or of
    what else the payload is: the check comes before the ping, handshake,
    token and log branches, and no POST is made. *)
Theorem url_short_circuit (st : Session) (buf : list str) :
  sent_done st = false ->
  holds_url (payload_of buf) ->
  exists best link,
    In best (URL_RE_findall (payload_of buf)) /\
    (forall u, In u (URL_RE_findall (payload_of buf)) ->
               (_score_url (exts cl) u <= _score_url (exts cl) best)%Z) /\
    ampersands_restored best link /\
    flush_and_emit cl post st buf
    = returns
        [Yield (lit "event: done" ++ [nl] ++ lit "data: "
                ++ dumps_download_url link ++ [nl; nl]);
         Yield (lit ": EOF" ++ [nl; nl])]
        (set_sent_done st) /\
    sent_done (after (flush_and_emit cl post st buf)) = true /\
    Reference.loads (dumps_download_url link)
    = Some (JObject [(lit "download_url", JString link)]).
Proof.
  intros Hlive Hurl.
  destruct (flush_url_branch st buf Hlive (holds_url_found _ Hurl))
    as (best & Hin & Hmax & Hflush).
  exists best, (replace ESCAPED_AMP (lit "&") best).
  split; [exact Hin|]. split; [exact Hmax|].
  split; [apply ampersands_restored_replace|].
  split; [rewrite Hflush, done_url_chunk_text; reflexivity|].
  split; [now rewrite Hflush|].
  apply download_url_round_trip.
Qed.
End Relay.

(** C4 on a [message] record whose text holds
    [https://x.test/out.pptx?signature=abc]. *)
Lemma url_short_circuit_witness :
  @flush_and_emit reference_runtime sample_closure (fun _ _ => None)
    initial_session
    [lit "event: message"; lit "data: ready https://x.test/out.pptx?signature=abc"]
  = returns
      [Yield (lit "event: done" ++ [nl] ++ lit "data: "
              ++ qlit "{'download_url': 'https://x.test/out.pptx?signature=abc'}"
              ++ [nl; nl]);
       Yield (lit ": EOF" ++ [nl; nl])]
      (set_sent_done initial_session).
Proof.
  destruct (@url_short_circuit reference_runtime sample_closure (fun _ _ => None)
              initial_session
              [lit "event: message";
               lit "data: ready https://x.test/out.pptx?signature=abc"])
    as (best & link & Hin & _ & Hlink & Hflush & _).
  - reflexivity.
  - exists (lit "ready "), (lit "https"), 120%N,
      (lit ".test/out.pptx?signature=abc").
    repeat split; vm_compute; reflexivity.
  - rewrite Hflush.
    rewrite (ampersands_restored_unique _ _ _ Hlink
               (ampersands_restored_replace best)).
    change (URL_RE_findall
              (payload_of [lit "event: message";
                           lit "data: ready https://x.test/out.pptx?signature=abc"]))
      with [lit "https://x.test/out.pptx?signature=abc"] in Hin.
    destruct Hin as [<-|[]]. vm_compute. reflexivity.
Defined.

(** ** One call of [flush_and_emit] *)

Section Flush.
Context {rt : PyRuntime}.
Variable cl : Closure.
Variable post : str -> ToolCall -> option PyExn.

Lemma passthrough_outcome (st : Session) (buf : list str) (json_obj : option JSON)
    (data_str : str) :
  Outcome cl post st buf (passthrough st json_obj data_str).
Proof.
  unfold passthrough.
  destruct (extract_log json_obj) as [log_msg|e]; [|apply raised_early].
  match goal with
  | |- context [if truthy ?m then _ else _] => destruct (truthy m)
  end; now apply quiet.
Qed.

Lemma handshake_outcome (st : Session) (buf : list str) :
  sent_done st = false -> is_handshake buf = true ->
  Outcome cl post st buf (handshake cl post st (payload_of buf)).
Proof.
  intros Hlive Hhs. unfold handshake.
  destruct (_endpoint_and_context_from_data (payload_of buf))
    as [[e ctx]|ex] eqn:Hparse; [|apply raised_early].
  cbn [called endpoint_url set_handshake sent_done].
  destruct (called st) eqn:Hcalled; cbn [negb andb].
  { eapply handshake_idle; eauto. }
  destruct (nonempty e) eqn:He.
  2:{ eapply handshake_idle; eauto. }
  rewrite Hlive.
  destruct (post (text_of e) (make_payload cl (context (set_handshake st e ctx))))
    as [ex|] eqn:Hpost.
  - eapply trigger_failed; eauto.
  - eapply triggered; eauto.
Qed.

(** Every call ends in one of the seven ways. *)
Lemma flush_outcome (st : Session) (buf : list str) :
  Outcome cl post st buf (flush_and_emit cl post st buf).
Proof.
  destruct (sent_done st) eqn:Hlive.
  { rewrite flush_when_done by auto. now apply quiet. }
  destruct (payload_of buf) as [|c data] eqn:Hpayload.
  { unfold flush_and_emit. rewrite Hlive, Hpayload.
    destruct buf; now apply quiet. }
  rewrite flush_dispatches by congruence.
  unfold dispatch. rewrite Hpayload.
  destruct (URL_RE_findall (c :: data)) as [|u0 us] eqn:Hfind.
  - rewrite (best_link_missing (exts cl) _ Hfind). cbn [nonempty].
    destruct (is_ping (json_loads (c :: data))) eqn:Hping; [now apply quiet|].
    destruct (str_eqb (record_name buf) (lit "endpoint")) eqn:Hname.
    + rewrite <- Hpayload. apply handshake_outcome; [assumption|].
      unfold is_handshake. now rewrite Hpayload, Hfind, Hping, Hname.
    + destruct (contains (lower (c :: data)) (lit "token exhausted")).
      * rewrite Hlive. apply token_exhausted. now rewrite Hpayload.
      * apply passthrough_outcome.
  - destruct (best_link_found (exts cl) (c :: data))
      as (best & Hpick & Hne & Hin & _); [now rewrite Hfind|].
    rewrite Hpick, Hne. cbn [text_of]. apply found_url. now rewrite Hpayload.
Qed.
End Flush.

Lemma lower_app (a b : str) : lower (a ++ b) = lower a ++ lower b.
Proof. apply flat_map_app. Qed.

Lemma contains_app (a needle b : str) : contains (a ++ needle ++ b) needle = true.
Proof.
  induction a as [|c a IH].
  - cbn [app]. destruct (needle ++ b) eqn:Hnb; cbn [contains];
      rewrite <- Hnb, startswith_app; reflexivity.
  - cbn [app contains]. rewrite IH. apply orb_true_r.
Qed.

(** ** Sessions *)

Section Session.
Context {rt : PyRuntime}.
Variable cl : Closure.
Variable post : str -> ToolCall -> option PyExn.

(** In a session not yet done the read loop appends every line that is
    not blank to the buffer. *)
Lemma read_loop_buffers (st : Session) (raw : list bytes) :
  sent_done st = false ->
  Forall (fun raw_line => is_blank raw_line = false) raw ->
  forall buffer rest,
    read_loop cl post st buffer (raw ++ rest)
    = read_loop cl post st (buffer ++ map decoded_line raw) rest.
Proof.
  intros Hlive Hraw. induction Hraw as [|raw_line raw Hline _ IH]; intros buffer rest.
  - cbn [app map]. now rewrite app_nil_r.
  - cbn [app map read_loop]. rewrite Hlive, Hline. unfold decoded_line at 1.
    destruct (safe_decode_total raw_line) as [text ->].
    rewrite IH, <- app_assoc. reflexivity.
Qed.

(** Once the session is done the loop reads nothing more. *)
Lemma read_loop_when_done (st : Session) (buffer : list str) (lines : list bytes) :
  sent_done st = true ->
  let r := read_loop cl post st buffer lines in
  trace r = [] /\ history r = [] /\ final r = st.
Proof.
  intros Hdone. destruct lines; cbn [read_loop]; [|rewrite Hdone]; auto.
Qed.

Lemma flush_handshake (st : Session) (buf : list str) :
  sent_done st = false -> is_handshake buf = true ->
  flush_and_emit cl post st buf = handshake cl post st (payload_of buf).
Proof.
  intros Hlive Hhs. unfold is_handshake in Hhs.
  destruct (payload_of buf) as [|c data] eqn:Hpayload; [discriminate|].
  apply andb_prop in Hhs as [Hhs Hname]. apply andb_prop in Hhs as [Hfind Hping].
  rewrite flush_dispatches by congruence.
  unfold dispatch. rewrite Hpayload.
  destruct (URL_RE_findall (c :: data)) eqn:Hf; [|discriminate].
  rewrite (best_link_missing (exts cl) _ Hf). cbn [nonempty].
  apply negb_true_iff in Hping. now rewrite Hping, Hname.
Qed.

(** C6: a record whose payload holds [token exhausted] in any letter
    case, and which holds no URL, is no ping and is not named [endpoint],
    yields exactly the [error] event and then the [done] event, and marks
    the session done; whatever lines follow it in the upstream, the read
    loop yields nothing more and calls [flush_and_emit] no more. *)
Theorem token_exhausted_ends_session (st : Session) (buf : list str) :
  sent_done st = false ->
  (exists before mid rest,
      payload_of buf = before ++ mid ++ rest /\
      lower mid = lit "token exhausted") ->
  URL_RE_findall (payload_of buf) = [] ->
  is_ping (json_loads (payload_of buf)) = false ->
  str_eqb (record_name buf) (lit "endpoint") = false ->
  flush_and_emit cl post st buf
  = returns [Yield TOKEN_CHUNK; Yield DONE_CHUNK] (set_sent_done st) /\
  is_error_chunk TOKEN_CHUNK = true /\ is_done_chunk DONE_CHUNK = true /\
  (forall raw rest,
      Forall (fun raw_line => is_blank raw_line = false) raw ->
      map decoded_line raw = buf ->
      let r := read_loop cl post st [] (raw ++ [] :: rest) in
      trace r = [Yield TOKEN_CHUNK; Yield DONE_CHUNK] /\
      history r = [set_sent_done st] /\
      final r = set_sent_done st).
Proof.
  intros Hlive (before & mid & rest & Hpayload & Hmid) Hfind Hping Hname.
  assert (Hflush : flush_and_emit cl post st buf
            = returns [Yield TOKEN_CHUNK; Yield DONE_CHUNK] (set_sent_done st)).
  { assert (Hne : payload_of buf <> []).
    { rewrite Hpayload. intros H.
      apply app_eq_nil in H as [_ H]. apply app_eq_nil in H as [-> _].
      discriminate. }
    rewrite flush_dispatches by assumption. unfold dispatch.
    rewrite (best_link_missing (exts cl) _ Hfind). cbn [nonempty].
    rewrite Hping, Hname.
    replace (contains (lower (payload_of buf)) (lit "token exhausted")) with true.
    - now rewrite Hlive.
    - rewrite Hpayload, !lower_app, Hmid. symmetry. apply contains_app. }
  split; [exact Hflush|]. split; [reflexivity|]. split; [reflexivity|].
  intros raw rest0 Hraw Hbuf r. subst r.
  rewrite read_loop_buffers by assumption.
  cbn [app read_loop is_blank]. rewrite Hlive, Hbuf, Hflush.
  cbn [raised returns acts after].
  destruct (read_loop_when_done (set_sent_done st) [] rest0 eq_refl)
    as (Ht & Hh & Hf).
  unfold run_then. cbn [trace history final]. rewrite Ht, Hh, Hf. auto.
Qed.

End Session.

(** C6 on a short plain-text record. *)
Lemma token_exhausted_ends_session_witness :
  @flush_and_emit reference_runtime sample_closure (fun _ _ => None)
    initial_session [lit "data: Error: Token Exhausted for today"]
  = returns [Yield TOKEN_CHUNK; Yield DONE_CHUNK] (set_sent_done initial_session) /\
  trace (@read_loop reference_runtime sample_closure (fun _ _ => None)
           initial_session []
           ([blit "data: Error: Token Exhausted for today"]
            ++ [] :: [blit "data: more"; []]))
  = [Yield TOKEN_CHUNK; Yield DONE_CHUNK].
Proof.
  destruct (@token_exhausted_ends_session reference_runtime sample_closure
              (fun _ _ => None) initial_session
              [lit "data: Error: Token Exhausted for today"])
    as (Hflush & _ & _ & Hloop).
  - reflexivity.
  - exists (lit "Error: "), (lit "Token Exhausted"), (lit " for today").
    split; vm_compute; reflexivity.
  - vm_compute. reflexivity.
  - vm_compute. reflexivity.
  - vm_compute. reflexivity.
  - split; [exact Hflush|].
    apply (Hloop [blit "data: Error: Token Exhausted for today"]
                 [blit "data: more"; []]).
    + repeat constructor.
    + vm_compute. reflexivity.
Defined.

Lemma dones_app (a b : list Action) : dones (a ++ b) = dones a ++ dones b.
Proof.
  induction a as [|[chunk|url payload] a IH]; cbn [app dones]; auto.
  destruct (is_done_chunk chunk); cbn [app]; now rewrite IH.
Qed.

Lemma posts_app (a b : list Action) : posts (a ++ b) = posts a ++ posts b.
Proof.
  induction a as [|[chunk|url payload] a IH]; cbn [app posts]; auto.
  now rewrite IH.
Qed.

Section ReadLoop.
Context {rt : PyRuntime}.
Variable cl : Closure.
Variable post : str -> ToolCall -> option PyExn.

(** Case analysis of the read loop: the stream is exhausted; the session
    is done and the loop breaks; a line is buffered; a flush returns and
    the loop goes on; a flush raises. *)
Lemma read_loop_cases (P : Session -> list str -> list bytes -> Run -> Prop) :
  (forall st buffer,
      P st buffer []
        {| trace := []; history := []; final := st; exit := Exhausted |}) ->
  (forall st buffer raw_line rest,
      sent_done st = true ->
      P st buffer (raw_line :: rest)
        {| trace := []; history := []; final := st; exit := Broke |}) ->
  (forall st buffer raw_line rest,
      sent_done st = false -> is_blank raw_line = false ->
      P st (buffer ++ [decoded_line raw_line]) rest
        (read_loop cl post st (buffer ++ [decoded_line raw_line]) rest) ->
      P st buffer (raw_line :: rest)
        (read_loop cl post st (buffer ++ [decoded_line raw_line]) rest)) ->
  (forall st buffer rest s,
      sent_done st = false ->
      Outcome cl post st buffer s -> raised s = None ->
      P (after s) [] rest (read_loop cl post (after s) [] rest) ->
      P st buffer ([] :: rest)
        (run_then (acts s) [after s] (read_loop cl post (after s) [] rest))) ->
  (forall st buffer rest e,
      sent_done st = false ->
      P st buffer ([] :: rest)
        {| trace := []; history := [st]; final := st; exit := Threw e |}) ->
  forall lines st buffer, P st buffer lines (read_loop cl post st buffer lines).
Proof.
  intros Hend Hbreak Hline Hflush Hraise.
  induction lines as [|raw_line rest IH]; intros st buffer; [apply Hend|].
  cbn [read_loop]. destruct (sent_done st) eqn:Hlive; [now apply Hbreak|].
  destruct raw_line as [|b0 raw_line]; cbn [is_blank].
  - pose proof (flush_outcome cl post st buffer) as Hout.
    destruct (raised (flush_and_emit cl post st buffer)) as [e|] eqn:Hraised.
    + destruct Hout; try discriminate.
      cbn [raises acts after]. now apply Hraise.
    + apply Hflush; auto.
  - pose proof (Hline st buffer (b0 :: raw_line) rest Hlive eq_refl
                  (IH st (buffer ++ [decoded_line (b0 :: raw_line)]))) as H.
    unfold decoded_line in *.
    destruct (safe_decode_total (b0 :: raw_line)) as [text Htext].
    rewrite Htext in *. exact H.
Qed.

(** A session that is not done yields no [done] event and stays so, or
    yields exactly one and becomes done; the event is the literal one
    unless a record carried a URL. *)
Lemma read_loop_dones (lines : list bytes) (st : Session) (buffer : list str) :
  sent_done st = false ->
  let r := read_loop cl post st buffer lines in
  (sent_done (final r) = false /\ dones (trace r) = []) \/
  (sent_done (final r) = true /\
   exists d, dones (trace r) = [d] /\
     (d = DONE_CHUNK \/
      (exists u, d = done_url_chunk u) /\
      Exists carries_url (records_of buffer lines))).
Proof.
  cbv zeta. revert lines st buffer.
  apply (read_loop_cases
    (fun st buffer lines r =>
       sent_done st = false ->
       (sent_done (final r) = false /\ dones (trace r) = []) \/
       (sent_done (final r) = true /\
        exists d, dones (trace r) = [d] /\
          (d = DONE_CHUNK \/
           (exists u, d = done_url_chunk u) /\
           Exists carries_url (records_of buffer lines))))).
  - intros st buffer Hlive. left. auto.
  - intros st buffer raw_line rest Hdone Hlive. congruence.
  - intros st buffer raw_line rest _ Hline IH Hlive.
    assert (Hrec : records_of buffer (raw_line :: rest)
                   = records_of (buffer ++ [decoded_line raw_line]) rest).
    { cbn [records_of]. rewrite Hline. unfold decoded_line.
      now destruct (safe_decode_total raw_line) as [text ->]. }
    rewrite Hrec. now apply IH.
  - intros st buffer rest s _ Hout Hraised IH Hlive.
    cbn [records_of is_blank]. unfold run_then. cbn [trace final].
    rewrite dones_app.
    assert (Hlater : forall P : Prop, P -> Exists carries_url (records_of [] rest) ->
               P /\ Exists carries_url (buffer :: records_of [] rest))
      by (intros P HP Hex; split; [exact HP|now apply Exists_cons_tl]).
    destruct Hout; cbn [returns acts after] in *; try discriminate.
    + rewrite H. cbn [app]. destruct (IH Hlive) as [Hl|(Hd & d & Hds & Hk)];
        [now left|right].
      split; [exact Hd|]. exists d. split; [exact Hds|].
      destruct Hk as [->|[Hu Hex]]; [now left|right; now apply Hlater].
    + destruct (read_loop_when_done cl post (set_sent_done st) [] rest eq_refl)
        as (Ht & _ & Hf).
      rewrite Ht, Hf. right. split; [reflexivity|].
      eexists. split; [reflexivity|]. right. split; [eauto|].
      apply Exists_cons_hd. unfold carries_url. intros Hnil.
      rewrite Hnil in H. destruct H.
    + destruct (read_loop_when_done cl post (set_sent_done st) [] rest eq_refl)
        as (Ht & _ & Hf).
      rewrite Ht, Hf. right. split; [reflexivity|].
      exists DONE_CHUNK. split; [reflexivity|now left].
    + cbn [app dones]. destruct (IH Hlive) as [Hl|(Hd & d & Hds & Hk)];
        [now left|right].
      split; [exact Hd|]. exists d. split; [exact Hds|].
      destruct Hk as [->|[Hu Hex]]; [now left|right; now apply Hlater].
    + destruct (read_loop_when_done cl post
                  (set_sent_done (set_handshake st e ctx)) [] rest eq_refl)
        as (Ht & _ & Hf).
      rewrite Ht, Hf. right. split; [reflexivity|].
      exists DONE_CHUNK. split; [reflexivity|now left].
    + change (dones [Post (text_of e)
                       (make_payload cl (context (set_handshake st e ctx)));
                     Yield STARTED_CHUNK]) with (@nil str).
      cbn [app]. destruct (IH Hlive) as [Hl|(Hd & d & Hds & Hk)];
        [now left|right].
      split; [exact Hd|]. exists d. split; [exact Hds|].
      destruct Hk as [->|[Hu Hex]]; [now left|right; now apply Hlater].
  - intros st buffer rest e _ Hlive. left. auto.
Qed.
Lemma flushed_when_done (st : Session) (buffer : list str) (lines : list bytes) :
  sent_done st = true -> flushed_records cl post st buffer lines = [].
Proof. intros Hdone. destruct lines; cbn [flushed_records]; now rewrite ?Hdone. Qed.

(** What is handed to [flush_and_emit] is a record of the upstream. *)
Lemma flushed_are_records (lines : list bytes) :
  forall st buffer buf,
    In buf (flushed_records cl post st buffer lines) ->
    In buf (records_of buffer lines).
Proof.
  induction lines as [|raw_line rest IH]; intros st buffer buf;
    cbn [flushed_records records_of]; [intros []|].
  destruct (sent_done st); [intros []|].
  destruct (is_blank raw_line).
  - intros [<-|Hin]; [now left|right].
    destruct (raised (flush_and_emit cl post st buffer)); [destruct Hin|].
    eapply IH; eauto.
  - destruct (_safe_decode raw_line); [apply IH|intros []].
Qed.

(** The one [done] chunk of a run and the records that were read: with no
    URL in them the run is not done or ended by the literal chunk; a
    record with a URL is the last one read and the chunk carries one of
    its matches. *)
Lemma read_loop_found (lines : list bytes) :
  forall st buffer,
    sent_done st = false ->
    let r := read_loop cl post st buffer lines in
    let read := flushed_records cl post st buffer lines in
    (sent_done (final r) = false /\ dones (trace r) = [] /\
     Forall (fun buf => URL_RE_findall (payload_of buf) = []) read) \/
    (sent_done (final r) = true /\
     exists d, dones (trace r) = [d] /\
       (Forall (fun buf => URL_RE_findall (payload_of buf) = []) read ->
        d = DONE_CHUNK) /\
       (forall buf, In buf read -> URL_RE_findall (payload_of buf) <> [] ->
          exists best,
            In best (URL_RE_findall (payload_of buf)) /\
            d = done_url_chunk (replace ESCAPED_AMP (lit "&") best))).
Proof.
  induction lines as [|raw_line rest IH]; intros st buffer Hlive; cbv zeta.
  { left. cbn. auto. }
  cbn [read_loop flushed_records]. rewrite Hlive.
  destruct (is_blank raw_line).
  2:{ destruct (safe_decode_total raw_line) as [text ->]. now apply IH. }
  destruct (URL_RE_findall (payload_of buffer)) as [|u0 us] eqn:Hfind.
  - (* the record carries no URL *)
    assert (Hcons : forall read,
              Forall (fun buf => URL_RE_findall (payload_of buf) = []) read ->
              Forall (fun buf => URL_RE_findall (payload_of buf) = [])
                     (buffer :: read)) by (intros; now constructor).
    assert (Hlast : forall (d : str) (read : list (list str)),
              read = [] ->
              forall buf, In buf (buffer :: read) ->
                URL_RE_findall (payload_of buf) <> [] ->
                exists best,
                  In best (URL_RE_findall (payload_of buf)) /\
                  d = done_url_chunk (replace ESCAPED_AMP (lit "&") best)).
    { intros d read -> buf [<-|[]] Hne. congruence. }
    assert (Hgo : forall s,
              after s = after s -> sent_done (after s) = false ->
              dones (acts s) = [] ->
              let r := read_loop cl post (after s) [] rest in
              let read := flushed_records cl post (after s) [] rest in
              (sent_done (final r) = false /\ dones (acts s ++ trace r) = [] /\
               Forall (fun buf => URL_RE_findall (payload_of buf) = [])
                      (buffer :: read)) \/
              (sent_done (final r) = true /\
               exists d, dones (acts s ++ trace r) = [d] /\
                 (Forall (fun buf => URL_RE_findall (payload_of buf) = [])
                         (buffer :: read) -> d = DONE_CHUNK) /\
                 (forall buf, In buf (buffer :: read) ->
                    URL_RE_findall (payload_of buf) <> [] ->
                    exists best,
                      In best (URL_RE_findall (payload_of buf)) /\
                      d = done_url_chunk (replace ESCAPED_AMP (lit "&") best)))).
    { intros s _ Hs Hquiet. cbv zeta. rewrite dones_app, Hquiet. cbn [app].
      destruct (IH (after s) [] Hs) as [(Hl & Hd & Hf)|(Hdn & d & Hd & Hnone & Hurl)].
      - left. auto.
      - right. split; [exact Hdn|]. exists d. split; [exact Hd|]. split.
        + intros Hall. inversion Hall; subst. auto.
        + intros buf [<-|Hin] Hne; [congruence|]. now apply Hurl. }
    assert (Hend : forall s,
              sent_done (after s) = true -> dones (acts s) = [DONE_CHUNK] ->
              let r := read_loop cl post (after s) [] rest in
              let read := flushed_records cl post (after s) [] rest in
              sent_done (final r) = true /\
              exists d, dones (acts s ++ trace r) = [d] /\
                (Forall (fun buf => URL_RE_findall (payload_of buf) = [])
                        (buffer :: read) -> d = DONE_CHUNK) /\
                (forall buf, In buf (buffer :: read) ->
                   URL_RE_findall (payload_of buf) <> [] ->
                   exists best,
                     In best (URL_RE_findall (payload_of buf)) /\
                     d = done_url_chunk (replace ESCAPED_AMP (lit "&") best))).
    { intros s Hs Hd. cbv zeta.
      destruct (read_loop_when_done cl post (after s) [] rest Hs) as (Ht & _ & Hf).
      rewrite Ht, Hf, app_nil_r, (flushed_when_done _ _ _ Hs).
      split; [exact Hs|]. exists DONE_CHUNK. split; [exact Hd|].
      split; [reflexivity|]. now apply Hlast. }
    pose proof (flush_outcome cl post st buffer) as Hout.
    remember (flush_and_emit cl post st buffer) as s eqn:Hs.
    destruct Hout as [a Hquiet _|e|best Hbest|_|e ctx _ _ _|e ctx ex _ _ _ _ _
                     |e ctx _ _ _ _ _];
      cbn [raised returns raises]; unfold run_then; cbn [trace final acts after].
    + apply (Hgo (returns a st)); auto.
    + left. cbn. auto.
    + rewrite Hfind in Hbest. destruct Hbest.
    + right. apply (Hend (returns [Yield TOKEN_CHUNK; Yield DONE_CHUNK]
                                  (set_sent_done st))); reflexivity.
    + apply (Hgo (returns [] (set_handshake st e ctx))); auto.
    + right.
      apply (Hend (returns
                     [Post (text_of e)
                        (make_payload cl (context (set_handshake st e ctx)));
                      Yield (error_chunk (lit "tools/call failed: " ++ exn_str ex));
                      Yield DONE_CHUNK]
                     (set_sent_done (set_handshake st e ctx))));
        reflexivity.
    + apply (Hgo (returns
                    [Post (text_of e)
                       (make_payload cl (context (set_handshake st e ctx)));
                     Yield STARTED_CHUNK]
                    (set_called (set_handshake st e ctx)))); auto.
  - (* the record carries a URL *)
    destruct (flush_url_branch cl post st buffer Hlive)
      as (best & Hin & _ & Hflush); [rewrite Hfind; discriminate|].
    rewrite Hflush. cbn [raised returns after acts]. unfold run_then.
    cbn [trace final].
    destruct (read_loop_when_done cl post (set_sent_done st) [] rest eq_refl)
      as (Ht & _ & Hf).
    rewrite Ht, Hf, (flushed_when_done (set_sent_done st) [] rest eq_refl).
    right. split; [reflexivity|].
    exists (done_url_chunk (replace ESCAPED_AMP (lit "&") best)).
    split; [reflexivity|]. split.
    + intros Hall. inversion Hall as [|? ? Hnone _]; subst. congruence.
    + intros buf [<-|[]] _. exists best. split; [exact Hin|reflexivity].
Qed.
End ReadLoop.

Section Stream.
Context {rt : PyRuntime}.
Variable cl : Closure.

End Stream.



(** Three sessions in full: a refused connection, a read that raises after
    the download URL went out, and a clean close after a log line. *)
Example refused_connection_trace :
  trace (@event_stream reference_runtime sample_closure
           {| requests_get := Response 401 (Ok (lit "denied")) [] CleanClose;
              requests_post := fun _ _ => None |})
  = [Yield (error_chunk (lit "SSE connect failed: denied")); Yield DONE_CHUNK].
Proof. vm_compute. reflexivity. Qed.

Example failing_read_after_url_trace :
  trace (@event_stream reference_runtime sample_closure
           {| requests_get :=
                Response 200 (Ok []) [blit "data: https://x.test/a.pptx"; []]
                  (ReadRaises (LibraryError (lit "reset")));
              requests_post := fun _ _ => None |})
  = [Yield (done_url_chunk (lit "https://x.test/a.pptx")); Yield EOF_CHUNK;
     Yield (error_chunk (lit "reset"))].
Proof. vm_compute. reflexivity. Qed.

Example clean_close_trace :
  trace (@event_stream reference_runtime sample_closure
           (upstream_of [blit "data: working"; []]))
  = [Yield (log_chunk (lit "working")); Yield DONE_CHUNK].
Proof. vm_compute. reflexivity. Qed.

(** ** The trigger *)

Section Trigger.
Context {rt : PyRuntime}.
Variable cl : Closure.
Variable post : str -> ToolCall -> option PyExn.

(** The POST is made at most once in a run of the read loop, and not at
    all from a session that was already triggered. *)
Lemma read_loop_posts (lines : list bytes) (st : Session) (buffer : list str) :
  let r := read_loop cl post st buffer lines in
  (List.length (posts (trace r)) <= 1)%nat /\
  (called st = true -> posts (trace r) = []).
Proof.
  cbv zeta. revert lines st buffer.
  apply (read_loop_cases cl post
    (fun st buffer lines r =>
       (List.length (posts (trace r)) <= 1)%nat /\
       (called st = true -> posts (trace r) = []))); auto.
  intros st buffer rest s _ Hout _ [IHone IHnone].
  unfold run_then. cbn [trace]. rewrite posts_app.
  destruct Hout; cbn [returns acts after] in *.
  - rewrite H0. cbn [app]. auto.
  - cbn [app]. auto.
  - destruct (read_loop_when_done cl post (set_sent_done st) [] rest eq_refl)
      as (-> & _ & _). cbn. auto.
  - destruct (read_loop_when_done cl post (set_sent_done st) [] rest eq_refl)
      as (-> & _ & _). cbn. auto.
  - cbn [app posts]. auto.
  - destruct (read_loop_when_done cl post
                (set_sent_done (set_handshake st e ctx)) [] rest
                ltac:(cbn; destruct (sent_done st); reflexivity))
      as (-> & _ & _). cbn. split; [lia|congruence].
  - rewrite (IHnone eq_refl). cbn. split; [lia|congruence].
Qed.

(** Along a run the flag [called] is first false, then true. *)
Lemma read_loop_called (lines : list bytes) (st : Session) (buffer : list str) :
  let r := read_loop cl post st buffer lines in
  exists a b,
    map called (history r) = repeat false a ++ repeat true b /\
    (called st = true -> a = 0%nat).
Proof.
  cbv zeta. revert lines st buffer.
  assert (Hone : forall st : Session, exists a b,
             [called st] = repeat false a ++ repeat true b /\
             (called st = true -> a = 0%nat)).
  { intros st. destruct (called st).
    - exists 0%nat, 1%nat. auto.
    - exists 1%nat, 0%nat. split; [reflexivity|discriminate]. }
  assert (Hcons : forall (st st' : Session) (h : list Session),
             (called st = true -> called st' = true) ->
             (exists a b, map called h = repeat false a ++ repeat true b /\
                          (called st' = true -> a = 0%nat)) ->
             exists a b,
               map called (st' :: h) = repeat false a ++ repeat true b /\
               (called st = true -> a = 0%nat)).
  { intros st st' h Hmono (a & b & Hh & Ha). cbn [map]. rewrite Hh.
    destruct (called st') eqn:Hst'.
    - rewrite (Ha eq_refl). exists 0%nat, (S b). auto.
    - exists (S a), b. split; [reflexivity|].
      intros Hst. apply Hmono in Hst. discriminate. }
  apply (read_loop_cases cl post
    (fun st buffer lines r =>
       exists a b,
         map called (history r) = repeat false a ++ repeat true b /\
         (called st = true -> a = 0%nat))).
  - intros st buffer. exists 0%nat, 0%nat. auto.
  - intros st buffer raw_line rest _. exists 0%nat, 0%nat. auto.
  - auto.
  - intros st buffer rest s _ Hout _ IH.
    unfold run_then. cbn [history app]. apply Hcons; [|exact IH].
    destruct Hout; cbn [returns acts after]; auto.
  - intros st buffer rest e _. cbn [history]. apply Hone.
Qed.

(** When one call of [flush_and_emit] makes the POST, where to, and when
    it sets the flag. *)
Lemma flush_posts (st : Session) (buf : list str) :
  let s := flush_and_emit cl post st buf in
  (posts (acts s) <> [] <->
   sent_done st = false /\ called st = false /\ is_handshake buf = true /\
   exists e ctx,
     _endpoint_and_context_from_data (payload_of buf) = Ok (e, ctx) /\
     nonempty e = true) /\
  (forall url payload,
      In (url, payload) (posts (acts s)) ->
      exists ctx,
        _endpoint_and_context_from_data (payload_of buf) = Ok (Some url, ctx)) /\
  (called (after s) = true <->
   called st = true \/
   exists url payload,
     posts (acts s) = [(url, payload)] /\ post url payload = None).
Proof.
  cbv zeta.
  assert (Hnone : forall a st',
             posts a = [] -> called st' = called st ->
             (sent_done st = false /\ called st = false /\
              is_handshake buf = true /\
              (exists e ctx,
                  _endpoint_and_context_from_data (payload_of buf) = Ok (e, ctx) /\
                  nonempty e = true) -> False) ->
             (posts a <> [] <->
              sent_done st = false /\ called st = false /\
              is_handshake buf = true /\
              exists e ctx,
                _endpoint_and_context_from_data (payload_of buf) = Ok (e, ctx) /\
                nonempty e = true) /\
             (forall url payload,
                 In (url, payload) (posts a) ->
                 exists ctx,
                   _endpoint_and_context_from_data (payload_of buf)
                   = Ok (Some url, ctx)) /\
             (called st' = true <->
              called st = true \/
              exists url payload,
                posts a = [(url, payload)] /\ post url payload = None)).
  { intros a st' Ha Hc Hno. rewrite Ha, Hc. split; [|split].
    - split; [congruence|]. intros H. now elim Hno.
    - intros url payload [].
    - split; [auto|]. intros [H|(url & payload & H & _)]; [exact H|discriminate]. }
  destruct (sent_done st) eqn:Hlive.
  { rewrite flush_when_done by assumption. cbn [returns acts after].
    apply Hnone; auto. intros (H & _). discriminate. }
  destruct (is_handshake buf) eqn:Hhs.
  2:{ destruct (flush_outcome cl post st buf);
        try congruence; cbn [returns raises acts after];
        apply Hnone; auto; intros (_ & _ & Hx & _); discriminate. }
  rewrite flush_handshake by assumption. unfold handshake.
  destruct (_endpoint_and_context_from_data (payload_of buf))
    as [[e ctx]|ex] eqn:Hparse.
  2:{ cbn [raises acts after]. apply Hnone; auto.
      intros (_ & _ & _ & e & ctx & H & _). discriminate. }
  cbn [called endpoint_url set_handshake sent_done]. rewrite Hlive.
  destruct (called st) eqn:Hcalled; cbn [negb andb].
  { cbn [returns acts after]. apply Hnone; auto.
    intros (_ & H & _). discriminate. }
  destruct (nonempty e) eqn:He.
  2:{ cbn [returns acts after]. apply Hnone; auto.
      intros (_ & _ & _ & e' & ctx' & [= <- <-] & He'). congruence. }
  assert (Hurl : Some (text_of e) = e).
  { destruct e as [[|c u]|]; try discriminate. reflexivity. }
  set (payload := make_payload cl (context (set_handshake st e ctx))).
  destruct (post (text_of e) payload) as [ex|] eqn:Hpost;
    cbn [returns acts after app posts set_sent_done set_called called
         set_handshake].
  - split; [|split].
    + split; [intros _|discriminate]. repeat split; eauto.
    + intros url p [[= <- <-]|[]]. exists ctx. now rewrite Hurl.
    + rewrite Hcalled. split; [discriminate|].
      intros [H|(url & p & [= <- <-] & H)]; congruence.
  - split; [|split].
    + split; [intros _|discriminate]. repeat split; eauto.
    + intros url p [[= <- <-]|[]]. exists ctx. now rewrite Hurl.
    + split; [intros _|reflexivity]. right. eauto.
Qed.

Lemma on_exception_posts (st : Session) (e : PyExn) :
  posts (on_exception st e) = [].
Proof. unfold on_exception. now destruct (sent_done st). Qed.

Lemma on_close_posts (st : Session) : posts (fst (on_close st)) = [].
Proof. unfold on_close. now destruct (sent_done st). Qed.
End Trigger.

Section Handshake.
Context {rt : PyRuntime}.
Variable cl : Closure.
Variable post : str -> ToolCall -> option PyExn.

(** C2, as the code has it: every record that reaches the handshake
    branch and is parsed assigns the endpoint it carries to the session,
    whatever endpoint an earlier handshake had set (the last handshake
    wins, and a handshake without endpoint resets it to [None]); once the
    trigger has been sent such a record makes no POST. *)
Theorem handshake_overwrites_endpoint (st : Session) (buf : list str)
    (e : option str) (ctx : dict JSON) :
  sent_done st = false ->
  is_handshake buf = true ->
  _endpoint_and_context_from_data (payload_of buf) = Ok (e, ctx) ->
  endpoint_url (after (flush_and_emit cl post st buf)) = e /\
  (called st = true -> posts (acts (flush_and_emit cl post st buf)) = []).
Proof.
  intros Hlive Hhs Hparse. split.
  - rewrite flush_handshake by assumption.
    unfold handshake. rewrite Hparse.
    cbn [called endpoint_url set_handshake sent_done]. rewrite Hlive.
    destruct (negb (called st) && nonempty e); [|reflexivity].
    now destruct (post _ _).
  - intros Hcalled.
    destruct (flush_posts cl post st buf) as ((Hposts & _) & _).
    destruct (posts (acts (flush_and_emit cl post st buf))) as [|p l];
      [reflexivity|].
    destruct Hposts as (_ & Hc & _); [discriminate|congruence].
Qed.
End Handshake.

(** C2 on a second handshake, in a session that was already triggered. *)
Lemma handshake_overwrites_endpoint_witness :
  endpoint_url
    (after (@flush_and_emit reference_runtime sample_closure (fun _ _ => None)
              {| endpoint_url := Some (lit "https://api.skywork.ai/open/message?sessionId=a");
                 called := true; context := []; sent_done := false |}
              [lit "event: endpoint"; lit "data: /open/message?sessionId=b"]))
  = Some (lit "https://api.skywork.ai/open/message?sessionId=b").
Proof.
  refine (proj1 (@handshake_overwrites_endpoint reference_runtime sample_closure
           (fun _ _ => None)
           {| endpoint_url := Some (lit "https://api.skywork.ai/open/message?sessionId=a");
              called := true; context := []; sent_done := false |}
           [lit "event: endpoint"; lit "data: /open/message?sessionId=b"]
           (Some (lit "https://api.skywork.ai/open/message?sessionId=b"))
           [(lit "sessionId", JString (lit "b"))] _ _ _));
    vm_compute; reflexivity.
Defined.

(** C2 as stated fails: in a session that receives two handshakes the
    endpoint set by the first is replaced by that of the second. *)
Lemma second_handshake_replaces_endpoint :
  let w := upstream_of
             [blit "event: endpoint"; blit "data: /open/message?sessionId=a"; [];
              blit "event: endpoint"; blit "data: /open/message?sessionId=b"; []] in
  let r := @event_stream reference_runtime sample_closure w in
  map endpoint_url (history r)
  = [Some (lit "https://api.skywork.ai/open/message?sessionId=a");
     Some (lit "https://api.skywork.ai/open/message?sessionId=b")] /\
  endpoint_url (final r)
  = Some (lit "https://api.skywork.ai/open/message?sessionId=b") /\
  lit "https://api.skywork.ai/open/message?sessionId=a"
  <> lit "https://api.skywork.ai/open/message?sessionId=b".
Proof.
  vm_compute. repeat split; discriminate.
Qed.

Section Once.
Context {rt : PyRuntime}.
Variable cl : Closure.

(** C5: in every session the trigger POST is attempted at most once, and
    the flag [called], listed after every call of [flush_and_emit], is
    first false and then true: it is set at most once and never reset.
    One call of [flush_and_emit] makes the POST exactly when the session
    is not done, the flag is still false and the record is a handshake
    from which an endpoint is resolved; the POST goes to that endpoint;
    and the flag is true afterwards exactly when it was true before or
    this call's POST returned. *)
Theorem trigger_at_most_once (w : World) :
  let r := event_stream cl w in
  (List.length (posts (trace r)) <= 1)%nat /\
  (exists a b, map called (history r) = repeat false a ++ repeat true b) /\
  (forall st buf,
      let s := flush_and_emit cl (requests_post w) st buf in
      (posts (acts s) <> [] <->
       sent_done st = false /\ called st = false /\ is_handshake buf = true /\
       exists e ctx,
         _endpoint_and_context_from_data (payload_of buf) = Ok (e, ctx) /\
         nonempty e = true) /\
      (forall url payload,
          In (url, payload) (posts (acts s)) ->
          exists ctx,
            _endpoint_and_context_from_data (payload_of buf)
            = Ok (Some url, ctx)) /\
      (called (after s) = true <->
       called st = true \/
       exists url payload,
         posts (acts s) = [(url, payload)] /\
         requests_post w url payload = None)).
Proof.
  cbv zeta. split; [|split]; [| |apply flush_posts].
  - unfold event_stream.
    destruct (requests_get w) as [e|status_code text lines ending].
    { cbn [trace]. rewrite on_exception_posts. cbn. lia. }
    destruct (negb (status_code =? 200)%Z).
    { destruct text; cbn [trace]; [cbn; lia|].
      rewrite on_exception_posts. cbn. lia. }
    destruct (read_loop_posts cl (requests_post w) lines initial_session [])
      as [Hone _].
    set (r := read_loop cl (requests_post w) initial_session [] lines) in *.
    assert (Hclosed :
              posts (trace (let '(a, st') := on_close (final r) in
                            {| trace := trace r ++ a; history := history r;
                               final := st'; exit := exit r |}))
              = posts (trace r)).
    { pose proof (on_close_posts (final r)) as H.
      destruct (on_close (final r)) as [a st']. cbn [fst trace] in *.
      now rewrite posts_app, H, app_nil_r. }
    assert (Hfailed : forall e,
              posts (trace r ++ on_exception (final r) e) = posts (trace r)).
    { intros e. now rewrite posts_app, on_exception_posts, app_nil_r. }
    destruct (exit r) as [| |e]; [destruct ending as [|e]| |];
      cbn [trace]; rewrite ?Hclosed, ?Hfailed; exact Hone.
  - unfold event_stream.
    destruct (requests_get w) as [e|status_code text lines ending].
    { exists 0%nat, 0%nat. reflexivity. }
    destruct (negb (status_code =? 200)%Z).
    { destruct text; exists 0%nat, 0%nat; reflexivity. }
    destruct (read_loop_called cl (requests_post w) lines initial_session [])
      as (a & b & Hh & _).
    set (r := read_loop cl (requests_post w) initial_session [] lines) in *.
    exists a, b.
    destruct (exit r) as [| |e]; [destruct ending as [|e]| |];
      cbn [history]; try exact Hh;
      destruct (on_close (final r)); exact Hh.
Qed.
End Once.

(** C5 on a session of two handshakes and on its first record: one POST,
    to the first endpoint, after which the flag stays set. *)
Lemma trigger_at_most_once_witness :
  let w := upstream_of
             [blit "event: endpoint"; blit "data: /open/message?sessionId=a"; [];
              blit "event: endpoint"; blit "data: /open/message?sessionId=b"; []] in
  (List.length (posts (trace (@event_stream reference_runtime sample_closure w))) <= 1)%nat /\
  posts (acts (@flush_and_emit reference_runtime sample_closure (requests_post w)
                 initial_session
                 [lit "event: endpoint"; lit "data: /open/message?sessionId=a"]))
  <> [].
Proof.
  cbv zeta.
  destruct (@trigger_at_most_once reference_runtime sample_closure
              (upstream_of
                 [blit "event: endpoint"; blit "data: /open/message?sessionId=a"; [];
                  blit "event: endpoint"; blit "data: /open/message?sessionId=b"; []]))
    as (Hone & _ & Hstep).
  split; [exact Hone|].
  apply (Hstep initial_session
               [lit "event: endpoint"; lit "data: /open/message?sessionId=a"]).
  repeat split.
  exists (Some (lit "https://api.skywork.ai/open/message?sessionId=a")),
    [(lit "sessionId", JString (lit "a"))].
  split; vm_compute; reflexivity.
Defined.

Example two_handshakes_trace :
  let r := @event_stream reference_runtime sample_closure
             (upstream_of
                [blit "event: endpoint"; blit "data: /open/message?sessionId=a"; [];
                 blit "event: endpoint"; blit "data: /open/message?sessionId=b"; []]) in
  map fst (posts (trace r)) = [lit "https://api.skywork.ai/open/message?sessionId=a"] /\
  map called (history r) = [true; true] /\
  dones (trace r) = [DONE_CHUNK].
Proof. vm_compute. repeat split. Qed.

(** * Further properties *)

(** ** The line decoder on plain lines *)

Lemma utf8_items_ascii (bs : list N) :
  forallb (fun b => (b <? 128)%N) bs = true ->
  utf8_items Idle bs = map Char bs.
Proof.
  induction bs as [|b bs IH]; [reflexivity|].
  cbn [forallb]. intros H. apply andb_prop in H as [Hb Hbs].
  cbn [utf8_items utf8_feed map]. unfold utf8_start. rewrite Hb.
  cbn [app]. now rewrite IH.
Qed.

Lemma utf8_strict_chars (s : str) : utf8_strict (map Char s) = Ok s.
Proof.
  induction s as [|c s IH]; [reflexivity|]. cbn [map utf8_strict]. now rewrite IH.
Qed.

Lemma utf8_lossy_app (a b : list Utf8Item) :
  utf8_lossy (a ++ b) = utf8_lossy a ++ utf8_lossy b.
Proof.
  induction a as [|[c|] a IH]; cbn [app utf8_lossy]; [reflexivity| |exact IH].
  now rewrite IH.
Qed.

Lemma utf8_start_one (b : N) :
  (List.length (utf8_lossy (fst (utf8_start b))) <= 1)%nat.
Proof.
  unfold utf8_start.
  repeat match goal with
         | |- context [if ?c then _ else _] => destruct c
         end; cbn; lia.
Qed.

Lemma utf8_feed_one (st : Utf8State) (b : N) :
  (List.length (utf8_lossy (fst (utf8_feed st b))) <= 1)%nat.
Proof.
  destruct st as [|n acc lo hi]; [apply utf8_start_one|].
  cbn [utf8_feed]. destruct ((lo <=? b)%N && (b <=? hi)%N).
  - destruct n as [|[|k]]; cbn; lia.
  - pose proof (utf8_start_one b) as H.
    destruct (utf8_start b) as [items st']. exact H.
Qed.

Lemma utf8_lossy_length (bs : list N) :
  forall st, (List.length (utf8_lossy (utf8_items st bs)) <= List.length bs)%nat.
Proof.
  induction bs as [|b bs IH]; intros st.
  - destruct st; cbn; lia.
  - cbn [utf8_items List.length]. pose proof (utf8_feed_one st b) as H.
    destruct (utf8_feed st b) as [items st']. cbn [fst] in H.
    rewrite utf8_lossy_app, length_app. specialize (IH st'). lia.
Qed.

(** X1: a line of ASCII bytes is decoded to the same characters, and no
    line is decoded to more characters than it has bytes. *)
Theorem safe_decode_ascii_and_length :
  (forall b : bytes,
      forallb is_ascii_byte b = true -> _safe_decode b = Ok (map Byte.to_N b)) /\
  (forall (b : bytes) (s : str),
      _safe_decode b = Ok s -> (List.length s <= List.length b)%nat).
Proof.
  split.
  - intros b Hascii. unfold _safe_decode, safe_decode_with, decode_utf8.
    rewrite utf8_items_ascii.
    + now rewrite utf8_strict_chars.
    + rewrite forallb_forall in *. intros x Hx.
      apply in_map_iff in Hx as (y & <- & Hy). now apply Hascii.
  - intros b s. unfold _safe_decode, safe_decode_with.
    destruct (decode_utf8 Strict b) as [t|e] eqn:Hstrict.
    + intros [= <-]. unfold decode_utf8 in Hstrict.
      apply utf8_strict_lossy in Hstrict. rewrite <- Hstrict.
      rewrite <- (length_map Byte.to_N b). apply utf8_lossy_length.
    + apply utf8_strict_raises_only_decode_error in Hstrict. subst e.
      cbn [decode_utf8]. intros [= <-].
      rewrite <- (length_map Byte.to_N b). apply utf8_lossy_length.
Qed.

Lemma safe_decode_ascii_and_length_witness :
  _safe_decode (blit "data: ok") = Ok (map Byte.to_N (blit "data: ok")) /\
  (List.length [0x8BF7%N] <= List.length [xe8; xaf; xb7])%nat.
Proof.
  destruct safe_decode_ascii_and_length as [Hascii Hlen]. split.
  - apply Hascii. reflexivity.
  - apply (Hlen [xe8; xaf; xb7] [0x8BF7%N]). reflexivity.
Defined.

(** ** [build_query] beyond the mode *)

Lemma lstrip_head (s : str) :
  match lstrip s with
  | [] => True
  | c :: _ => is_space c = false
  end.
Proof.
  induction s as [|c s IH]; cbn [lstrip]; [exact I|].
  destruct (is_space c) eqn:Hc; [exact IH|exact Hc].
Qed.

Lemma lstrip_fixed (s : str) :
  match s with [] => True | c :: _ => is_space c = false end -> lstrip s = s.
Proof. destruct s as [|c s]; cbn [lstrip]; [reflexivity|]. now intros ->. Qed.

Lemma lstrip_idempotent (s : str) : lstrip (lstrip s) = lstrip s.
Proof. apply lstrip_fixed, lstrip_head. Qed.

(** What [lstrip] drops from the front it keeps as a whole at the back. *)
Lemma lstrip_suffix (s : str) : exists dropped, s = dropped ++ lstrip s.
Proof.
  induction s as [|c s [d IH]]; [now exists []|].
  cbn [lstrip]. destruct (is_space c).
  - exists (c :: d). cbn [app]. now f_equal.
  - now exists [].
Qed.

Lemma rstrip_keeps_head (s : str) (c : N) :
  is_space c = false -> exists t, rstrip (c :: s) = c :: t.
Proof.
  intros Hc. unfold rstrip. cbn [rev].
  destruct (lstrip_suffix (rev s ++ [c])) as [d Hd].
  assert (Hne : lstrip (rev s ++ [c]) <> []).
  { rewrite lstrip_app. destruct (lstrip (rev s)); cbn [lstrip].
    - now rewrite Hc.
    - discriminate. }
  destruct (rev (lstrip (rev s ++ [c]))) as [|x t] eqn:Hrev.
  { apply (f_equal (@rev N)) in Hrev. rewrite rev_involutive in Hrev.
    now elim Hne. }
  assert (Hx : x = c).
  { apply (f_equal (@rev N)) in Hd.
    rewrite !rev_app_distr in Hd. rewrite Hrev, rev_involutive in Hd.
    cbn [rev app] in Hd. now injection Hd. }
  subst x. now exists t.
Qed.

Lemma rstrip_idempotent (s : str) : rstrip (rstrip s) = rstrip s.
Proof. unfold rstrip. now rewrite rev_involutive, lstrip_idempotent. Qed.

Lemma strip_idempotent (s : str) : strip (strip s) = strip s.
Proof.
  unfold strip. pose proof (lstrip_head s) as Hhead.
  destruct (lstrip s) as [|c t]; [reflexivity|].
  destruct (rstrip_keeps_head t c Hhead) as [t' Ht'].
  rewrite (lstrip_fixed (rstrip (c :: t))) by now rewrite Ht'.
  apply rstrip_idempotent.
Qed.

(** X2: the query text is trimmed; when an outline is given the topic has
    no part in it; and with neither outline nor template hint it is the
    trimmed topic. *)
Theorem build_query_shape :
  (forall req, strip (build_query req) = build_query req) /\
  (forall r1 r2,
      nonempty (outline_md r1) = true ->
      outline_md r1 = outline_md r2 -> template_hint r1 = template_hint r2 ->
      build_query r1 = build_query r2) /\
  (forall req,
      nonempty (outline_md req) = false -> nonempty (template_hint req) = false ->
      build_query req = strip (topic req)).
Proof.
  split; [|split].
  - intros req. unfold build_query. apply strip_idempotent.
  - intros r1 r2 Hne Ho Hh. unfold build_query.
    rewrite <- Ho, <- Hh, Hne. reflexivity.
  - intros req Ho Hh. unfold build_query.
    rewrite Ho, Hh, mode_desc_is_topic, format_topic_field, app_nil_r.
    reflexivity.
Qed.

Lemma build_query_shape_witness :
  build_query {| topic := lit "Q3"; template_hint := None; use_network := true;
                 mode := ppt; outline_md := Some (lit "# Plan") |}
  = build_query {| topic := lit "another topic"; template_hint := None;
                   use_network := false; mode := doc;
                   outline_md := Some (lit "# Plan") |} /\
  build_query {| topic := lit "  Q3 review "; template_hint := Some [];
                 use_network := true; mode := excel; outline_md := None |}
  = strip (lit "  Q3 review ").
Proof.
  destruct build_query_shape as (_ & Houtline & Htopic). split.
  - apply Houtline; reflexivity.
  - apply Htopic; reflexivity.
Defined.

(** ** What the URL extractor returns *)

Lemma take_while_prefix (f : N -> bool) (s : str) :
  forallb f (take_while f s) = true /\
  exists rest, s = take_while f s ++ rest.
Proof.
  induction s as [|c s [Hall [rest Hrest]]]; cbn [take_while].
  - split; [reflexivity|now exists []].
  - destruct (f c) eqn:Hc.
    + cbn [forallb]. rewrite Hc, Hall. split; [reflexivity|].
      exists rest. cbn [app]. now f_equal.
    + split; [reflexivity|]. now exists (c :: s).
Qed.

Lemma url_tail_shape (sch after u : str) :
  url_tail sch after = Some u ->
  exists body rest,
    u = sch ++ lit "://" ++ body /\ after = lit "://" ++ body ++ rest /\
    body <> [] /\ forallb url_char body = true.
Proof.
  unfold url_tail. destruct (startswith after (lit "://")) eqn:Hsep; [|discriminate].
  apply startswith_split in Hsep.
  change (List.length (lit "://")) with 3%nat in Hsep.
  destruct (take_while_prefix url_char (skipn 3 after)) as [Hall [rest Hrest]].
  destruct (take_while url_char (skipn 3 after)) as [|c body] eqn:Hbody;
    [discriminate|].
  intros [= <-]. exists (c :: body), rest. repeat split; auto; [|discriminate].
  now rewrite <- Hrest.
Qed.

Lemma url_match_shape (text u : str) :
  url_match text = Some u -> is_url u /\ exists rest, text = u ++ rest.
Proof.
  unfold url_match.
  destruct text as [|h [|t1 [|t2 [|p rest]]]]; try discriminate.
  destruct (ci 104 h && ci 116 t1 && ci 116 t2 && ci 112 p) eqn:Hhttp;
    [|discriminate].
  assert (Hshort : url_tail [h; t1; t2; p] rest = Some u ->
            is_url u /\ exists rest0, h :: t1 :: t2 :: p :: rest = u ++ rest0).
  { intros H. apply url_tail_shape in H as (body & rest0 & -> & -> & Hne & Hall).
    split.
    - exists [h; t1; t2; p], body. repeat split; auto.
    - exists rest0. cbn [app]. now rewrite <- !app_assoc. }
  unfold orelse. destruct rest as [|s rest']; [exact Hshort|].
  destruct (ci_s s) eqn:Hs; [|exact Hshort].
  destruct (url_tail [h; t1; t2; p; s] rest') as [v|] eqn:Hlong; [|exact Hshort].
  intros [= <-].
  apply url_tail_shape in Hlong as (body & rest0 & -> & -> & Hne & Hall).
  split.
  - exists [h; t1; t2; p; s], body. repeat split; auto.
    cbn [is_scheme]. now rewrite Hhttp, Hs.
  - exists rest0. cbn [app]. now rewrite <- !app_assoc.
Qed.

Lemma findall_shape (text : str) :
  forall skip u, In u (findall_go skip text) -> is_url u /\ occurs_in u text.
Proof.
  induction text as [|c rest IH]; intros skip u; cbn [findall_go]; [intros []|].
  assert (Hlater : forall k, In u (findall_go k rest) ->
                          is_url u /\ occurs_in u (c :: rest)).
  { intros k Hin. destruct (IH k u Hin) as [Hu (before & after & ->)].
    split; [exact Hu|]. now exists (c :: before), after. }
  destruct skip as [|k]; [|apply Hlater].
  destruct (url_match (c :: rest)) as [v|] eqn:Hm; [|apply Hlater].
  intros [<-|Hin]; [|eapply Hlater; eauto].
  apply url_match_shape in Hm as [Hu [after Hafter]].
  split; [exact Hu|]. exists [], after. exact Hafter.
Qed.

(** X3: the URLs collected from a text are pairwise distinct, each occurs
    in the text, and each is a scheme [http] or [https] in any letter
    case, a colon and two slashes, and at least one character, none of
    them white space, a quote or an angle bracket. *)
Theorem collected_urls_are_urls (rt : PyRuntime) (text : str) :
  NoDup (_collect_urls_from_text text) /\
  forall u, In u (_collect_urls_from_text text) -> is_url u /\ occurs_in u text.
Proof.
  unfold _collect_urls_from_text. split.
  - eapply Permutation_NoDup.
    + apply Permutation_sym, set_to_list_perm.
    + apply NoDup_nodup.
  - intros u Hin. apply (proj1 (set_to_list_In _ _)) in Hin.
    exact (findall_shape text 0%nat u Hin).
Qed.

Lemma collected_urls_are_urls_witness :
  is_url (lit "https://x.test/a.pptx") /\
  occurs_in (lit "https://x.test/a.pptx") (lit "see https://x.test/a.pptx now").
Proof.
  apply (proj2 (collected_urls_are_urls reference_runtime
                  (lit "see https://x.test/a.pptx now"))).
  vm_compute. left. reflexivity.
Defined.

(** ** [_pick_best_url] in full *)

Lemma sorted_desc_first_best (key : str -> Z) (l : list str) (u : str) :
  hd_error (sorted_desc key l) = Some u ->
  exists earlier later,
    l = earlier ++ u :: later /\
    (forall v, In v earlier -> (key v < key u)%Z) /\
    (forall v, In v later -> (key v <= key u)%Z).
Proof.
  revert u. induction l as [|x l IH]; intros u; cbn [sorted_desc fold_right];
    [discriminate|].
  fold (sorted_desc key l).
  destruct (sorted_desc key l) as [|y rest] eqn:Hsorted.
  - apply sorted_desc_nil in Hsorted. subst l. cbn.
    intros [= <-]. exists [], []. repeat split; intros v [].
  - destruct (IH y eq_refl) as (earlier & later & -> & Hbefore & Hafter).
    cbn [insert_desc].
    destruct (key x <? key y)%Z eqn:Hlt; cbn [hd_error]; intros [= <-].
    + apply Z.ltb_lt in Hlt. exists (x :: earlier), later.
      repeat split; auto. intros v [<-|Hv]; auto.
    + apply Z.ltb_ge in Hlt. exists [], (earlier ++ y :: later).
      repeat split; [intros v []|].
      intros v Hv. apply in_app_or in Hv as [Hv|[<-|Hv]].
      * specialize (Hbefore v Hv). lia.
      * exact Hlt.
      * specialize (Hafter v Hv). lia.
Qed.

(** X4: [_pick_best_url] returns [None] exactly on the empty list;
    otherwise it returns the first URL of the list whose score no other
    URL of the list exceeds. *)
Theorem pick_best_is_first_maximum (exts : list str) (urls : list str) :
  (_pick_best_url exts urls = None <-> urls = []) /\
  (forall best,
      _pick_best_url exts urls = Some best ->
      exists earlier later,
        urls = earlier ++ best :: later /\
        (forall v, In v earlier -> (_score_url exts v < _score_url exts best)%Z) /\
        (forall v, In v later -> (_score_url exts v <= _score_url exts best)%Z)).
Proof.
  split.
  - split; [|now intros ->].
    destruct urls as [|x l]; [reflexivity|]. intros Hnone.
    destruct (pick_best_of exts (x :: l)) as (best & Hbest & _); [discriminate|].
    congruence.
  - intros best Hbest. destruct urls as [|x l]; [discriminate|].
    now apply sorted_desc_first_best.
Qed.

Lemma pick_best_is_first_maximum_witness :
  exists earlier later,
    [lit "http://a/x.zip"; lit "http://a/y.pdf"; lit "http://a/z.pdf"]
    = earlier ++ lit "http://a/y.pdf" :: later /\
    (forall v, In v earlier ->
               (_score_url default_exts v
                < _score_url default_exts (lit "http://a/y.pdf"))%Z) /\
    (forall v, In v later ->
               (_score_url default_exts v
                <= _score_url default_exts (lit "http://a/y.pdf"))%Z).
Proof.
  apply (proj2 (pick_best_is_first_maximum default_exts
                  [lit "http://a/x.zip"; lit "http://a/y.pdf"; lit "http://a/z.pdf"])).
  vm_compute. reflexivity.
Defined.

(** ** Bounds of the score *)

Lemma ext_terms_nonnegative (s : str) (exts : list str) :
  forall k : nat,
    (k + List.length exts <= 101)%nat ->
    (0 <= fold_right Z.add 0
            (map (fun p : nat * str =>
                    if endswith s (lit "." ++ snd p)
                    then 100 - Z.of_nat (fst p) else 0)
                 (combine (seq k (List.length exts)) exts)))%Z.
Proof.
  induction exts as [|ext rest IH]; intros k Hk; [cbn; lia|].
  cbn [List.length seq combine map fold_right fst snd] in *.
  specialize (IH (S k) ltac:(lia)).
  destruct (endswith s (lit "." ++ ext)); lia.
Qed.

(** X5: with at most a hundred configured extensions the score of a URL
    is never below the base of 10, and under the default list it is at
    most 134. *)
Theorem score_bounds :
  (forall exts u,
      (List.length exts <= 100)%nat -> (10 <= _score_url exts u)%Z) /\
  (forall u, (10 <= _score_url default_exts u <= 134)%Z).
Proof.
  assert (Hlow : forall exts u,
             (List.length exts <= 100)%nat -> (10 <= _score_url exts u)%Z).
  { intros exts u Hlen. rewrite score_url_sum.
    pose proof (ext_terms_nonnegative (lower u) exts 1 ltac:(lia)) as Hext.
    unfold ext_bonus, keyword_bonus, signature_bonus.
    destruct (has_keyword (lower u)), (has_signature (lower u)); lia. }
  split; [exact Hlow|]. intros u. split; [apply Hlow; cbn; lia|].
  rewrite score_url_sum.
  assert (Hext : (ext_bonus default_exts (lower u) <= 99)%Z).
  { destruct (endswith (lower u) (lit ".pptx")) eqn:H1;
      [rewrite (default_bonus_at_rank _ (lit "pptx") 0 eq_refl H1); cbn; lia|].
    destruct (endswith (lower u) (lit ".docx")) eqn:H2;
      [rewrite (default_bonus_at_rank _ (lit "docx") 1 eq_refl H2); cbn; lia|].
    destruct (endswith (lower u) (lit ".xlsx")) eqn:H3;
      [rewrite (default_bonus_at_rank _ (lit "xlsx") 2 eq_refl H3); cbn; lia|].
    destruct (endswith (lower u) (lit ".pdf")) eqn:H4;
      [rewrite (default_bonus_at_rank _ (lit "pdf") 3 eq_refl H4); cbn; lia|].
    destruct (endswith (lower u) (lit ".zip")) eqn:H5;
      [rewrite (default_bonus_at_rank _ (lit "zip") 4 eq_refl H5); cbn; lia|].
    rewrite default_bonus_none; [lia|].
    intros ext Hin.
    change default_exts
      with [lit "pptx"; lit "docx"; lit "xlsx"; lit "pdf"; lit "zip"] in Hin.
    repeat (destruct Hin as [<-|Hin]; [assumption|]). destruct Hin. }
  unfold keyword_bonus, signature_bonus.
  destruct (has_keyword (lower u)), (has_signature (lower u)); lia.
Qed.

Lemma score_bounds_witness :
  (10 <= _score_url [lit "pptx"; lit "pptx"] (lit "http://a/b.pptx"))%Z.
Proof.
  apply (proj1 score_bounds). cbn. lia.
Defined.

(** ** Dictionaries *)

Lemma str_eqb_eq (a b : str) : str_eqb a b = true <-> a = b.
Proof.
  revert b. induction a as [|x a IH]; intros [|y b]; cbn [str_eqb];
    try (split; [discriminate|discriminate]); [tauto|].
  rewrite andb_true_iff, N.eqb_eq, IH. split; [intros [-> ->]|intros [= -> ->]]; auto.
Qed.

Lemma str_eqb_refl (a : str) : str_eqb a a = true.
Proof. now apply str_eqb_eq. Qed.

Lemma str_eqb_neq (a b : str) : a <> b -> str_eqb a b = false.
Proof.
  intros H. destruct (str_eqb a b) eqn:E; [|reflexivity].
  apply str_eqb_eq in E. contradiction.
Qed.

Lemma dict_get_set_same {V} (d : dict V) (k : str) (v : V) :
  dict_get (dict_set d k v) k = Some v.
Proof.
  induction d as [|[k' v'] d IH]; cbn [dict_set dict_get].
  - now rewrite str_eqb_refl.
  - destruct (str_eqb k' k) eqn:E; cbn [dict_get]; now rewrite E.
Qed.

Lemma dict_get_set_other {V} (d : dict V) (k k0 : str) (v : V) :
  k0 <> k -> dict_get (dict_set d k0 v) k = dict_get d k.
Proof.
  intros Hne. induction d as [|[k' v'] d IH]; cbn [dict_set dict_get].
  - now rewrite str_eqb_neq.
  - destruct (str_eqb k' k0) eqn:E; cbn [dict_get].
    + apply str_eqb_eq in E. subst k'. now rewrite str_eqb_neq.
    + now rewrite IH.
Qed.

(** ** The handshake parser at its edges *)

Section Parser.
Context {rt : PyRuntime}.

Lemma query_fields_other (q : dict (list str)) (k : str) (keys : list str) :
  ~ In k keys ->
  forall ctx, dict_get (fold_left (query_field q) keys ctx) k = dict_get ctx k.
Proof.
  induction keys as [|a keys IH]; intros Hnotin ctx; [reflexivity|].
  cbn [fold_left]. rewrite IH by (intros H; apply Hnotin; now right).
  unfold query_field. destruct (dict_get q a) as [[|v vs]|]; try reflexivity.
  apply dict_get_set_other. intros ->. apply Hnotin. now left.
Qed.

Lemma query_fields_found (q : dict (list str)) (k v : str) (vs : list str)
    (keys : list str) :
  NoDup keys -> In k keys -> dict_get q k = Some (v :: vs) ->
  forall ctx, dict_get (fold_left (query_field q) keys ctx) k = Some (JString v).
Proof.
  intros Hnodup Hin Hq. induction Hnodup as [|a keys Hnotin Hnodup IH];
    intros ctx; [destruct Hin|].
  cbn [fold_left]. destruct Hin as [->|Hin]; [|now apply IH].
  rewrite query_fields_other by assumption.
  unfold query_field. rewrite Hq. apply dict_get_set_same.
Qed.

Lemma query_keys_distinct : NoDup query_keys.
Proof.
  unfold query_keys. repeat constructor; cbn [In]; intuition discriminate.
Qed.

(** What a successful parse of a JSON object returns: the context is the
    one gathered from the members, then the session identifiers of the
    query. *)
Lemma parsed_object_context (data e : str) (ctx : dict JSON) (meta : dict JSON) :
  startswith data (lit "{") = true ->
  json_loads data = Some (JObject meta) ->
  _endpoint_and_context_from_data data = Ok (Some e, ctx) ->
  ctx = match url_query_params e with
        | Ok q => query_fields q (snd (meta_fields meta []))
        | Raise _ => snd (meta_fields meta [])
        end.
Proof.
  intros Hbrace Hjson. unfold _endpoint_and_context_from_data.
  rewrite Hbrace, Hjson.
  destruct (meta_fields meta []) as [endpoint ctx0]. cbn [snd].
  destruct (negb (truthy endpoint)); [discriminate|].
  destruct endpoint as [| | | |s| |]; try discriminate.
  destruct (if startswith s (lit "/") then urljoin BASE_ORIGIN s else Ok s)
    as [e'|ex]; [|discriminate].
  now intros [= <- <-].
Qed.

(** X6: when the handshake payload is a JSON object, a session identifier
    in the query string of the resolved endpoint is what the context holds
    for that key, whatever the members of the object said; every other key
    keeps the value gathered from the members. *)
Theorem query_identifier_wins (data e : str) (ctx : dict JSON)
    (meta : dict JSON) (q : dict (list str)) :
  startswith data (lit "{") = true ->
  json_loads data = Some (JObject meta) ->
  _endpoint_and_context_from_data data = Ok (Some e, ctx) ->
  url_query_params e = Ok q ->
  (forall k v vs,
      In k query_keys -> dict_get q k = Some (v :: vs) ->
      dict_get ctx k = Some (JString v)) /\
  (forall k,
      ~ In k query_keys \/ dict_get q k = None ->
      dict_get ctx k = dict_get (snd (meta_fields meta [])) k).
Proof.
  intros Hbrace Hjson Hparse Hq.
  rewrite (parsed_object_context _ _ _ _ Hbrace Hjson Hparse), Hq. split.
  - intros k v vs Hin Hk.
    exact (query_fields_found q k v vs query_keys query_keys_distinct Hin Hk _).
  - intros k Hk. unfold query_fields.
    change (fun ctx k0 => match dict_get q k0 with
                          | Some (v :: _) => dict_set ctx k0 (JString v)
                          | _ => ctx
                          end) with (query_field q).
    generalize (snd (meta_fields meta [])).
    induction query_keys as [|a keys IH]; intros c; [reflexivity|].
    cbn [fold_left]. rewrite IH by (destruct Hk as [Hk|Hk]; [left|right]; auto;
                                    intros H; apply Hk; now right).
    unfold query_field.
    destruct (dict_get q a) as [[|v vs]|] eqn:Ha; try reflexivity.
    apply dict_get_set_other. intros ->.
    destruct Hk as [Hk|Hk]; [apply Hk; now left|congruence].
Qed.
End Parser.

(** X6 on a payload that names the session in a member and, differently,
    in the query string of its endpoint. *)
Lemma query_identifier_wins_witness :
  dict_get [(lit "sessionId", JString (lit "fromquery"))] (lit "sessionId")
  = Some (JString (lit "fromquery")).
Proof.
  refine (proj1 (@query_identifier_wins reference_runtime
                   (qlit "{'endpoint':'/m?sessionId=fromquery','sessionId':'frombody'}")
                   (lit "https://api.skywork.ai/m?sessionId=fromquery")
                   [(lit "sessionId", JString (lit "fromquery"))]
                   [(lit "endpoint", JString (lit "/m?sessionId=fromquery"));
                    (lit "sessionId", JString (lit "frombody"))]
                   [(lit "sessionId", [lit "fromquery"])] _ _ _ _)
            (lit "sessionId") (lit "fromquery") [] _ _);
    vm_compute; auto.
Defined.

(** ** The branches of [flush_and_emit] the claims leave out *)

Section Branches.
Context {rt : PyRuntime}.
Variable cl : Closure.
Variable post : str -> ToolCall -> option PyExn.

(** One flush in the read loop: the lines of a record, the blank line, and
    what follows. *)
Lemma read_loop_record (st : Session) (raw rest : list bytes) :
  sent_done st = false ->
  Forall (fun raw_line => is_blank raw_line = false) raw ->
  read_loop cl post st [] (raw ++ [] :: rest)
  = let s := flush_and_emit cl post st (map decoded_line raw) in
    match raised s with
    | Some e =>
        {| trace := acts s; history := [after s]; final := after s;
           exit := Threw e |}
    | None => run_then (acts s) [after s] (read_loop cl post (after s) [] rest)
    end.
Proof.
  intros Hlive Hraw. rewrite read_loop_buffers by assumption.
  cbn [app read_loop is_blank]. now rewrite Hlive.
Qed.

(** X7: a record whose payload decodes to an object with [method] equal
    to [ping], and holds no URL, yields the keep-alive log event and
    nothing else, whatever its name and whatever else it says: it is not
    treated as a handshake, makes no POST and leaves the session as it
    was, so the records after it are processed as if it had not come. *)
Theorem ping_is_only_kept_alive (st : Session) (buf : list str) :
  sent_done st = false ->
  payload_of buf <> [] ->
  URL_RE_findall (payload_of buf) = [] ->
  is_ping (json_loads (payload_of buf)) = true ->
  flush_and_emit cl post st buf = returns [Yield PING_CHUNK] st /\
  (forall raw rest,
      Forall (fun raw_line => is_blank raw_line = false) raw ->
      map decoded_line raw = buf ->
      let r := read_loop cl post st [] (raw ++ [] :: rest) in
      let r' := read_loop cl post st [] rest in
      trace r = Yield PING_CHUNK :: trace r' /\ final r = final r').
Proof.
  intros Hlive Hne Hfind Hping.
  assert (Hflush : flush_and_emit cl post st buf = returns [Yield PING_CHUNK] st).
  { rewrite flush_dispatches by assumption. unfold dispatch.
    rewrite (best_link_missing (exts cl) _ Hfind). cbn [nonempty].
    now rewrite Hping. }
  split; [exact Hflush|]. intros raw rest Hraw Hbuf. cbv zeta.
  rewrite read_loop_record by assumption. rewrite Hbuf, Hflush.
  cbn [raised returns acts after]. unfold run_then. cbn [trace final app]. auto.
Qed.

(** X8: when the trigger POST raises, the record yields the error event
    that carries the failure and then the [done] event, the session is
    done with the flag [called] still false, and nothing more is read. *)
Theorem failed_trigger_ends_session (st : Session) (buf : list str)
    (e : option str) (ctx : dict JSON) (ex : PyExn) :
  sent_done st = false -> called st = false ->
  is_handshake buf = true ->
  _endpoint_and_context_from_data (payload_of buf) = Ok (e, ctx) ->
  nonempty e = true ->
  post (text_of e) (make_payload cl (context (set_handshake st e ctx))) = Some ex ->
  let told :=
    [Post (text_of e) (make_payload cl (context (set_handshake st e ctx)));
     Yield (error_chunk (lit "tools/call failed: " ++ exn_str ex));
     Yield DONE_CHUNK] in
  flush_and_emit cl post st buf
  = returns told (set_sent_done (set_handshake st e ctx)) /\
  called (after (flush_and_emit cl post st buf)) = false /\
  (forall raw rest,
      Forall (fun raw_line => is_blank raw_line = false) raw ->
      map decoded_line raw = buf ->
      trace (read_loop cl post st [] (raw ++ [] :: rest)) = told).
Proof.
  intros Hlive Hcalled Hhs Hparse He Hpost told.
  assert (Hflush : flush_and_emit cl post st buf
                   = returns told (set_sent_done (set_handshake st e ctx))).
  { rewrite flush_handshake by assumption. unfold handshake. rewrite Hparse.
    cbv zeta.
    change (called (set_handshake st e ctx)) with (called st).
    change (endpoint_url (set_handshake st e ctx)) with e.
    change (sent_done (set_handshake st e ctx)) with (sent_done st).
    rewrite Hcalled, He, Hpost, Hlive. reflexivity. }
  split; [exact Hflush|]. split; [now rewrite Hflush|].
  intros raw rest Hraw Hbuf.
  rewrite read_loop_record by assumption. rewrite Hbuf, Hflush.
  cbn [raised returns acts after].
  destruct (read_loop_when_done cl post (set_sent_done (set_handshake st e ctx))
              [] rest eq_refl) as (Ht & _ & _).
  unfold run_then. cbn [trace]. rewrite Ht. apply app_nil_r.
Qed.

(** Data that is not a JSON object is itself the endpoint. *)
Lemma raw_data_is_endpoint (data : str) :
  data <> [] -> startswith data (lit "/") = false ->
  startswith data (lit "{") = false \/ json_loads data = None ->
  exists ctx, _endpoint_and_context_from_data data = Ok (Some data, ctx).
Proof.
  intros Hne Hslash Hraw.
  assert (Hok : forall r : Result (dict (list str)),
            exists ctx : dict JSON,
              Ok (Some data, match r with
                             | Ok q => query_fields q []
                             | Raise _ => []
                             end)
              = Ok (Some data, ctx)) by (intros r; eauto).
  unfold _endpoint_and_context_from_data.
  destruct data as [|c data]; [congruence|].
  destruct Hraw as [Hbrace|Hjson].
  - rewrite Hbrace. cbn [truthy negb]. rewrite Hslash. apply Hok.
  - rewrite Hjson. destruct (startswith (c :: data) (lit "{"));
      cbn [truthy negb]; rewrite Hslash; apply Hok.
Qed.

(** X9: what the handshake parser does with payloads that are not the
    expected object.  Empty data gives no endpoint.  Data that is not a
    JSON object (it does not open with a brace, or it does and cannot be
    decoded) is itself the endpoint, verbatim unless it opens with a slash.
    An object without a true [endpoint] or [url] member gives no endpoint
    and the context of its members.  An object whose endpoint is true but
    not text makes the parser raise. *)
Theorem endpoint_parser_edges :
  _endpoint_and_context_from_data [] = Ok (None, []) /\
  (forall data,
      data <> [] -> startswith data (lit "/") = false ->
      startswith data (lit "{") = false \/ json_loads data = None ->
      exists ctx, _endpoint_and_context_from_data data = Ok (Some data, ctx)) /\
  (forall data meta,
      startswith data (lit "{") = true ->
      json_loads data = Some (JObject meta) ->
      truthy (py_or (json_get meta (lit "endpoint")) (json_get meta (lit "url")))
      = false ->
      _endpoint_and_context_from_data data = Ok (None, snd (meta_fields meta []))) /\
  (forall data meta,
      startswith data (lit "{") = true ->
      json_loads data = Some (JObject meta) ->
      truthy (py_or (json_get meta (lit "endpoint")) (json_get meta (lit "url")))
      = true ->
      is_string (py_or (json_get meta (lit "endpoint")) (json_get meta (lit "url")))
      = false ->
      _endpoint_and_context_from_data data
      = Raise (AttributeError (lit "startswith"))).
Proof.
  split; [reflexivity|]. split; [|split].
  - exact raw_data_is_endpoint.
  - intros data meta Hbrace Hjson Hfalse. unfold _endpoint_and_context_from_data.
    rewrite Hbrace, Hjson.
    unfold meta_fields in *. cbn [snd]. now rewrite Hfalse.
  - intros data meta Hbrace Hjson Htrue Hnot. unfold _endpoint_and_context_from_data.
    rewrite Hbrace, Hjson. unfold meta_fields. rewrite Htrue. cbn [negb].
    now destruct (py_or (json_get meta (lit "endpoint")) (json_get meta (lit "url"))).
Qed.

(** X10: a handshake record whose payload cannot be parsed (the parser
    raises, as on a true endpoint that is not text, or [urljoin] raises)
    ends the session: the client gets the error event of the exception and
    then the literal [done] event, no POST is made, and whatever the
    upstream sends afterwards is not read. *)
Theorem unparsable_handshake_ends_session (buf : list str) (e : PyExn)
    (raw rest : list bytes) (ending : Ending) :
  is_handshake buf = true ->
  _endpoint_and_context_from_data (payload_of buf) = Raise e ->
  Forall (fun raw_line => is_blank raw_line = false) raw ->
  map decoded_line raw = buf ->
  trace (event_stream cl (upstream_ending (raw ++ [] :: rest) ending post))
  = [Yield (error_chunk (exn_str e)); Yield DONE_CHUNK].
Proof.
  intros Hhs Hparse Hraw Hbuf.
  unfold event_stream, upstream_ending. cbn [requests_get requests_post].
  change (negb (200 =? 200)%Z) with false. cbv iota.
  rewrite read_loop_record by (auto; reflexivity).
  rewrite Hbuf, flush_handshake by (auto; reflexivity).
  unfold handshake. rewrite Hparse. reflexivity.
Qed.

(** X11: the text of a handshake is not checked to be a URL.  When the
    payload of an [endpoint] record is not JSON and does not open with a
    slash, a session that has not triggered yet sends the POST to that
    very text. *)
Theorem raw_endpoint_is_posted (st : Session) (buf : list str) :
  sent_done st = false -> called st = false ->
  str_eqb (record_name buf) (lit "endpoint") = true ->
  payload_of buf <> [] ->
  URL_RE_findall (payload_of buf) = [] ->
  json_loads (payload_of buf) = None ->
  startswith (payload_of buf) (lit "/") = false ->
  exists payload,
    posts (acts (flush_and_emit cl post st buf)) = [(payload_of buf, payload)].
Proof.
  intros Hlive Hcalled Hname Hne Hfind Hjson Hslash.
  assert (Hhs : is_handshake buf = true).
  { unfold is_handshake. remember (payload_of buf) as p eqn:Hp.
    destruct p; [congruence|]. now rewrite Hfind, Hjson, Hname. }
  destruct (raw_data_is_endpoint (payload_of buf) Hne Hslash (or_intror Hjson))
    as [ctx Hparse].
  rewrite flush_handshake by assumption. unfold handshake. rewrite Hparse.
  cbv zeta.
  change (called (set_handshake st (Some (payload_of buf)) ctx)) with (called st).
  change (endpoint_url (set_handshake st (Some (payload_of buf)) ctx))
    with (Some (payload_of buf)).
  change (sent_done (set_handshake st (Some (payload_of buf)) ctx))
    with (sent_done st).
  rewrite Hcalled, Hlive. cbn [negb andb text_of].
  assert (nonempty (Some (payload_of buf)) = true) as ->
    by (destruct (payload_of buf); [congruence|reflexivity]).
  destruct (post (payload_of buf) _); eexists; reflexivity.
Qed.

(** X12: a record that is no URL carrier, no ping, no handshake, no token
    message, and whose payload is not a JSON object and does not open with
    a brace, is forwarded verbatim as one log event when it is shorter
    than 200 characters and dropped without a trace when it is not; the
    session is left as it was. *)
Theorem plain_text_is_logged_when_short (st : Session) (buf : list str) :
  sent_done st = false ->
  payload_of buf <> [] ->
  URL_RE_findall (payload_of buf) = [] ->
  is_object (json_loads (payload_of buf)) = false ->
  str_eqb (record_name buf) (lit "endpoint") = false ->
  contains (lower (payload_of buf)) (lit "token exhausted") = false ->
  startswith (payload_of buf) (lit "{") = false ->
  flush_and_emit cl post st buf
  = returns (if (List.length (payload_of buf) <? 200)%nat
             then [Yield (log_chunk (payload_of buf))] else [])
            st.
Proof.
  intros Hlive Hne Hfind Hobj Hname Htoken Hbrace.
  rewrite flush_dispatches by assumption. unfold dispatch.
  rewrite (best_link_missing (exts cl) _ Hfind). cbn [nonempty].
  assert (Hping : is_ping (json_loads (payload_of buf)) = false).
  { destruct (json_loads (payload_of buf)) as [[]|]; try reflexivity.
    discriminate. }
  assert (Hlog : extract_log (json_loads (payload_of buf)) = Ok JNull).
  { destruct (json_loads (payload_of buf)) as [[]|]; try reflexivity.
    discriminate. }
  rewrite Hping, Hname, Htoken. unfold passthrough. rewrite Hlog, Hbrace.
  cbn [truthy negb andb].
  destruct (List.length (payload_of buf) <? 200)%nat; [|reflexivity].
  cbn [truthy fmt]. destruct (payload_of buf); [congruence|reflexivity].
Qed.

(** X13: of a JSON object the [message] member is what is logged: a
    non-empty text is forwarded as one log event, whatever [content] says;
    an empty or null one, the payload opening with a brace, yields
    nothing.  Without [message], the [text] of the first item of
    [content] is forwarded unless it opens, after trimming, with a
    brace. *)
Theorem object_message_is_logged (st : Session) (buf : list str)
    (d : dict JSON) :
  sent_done st = false ->
  payload_of buf <> [] ->
  URL_RE_findall (payload_of buf) = [] ->
  json_loads (payload_of buf) = Some (JObject d) ->
  is_ping (json_loads (payload_of buf)) = false ->
  str_eqb (record_name buf) (lit "endpoint") = false ->
  contains (lower (payload_of buf)) (lit "token exhausted") = false ->
  startswith (payload_of buf) (lit "{") = true ->
  (forall m,
      dict_get d (lit "message") = Some (JString m) -> m <> [] ->
      flush_and_emit cl post st buf = returns [Yield (log_chunk m)] st) /\
  (forall v,
      dict_get d (lit "message") = Some v -> truthy v = false ->
      flush_and_emit cl post st buf = returns [] st) /\
  (forall f t rest,
      dict_get d (lit "message") = None ->
      dict_get d (lit "content") = Some (JArray (JObject f :: rest)) ->
      dict_get f (lit "text") = Some (JString t) -> t <> [] ->
      flush_and_emit cl post st buf
      = returns (if startswith (strip t) (lit "{") then []
                 else [Yield (log_chunk t)]) st).
Proof.
  intros Hlive Hne Hfind Hjson Hping Hname Htoken Hbrace.
  assert (Hflush : flush_and_emit cl post st buf
                   = passthrough st (Some (JObject d)) (payload_of buf)).
  { rewrite flush_dispatches by assumption. unfold dispatch.
    rewrite (best_link_missing (exts cl) _ Hfind). cbn [nonempty].
    rewrite Hping, Hname, Htoken. now rewrite Hjson. }
  rewrite Hflush. unfold passthrough, extract_log. rewrite Hbrace.
  split; [|split].
  - intros m Hm Hnonempty. rewrite Hm. cbn [negb andb].
    rewrite andb_false_r. cbn [truthy].
    destruct m; [congruence|reflexivity].
  - intros v Hv Hfalse. rewrite Hv, andb_false_r. cbn [andb]. now rewrite Hfalse.
  - intros f t rest Hnone Hcontent Htext Hnonempty.
    rewrite Hnone, Hcontent. cbn [first_text]. rewrite Htext.
    destruct (startswith (strip t) (lit "{")).
    + rewrite andb_false_r. cbn [andb truthy]. reflexivity.
    + rewrite andb_false_r. cbn [andb truthy].
      destruct t; [congruence|reflexivity].
Qed.
End Branches.

(** X7 on a ping that comes under the name [endpoint]. *)
Lemma ping_is_only_kept_alive_witness :
  @flush_and_emit reference_runtime sample_closure accepting_post initial_session
    [lit "event: endpoint"; qlit "data: {'method':'ping','endpoint':'/open/message'}"]
  = returns [Yield PING_CHUNK] initial_session.
Proof.
  refine (proj1 (@ping_is_only_kept_alive reference_runtime sample_closure
                   accepting_post initial_session
                   [lit "event: endpoint";
                    qlit "data: {'method':'ping','endpoint':'/open/message'}"]
                   _ _ _ _));
    vm_compute; (reflexivity || discriminate).
Defined.

(** X8 on a handshake whose POST is refused, with more of the upstream
    behind it. *)
Lemma failed_trigger_ends_session_witness :
  trace (@read_loop reference_runtime sample_closure refusing_post
           initial_session []
           ([blit "event: endpoint"; blit "data: /open/message?sessionId=a"]
            ++ [] :: [blit "data: https://x.test/a.pptx"; []]))
  = [Post (text_of (Some (lit "https://api.skywork.ai/open/message?sessionId=a")))
       (make_payload sample_closure
          (context (set_handshake initial_session
                      (Some (lit "https://api.skywork.ai/open/message?sessionId=a"))
                      [(lit "sessionId", JString (lit "a"))])));
     Yield (error_chunk (lit "tools/call failed: "
                         ++ @exn_str reference_runtime (LibraryError (lit "refused"))));
     Yield DONE_CHUNK].
Proof.
  refine (proj2 (proj2
            (@failed_trigger_ends_session reference_runtime sample_closure
               refusing_post initial_session
               [lit "event: endpoint"; lit "data: /open/message?sessionId=a"]
               (Some (lit "https://api.skywork.ai/open/message?sessionId=a"))
               [(lit "sessionId", JString (lit "a"))]
               (LibraryError (lit "refused")) _ _ _ _ _ _))
            [blit "event: endpoint"; blit "data: /open/message?sessionId=a"]
            [blit "data: https://x.test/a.pptx"; []] _ _);
    try (vm_compute; reflexivity).
  repeat constructor; discriminate.
Defined.

(** X9 on an object whose endpoint is a number. *)
Lemma endpoint_parser_edges_witness :
  @_endpoint_and_context_from_data reference_runtime (qlit "{'endpoint': 5}")
  = Raise (AttributeError (lit "startswith")).
Proof.
  refine (proj2 (proj2 (proj2 (@endpoint_parser_edges reference_runtime)))
            (qlit "{'endpoint': 5}") [(lit "endpoint", JInt 5)] _ _ _ _);
    vm_compute; reflexivity.
Defined.

(** X10 on the same payload in a handshake record, with a record that
    carries a URL behind it. *)
Lemma unparsable_handshake_ends_session_witness :
  trace (@event_stream reference_runtime sample_closure
           (upstream_ending
              ([blit "event: endpoint"; qblit "data: {'endpoint': 5}"]
               ++ [] :: [blit "data: https://x.test/a.pptx"; []])
              CleanClose accepting_post))
  = [Yield (error_chunk (@exn_str reference_runtime
                           (AttributeError (lit "startswith"))));
     Yield DONE_CHUNK].
Proof.
  refine (@unparsable_handshake_ends_session reference_runtime sample_closure
            accepting_post
            [lit "event: endpoint"; qlit "data: {'endpoint': 5}"]
            (AttributeError (lit "startswith"))
            [blit "event: endpoint"; qblit "data: {'endpoint': 5}"]
            [blit "data: https://x.test/a.pptx"; []] CleanClose _ _ _ _);
    try (vm_compute; reflexivity).
  repeat constructor; discriminate.
Defined.

(** X11 on a handshake that says [soon]. *)
Lemma raw_endpoint_is_posted_witness :
  exists payload,
    posts (acts (@flush_and_emit reference_runtime sample_closure accepting_post
                   initial_session [lit "event: endpoint"; lit "data: soon"]))
    = [(payload_of [lit "event: endpoint"; lit "data: soon"], payload)].
Proof.
  refine (@raw_endpoint_is_posted reference_runtime sample_closure accepting_post
            initial_session [lit "event: endpoint"; lit "data: soon"]
            _ _ _ _ _ _ _);
    vm_compute; (reflexivity || discriminate).
Defined.

(** X12 on a text of two hundred letters. *)
Lemma plain_text_is_logged_when_short_witness :
  @flush_and_emit reference_runtime sample_closure accepting_post initial_session
    [lit "data: " ++ repeat 120%N 200]
  = returns
      (if (List.length (payload_of [lit "data: " ++ repeat 120%N 200]) <? 200)%nat
       then [Yield (log_chunk (payload_of [lit "data: " ++ repeat 120%N 200]))]
       else [])
      initial_session.
Proof.
  refine (@plain_text_is_logged_when_short reference_runtime sample_closure
            accepting_post initial_session [lit "data: " ++ repeat 120%N 200]
            _ _ _ _ _ _ _);
    vm_compute; (reflexivity || discriminate).
Defined.

(** X13 on an object that has both members. *)
Lemma object_message_is_logged_witness :
  @flush_and_emit reference_runtime sample_closure accepting_post initial_session
    [qlit "data: {'message':'step 1','content':[{'text':'other'}]}"]
  = returns [Yield (log_chunk (lit "step 1"))] initial_session.
Proof.
  refine (proj1
            (@object_message_is_logged reference_runtime sample_closure
               accepting_post initial_session
               [qlit "data: {'message':'step 1','content':[{'text':'other'}]}"]
               [(lit "message", JString (lit "step 1"));
                (lit "content",
                 JArray [JObject [(lit "text", JString (lit "other"))]])]
               _ _ _ _ _ _ _ _)
            (lit "step 1") _ _);
    vm_compute; (reflexivity || discriminate).
Defined.

(** ** Records and framing *)

Section Framing.
Context {rt : PyRuntime}.
Variable cl : Closure.
Variable post : str -> ToolCall -> option PyExn.

(** X14: a line that opens with neither [event:] nor [data:] (a comment,
    an [id:] or [retry:] field, a line that was all white space) changes
    nothing: the record has the same name and payload with or without it,
    and [flush_and_emit] does the same. *)
Theorem other_lines_are_ignored (before later : list str) (ln : str) :
  startswith ln (lit "event:") = false ->
  startswith ln (lit "data:") = false ->
  record_name (before ++ ln :: later) = record_name (before ++ later) /\
  payload_of (before ++ ln :: later) = payload_of (before ++ later) /\
  forall st,
    flush_and_emit cl post st (before ++ ln :: later)
    = flush_and_emit cl post st (before ++ later).
Proof.
  intros Hevent Hdata.
  assert (Hname : record_name (before ++ ln :: later) = record_name (before ++ later)).
  { unfold record_name. rewrite !assemble_fields. cbn [fst].
    rewrite !filter_app. cbn [filter]. unfold is_event_line at 2.
    now rewrite Hevent. }
  assert (Hpayload : payload_of (before ++ ln :: later) = payload_of (before ++ later)).
  { unfold payload_of. rewrite !assemble_fields. cbn [snd].
    rewrite !filter_app. cbn [filter]. unfold is_data_line at 2.
    now rewrite Hdata, andb_false_r. }
  split; [exact Hname|]. split; [exact Hpayload|].
  intros st. unfold flush_and_emit. rewrite Hname, Hpayload.
  destruct (before ++ later) as [|x l] eqn:Hrest.
  - apply app_eq_nil in Hrest as [-> ->]. cbn [app].
    change (payload_of []) with (@nil N). now destruct (sent_done st).
  - destruct (before ++ ln :: later) eqn:Hfull; [|reflexivity].
    apply app_eq_nil in Hfull as [_ Hfull]. discriminate.
Qed.

Lemma read_loop_tail (tail : list bytes) :
  Forall (fun raw_line => is_blank raw_line = false) tail ->
  forall lines st buffer,
    let r1 := read_loop cl post st buffer (lines ++ tail) in
    let r2 := read_loop cl post st buffer lines in
    trace r1 = trace r2 /\ history r1 = history r2 /\ final r1 = final r2 /\
    same_end (exit r1) (exit r2).
Proof.
  intros Htail. induction lines as [|raw_line rest IH]; intros st buffer; cbv zeta.
  - cbn [app]. destruct (sent_done st) eqn:Hlive.
    + destruct tail; cbn [read_loop]; [|rewrite Hlive]; cbn; auto.
    + pose proof (read_loop_buffers cl post st tail Hlive Htail buffer []) as H.
      rewrite app_nil_r in H. rewrite H. cbn. auto.
  - cbn [app read_loop]. destruct (sent_done st); [cbn; auto|].
    destruct (is_blank raw_line).
    + destruct (raised (flush_and_emit cl post st buffer)) as [e|]; [cbn; auto|].
      destruct (IH (after (flush_and_emit cl post st buffer)) [])
        as (Ht & Hh & Hf & He).
      unfold run_then. cbn [trace history final exit]. now rewrite Ht, Hh, Hf.
    + destruct (_safe_decode raw_line); [apply IH|cbn; auto].
Qed.

(** X15: a record that no blank line closes before the upstream ends is
    never processed.  Lines without a blank one among them, appended to an
    upstream that closes cleanly, change nothing of what the client is
    sent, whatever they carry. *)
Theorem unterminated_record_is_dropped (lines tail : list bytes) :
  Forall (fun raw_line => is_blank raw_line = false) tail ->
  trace (event_stream cl (upstream_ending (lines ++ tail) CleanClose post))
  = trace (event_stream cl (upstream_ending lines CleanClose post)).
Proof.
  intros Htail. unfold event_stream, upstream_ending.
  cbn [requests_get requests_post].
  change (negb (200 =? 200)%Z) with false. cbv iota zeta.
  destruct (read_loop_tail tail Htail lines initial_session [])
    as (Ht & Hh & Hf & He).
  set (r1 := read_loop cl post initial_session [] (lines ++ tail)) in *.
  set (r2 := read_loop cl post initial_session [] lines) in *.
  destruct (exit r1) as [| |e1], (exit r2) as [| |e2]; cbn in He;
    try contradiction; subst; cbn [trace]; rewrite ?Ht, ?Hf;
    try reflexivity;
    destruct (on_close (final r2)); cbn [trace]; now rewrite ?Ht.
Qed.
End Framing.

(** X14 on an [id:] line between the name and the data. *)
Lemma other_lines_are_ignored_witness :
  @flush_and_emit reference_runtime sample_closure accepting_post initial_session
    ([lit "event: progress"] ++ lit "id: 7" :: [lit "data: working"])
  = @flush_and_emit reference_runtime sample_closure accepting_post initial_session
      ([lit "event: progress"] ++ [lit "data: working"]).
Proof.
  refine (proj2 (proj2
            (@other_lines_are_ignored reference_runtime sample_closure
               accepting_post [lit "event: progress"] [lit "data: working"]
               (lit "id: 7") _ _))
            initial_session);
    vm_compute; reflexivity.
Defined.

(** X15 on a download link that no blank line follows. *)
Lemma unterminated_record_is_dropped_witness :
  trace (@event_stream reference_runtime sample_closure
           (upstream_ending
              ([blit "data: working"; []] ++ [blit "data: https://x.test/a.pptx"])
              CleanClose accepting_post))
  = trace (@event_stream reference_runtime sample_closure
             (upstream_ending [blit "data: working"; []] CleanClose
                accepting_post)).
Proof.
  refine (@unterminated_record_is_dropped reference_runtime sample_closure
            accepting_post [blit "data: working"; []]
            [blit "data: https://x.test/a.pptx"] _).
  repeat constructor; discriminate.
Defined.

(** ** What reaches the client *)

Lemma after_done_quiet (a t : list Action) :
  dones a = [] -> after_done (a ++ t) = after_done t.
Proof.
  induction a as [|[chunk|url payload] a IH]; cbn [app dones after_done]; auto.
  destruct (is_done_chunk chunk); [discriminate|auto].
Qed.

Lemma after_done_none (t u : list Action) :
  after_done t = None -> after_done (t ++ u) = after_done u.
Proof.
  induction t as [|[chunk|url payload] t IH]; cbn [app after_done]; auto.
  destruct (is_done_chunk chunk); [discriminate|auto].
Qed.

Lemma after_done_some (t u rest : list Action) :
  after_done t = Some rest -> after_done (t ++ u) = Some (rest ++ u).
Proof.
  induction t as [|[chunk|url payload] t IH]; cbn [app after_done];
    try discriminate; auto.
  destruct (is_done_chunk chunk); [|auto]. now intros [= ->].
Qed.

Lemma error_is_not_done (msg : str) : is_done_chunk (error_chunk msg) = false.
Proof. reflexivity. Qed.

Lemma log_is_not_done (msg : str) : is_done_chunk (log_chunk msg) = false.
Proof. reflexivity. Qed.

Lemma done_is_done (payload : str) :
  is_done_chunk (event_chunk (lit "done") payload) = true.
Proof. reflexivity. Qed.

Section Downstream.
Context {rt : PyRuntime}.
Variable cl : Closure.

(** After the [done] event a run of the read loop holds nothing, or the
    end-of-file comment, and it did not stop by an exception. *)
Lemma read_loop_after_done (post : str -> ToolCall -> option PyExn)
    (lines : list bytes) (st : Session) (buffer : list str) :
  sent_done st = false ->
  let r := read_loop cl post st buffer lines in
  (sent_done (final r) = false /\ after_done (trace r) = None) \/
  (sent_done (final r) = true /\ (forall e, exit r <> Threw e) /\
   (after_done (trace r) = Some [] \/
    after_done (trace r) = Some [Yield EOF_CHUNK])).
Proof.
  cbv zeta. revert lines st buffer.
  assert (Hstop : forall st lines, sent_done st = true ->
            forall e, exit (read_loop cl post st [] lines) <> Threw e).
  { intros st lines Hdone e. destruct lines; cbn [read_loop];
      [|rewrite Hdone]; discriminate. }
  apply (read_loop_cases cl post
    (fun st buffer lines r =>
       sent_done st = false ->
       (sent_done (final r) = false /\ after_done (trace r) = None) \/
       (sent_done (final r) = true /\ (forall e, exit r <> Threw e) /\
        (after_done (trace r) = Some [] \/
         after_done (trace r) = Some [Yield EOF_CHUNK])))).
  - intros st buffer Hlive. left. auto.
  - intros st buffer raw_line rest Hdone Hlive. congruence.
  - intros st buffer raw_line rest _ _ IH Hlive. now apply IH.
  - intros st buffer rest s _ Hout Hraised IH Hlive.
    unfold run_then. cbn [trace final exit].
    destruct Hout; cbn [returns acts after] in *; try discriminate.
    + rewrite after_done_quiet by assumption. now apply IH.
    + destruct (read_loop_when_done cl post (set_sent_done st) [] rest eq_refl)
        as (Ht & _ & Hf).
      rewrite Ht, Hf. right. split; [reflexivity|].
      split; [now apply Hstop|]. right. reflexivity.
    + destruct (read_loop_when_done cl post (set_sent_done st) [] rest eq_refl)
        as (Ht & _ & Hf).
      rewrite Ht, Hf. right. split; [reflexivity|].
      split; [now apply Hstop|]. left. reflexivity.
    + cbn [app]. now apply IH.
    + destruct (read_loop_when_done cl post
                  (set_sent_done (set_handshake st e ctx)) [] rest eq_refl)
        as (Ht & _ & Hf).
      rewrite Ht, Hf. right. split; [reflexivity|].
      split; [now apply Hstop|]. left. reflexivity.
    + rewrite after_done_quiet by reflexivity. now apply IH.
  - intros st buffer rest e Hlive _. left. auto.
Qed.

(** X16: the [done] event closes the stream.  In every session what the
    client is sent after it is nothing, or the end-of-file comment alone;
    one error event can still follow, and only when reading the upstream
    raises after the session is done. *)
Theorem done_closes_the_stream (w : World) :
  exists rest,
    after_done (trace (event_stream cl w)) = Some rest /\
    (rest = [] \/ rest = [Yield EOF_CHUNK] \/
     exists status_code text lines e,
       requests_get w = Response status_code text lines (ReadRaises e) /\
       (rest = [Yield (error_chunk (exn_str e))] \/
        rest = [Yield EOF_CHUNK; Yield (error_chunk (exn_str e))])).
Proof.
  unfold event_stream.
  destruct (requests_get w) as [e|status_code text lines ending].
  - exists []. split; [reflexivity|now left].
  - destruct (negb (status_code =? 200)%Z).
    + destruct text as [body|e]; exists []; (split; [reflexivity|now left]).
    + cbv zeta.
      pose proof (read_loop_after_done (requests_post w) lines initial_session []
                    eq_refl) as H.
      cbv zeta in H.
      set (r := read_loop cl (requests_post w) initial_session [] lines) in *.
      destruct H as [[Hlive Hnone]|(Hdone & Hexit & Hrest)].
      * exists [].
        assert (Hclosed : after_done (trace r ++ fst (on_close (final r))) = Some []).
        { unfold on_close. rewrite Hlive. cbn [fst].
          now rewrite after_done_none by assumption. }
        assert (Hfailed : forall e,
                   after_done (trace r ++ on_exception (final r) e) = Some []).
        { intros e. unfold on_exception. rewrite Hlive.
          now rewrite after_done_none by assumption. }
        split; [|now left].
        destruct (exit r) as [| |e]; [destruct ending as [|e]| |];
          cbn [trace]; auto;
          destruct (on_close (final r)); exact Hclosed.
      * assert (Hclosed : on_close (final r) = ([], final r))
          by (unfold on_close; now rewrite Hdone).
        assert (Hfailed : forall e,
                   on_exception (final r) e = [Yield (error_chunk (exn_str e))])
          by (intros e; unfold on_exception; now rewrite Hdone).
        destruct (exit r) as [| |e] eqn:Hex; [destruct ending as [|e]| |].
        -- rewrite Hclosed. cbn [trace]. rewrite app_nil_r.
           destruct Hrest as [Hr|Hr]; rewrite Hr; eexists; split; eauto.
        -- cbn [trace]. rewrite Hfailed.
           destruct Hrest as [Hr|Hr];
             rewrite (after_done_some _ _ _ Hr); eexists; (split; [reflexivity|]);
             right; right; exists status_code, text, lines, e;
             (split; [reflexivity|]); cbn [app]; auto.
        -- rewrite Hclosed. cbn [trace]. rewrite app_nil_r.
           destruct Hrest as [Hr|Hr]; rewrite Hr; eexists; split; eauto.
        -- now elim (Hexit e).
Qed.

Lemma log_is_downstream (msg : str) : is_downstream_chunk (log_chunk msg).
Proof. right. exists (lit "log"), msg. auto. Qed.

Lemma error_is_downstream (msg : str) : is_downstream_chunk (error_chunk msg).
Proof. right. exists (lit "error"), msg. auto. Qed.

Lemma done_is_downstream (payload : str) :
  is_downstream_chunk (event_chunk (lit "done") payload).
Proof. right. exists (lit "done"), payload. auto. Qed.

Lemma flush_chunks (post : str -> ToolCall -> option PyExn)
    (st : Session) (buf : list str) (chunk : str) :
  In (Yield chunk) (acts (flush_and_emit cl post st buf)) ->
  is_downstream_chunk chunk.
Proof.
  assert (Hone : forall c, is_downstream_chunk c ->
            In (Yield chunk) [Yield c] -> is_downstream_chunk chunk).
  { intros c Hc [[= <-]|[]]. exact Hc. }
  unfold flush_and_emit. destruct buf as [|ln buf]; [intros []|].
  destruct (sent_done st) eqn:Hlive; [intros []|].
  destruct (payload_of (ln :: buf)) as [|c data]; [intros []|].
  unfold dispatch.
  destruct (nonempty _).
  { cbn [returns acts]. intros [[= <-]|[[= <-]|[]]].
    - apply done_is_downstream.
    - now left. }
  cbv zeta. destruct (is_ping _).
  { cbn [returns acts]. apply Hone, log_is_downstream. }
  destruct (str_eqb _ _).
  { unfold handshake.
    destruct (_endpoint_and_context_from_data (c :: data)) as [[e ctx]|e];
      [|intros []].
    cbv zeta. destruct (negb _ && nonempty _); [|intros []].
    destruct (post _ _).
    - cbn [acts]. change (sent_done (set_handshake st e ctx)) with (sent_done st).
      rewrite Hlive. intros [[=]|[[= <-]|[[= <-]|[]]]].
      + apply error_is_downstream.
      + apply done_is_downstream.
    - cbn [returns acts]. intros [[=]|[[= <-]|[]]]. apply log_is_downstream. }
  destruct (contains _ _).
  { cbn [acts]. rewrite Hlive. intros [[= <-]|[[= <-]|[]]].
    - apply error_is_downstream.
    - apply done_is_downstream. }
  unfold passthrough. destruct (extract_log _) as [log_msg|e]; [|intros []].
  cbv zeta. destruct (truthy _); [|intros []].
  cbn [returns acts]. apply Hone, log_is_downstream.
Qed.

(** X17: the name of an upstream record never names a chunk.  Every
    chunk a session yields is the end-of-file comment, or is built as an
    event named [log], [error] or [done] around a payload. *)
Theorem only_three_event_names (w : World) (chunk : str) :
  In (Yield chunk) (trace (event_stream cl w)) -> is_downstream_chunk chunk.
Proof.
  assert (Hexn : forall st e,
            In (Yield chunk) (on_exception st e) -> is_downstream_chunk chunk).
  { intros st e. unfold on_exception.
    destruct (sent_done st); intros [[= <-]|H];
      try apply error_is_downstream; try contradiction.
    destruct H as [[= <-]|[]]. apply done_is_downstream. }
  assert (Hclose : forall st,
            In (Yield chunk) (fst (on_close st)) -> is_downstream_chunk chunk).
  { intros st. unfold on_close. destruct (sent_done st); [intros []|].
    intros [[= <-]|[]]. apply done_is_downstream. }
  assert (Hloop : forall post lines st buffer,
            In (Yield chunk) (trace (read_loop cl post st buffer lines)) ->
            is_downstream_chunk chunk).
  { intros post. induction lines as [|raw_line rest IH]; intros st buffer;
      cbn [read_loop]; [intros []|].
    destruct (sent_done st); [intros []|].
    destruct (is_blank raw_line).
    - pose proof (flush_chunks post st buffer chunk) as Hflush.
      destruct (raised (flush_and_emit cl post st buffer)); [exact Hflush|].
      unfold run_then. cbn [trace]. intros Hin.
      apply in_app_or in Hin as [Hin|Hin]; [auto|eapply IH; eauto].
    - destruct (_safe_decode raw_line); [apply IH|intros []]. }
  unfold event_stream.
  destruct (requests_get w) as [e|status_code text lines ending];
    [apply Hexn|].
  destruct (negb (status_code =? 200)%Z).
  { destruct text as [body|e]; [|apply Hexn].
    intros [[= <-]|[[= <-]|[]]].
    - apply error_is_downstream.
    - apply done_is_downstream. }
  cbv zeta.
  set (r := read_loop cl (requests_post w) initial_session [] lines).
  assert (Hclosed : In (Yield chunk) (trace r ++ fst (on_close (final r))) ->
                    is_downstream_chunk chunk).
  { intros Hin. apply in_app_or in Hin as [Hin|Hin];
      [eapply Hloop; eauto|eapply Hclose; eauto]. }
  assert (Hfailed : forall e,
             In (Yield chunk) (trace r ++ on_exception (final r) e) ->
             is_downstream_chunk chunk).
  { intros e Hin. apply in_app_or in Hin as [Hin|Hin];
      [eapply Hloop; eauto|eapply Hexn; eauto]. }
  destruct (exit r) as [| |e]; [destruct ending as [|e]| |];
    cbn [trace]; try apply Hfailed; destruct (on_close (final r)); exact Hclosed.
Qed.
End Downstream.

(** X17 on a record the upstream names [progress]. *)
Lemma only_three_event_names_witness :
  is_downstream_chunk (log_chunk (lit "working")).
Proof.
  refine (@only_three_event_names reference_runtime sample_closure
            (upstream_of [blit "event: progress"; blit "data: working"; []])
            (log_chunk (lit "working")) _).
  vm_compute. left. reflexivity.
Defined.

(** ** The request in the trigger *)

Section Request.
Context {rt : PyRuntime}.

Lemma read_loop_payloads (cl : Closure) (post : str -> ToolCall -> option PyExn)
    (lines : list bytes) (st : Session) (buffer : list str) :
  forall url payload,
    In (url, payload) (posts (trace (read_loop cl post st buffer lines))) ->
    exists ctx, payload = make_payload cl ctx.
Proof.
  revert lines st buffer.
  apply (read_loop_cases cl post
    (fun st buffer lines r =>
       forall url payload,
         In (url, payload) (posts (trace r)) ->
         exists ctx, payload = make_payload cl ctx));
    try (intros; cbn in *; contradiction); auto.
  intros st buffer rest s _ Hout _ IH url payload.
  unfold run_then. cbn [trace]. rewrite posts_app. intros Hin.
  apply in_app_or in Hin as [Hin|Hin]; [|eapply IH; eauto].
  destruct Hout; cbn [returns raises acts posts] in Hin;
    try contradiction;
    try (destruct Hin as [[= <- <-]|[]]; eexists; reflexivity).
  rewrite H0 in Hin. contradiction.
Qed.

(** X18: the request reaches the trigger.  The handler refuses exactly
    the server without credentials; in every session of the stream it
    builds otherwise, a POST carries the query [build_query] made of the
    request, the tool and the export extension of the request's mode, the
    network flag as lower-case text, and the credentials. *)
Theorem request_reaches_trigger (md5_hexdigest : str -> str) (env : Environ)
    (req : MakeDeckReq) :
  (make_deck_stream md5_hexdigest env req = None <->
   SKY_ID env = [] \/ SKY_KEY env = []) /\
  (forall cl w url payload,
      make_deck_stream md5_hexdigest env req = Some cl ->
      In (url, payload) (posts (trace (event_stream cl w))) ->
      tc_query payload = build_query req /\
      tc_name payload = match mode req with
                        | ppt => lit "gen_ppt"
                        | ppt_fast => lit "gen_ppt_fast"
                        | doc => lit "gen_doc"
                        | excel => lit "gen_excel"
                        end /\
      tc_export payload = match mode req with
                          | ppt | ppt_fast => lit "pptx"
                          | doc => lit "docx"
                          | excel => lit "xlsx"
                          end /\
      tc_use_network payload
      = (if use_network req then lit "true" else lit "false") /\
      tc_secret_id payload = SKY_ID env /\
      tc_sign payload = sky_sign md5_hexdigest (SKY_ID env) (SKY_KEY env)).
Proof.
  split.
  - unfold make_deck_stream.
    destruct (SKY_ID env), (SKY_KEY env); split; auto; try discriminate;
      intros [H|H]; discriminate.
  - intros cl w url payload Hcl Hin.
    assert (Hpayload : exists ctx, payload = make_payload cl ctx).
    { revert Hin. unfold event_stream.
      destruct (requests_get w) as [e|status_code text lines ending].
      { cbn [trace]. now rewrite on_exception_posts. }
      destruct (negb (status_code =? 200)%Z).
      { destruct text as [body|e]; cbn [trace];
          [intros []|now rewrite on_exception_posts]. }
      cbv zeta.
      set (r := read_loop cl (requests_post w) initial_session [] lines).
      assert (Hclosed : In (url, payload)
                          (posts (trace r ++ fst (on_close (final r)))) ->
                        exists ctx, payload = make_payload cl ctx).
      { rewrite posts_app, on_close_posts, app_nil_r.
        apply read_loop_payloads. }
      assert (Hfailed : forall e,
                 In (url, payload)
                   (posts (trace r ++ on_exception (final r) e)) ->
                 exists ctx, payload = make_payload cl ctx).
      { intros e. rewrite posts_app, on_exception_posts, app_nil_r.
        apply read_loop_payloads. }
      destruct (exit r) as [| |e]; [destruct ending as [|e]| |];
        cbn [trace]; try apply Hfailed;
        destruct (on_close (final r)); exact Hclosed. }
    destruct Hpayload as [ctx ->]. unfold make_deck_stream in Hcl.
    destruct (SKY_ID env) as [|c0 id] eqn:Hid; [discriminate|].
    destruct (SKY_KEY env) as [|c1 key] eqn:Hkey; [discriminate|].
    injection Hcl as <-. cbn [make_payload tc_query tc_name tc_export
      tc_use_network tc_secret_id tc_sign query_text tool_name export_ext
      use_network_text secret_id sign].
    repeat split; now destruct (mode req).
Qed.
End Request.

(** X18 on a request for a document. *)
Lemma request_reaches_trigger_witness :
  tc_name (make_payload
             {| query_text := build_query sample_request;
                use_network_text := lit "true";
                tool_name := lit "gen_doc"; export_ext := lit "docx";
                secret_id := lit "id"; sign := lit "00";
                exts := default_exts |}
             [(lit "sessionId", JString (lit "a"))])
  = lit "gen_doc".
Proof.
  destruct (proj2 (@request_reaches_trigger reference_runtime
                     (fun _ => lit "00") sample_environ sample_request)
              {| query_text := build_query sample_request;
                 use_network_text := lit "true";
                 tool_name := lit "gen_doc"; export_ext := lit "docx";
                 secret_id := lit "id"; sign := lit "00";
                 exts := default_exts |}
              (upstream_of
                 [blit "event: endpoint"; blit "data: /open/message?sessionId=a"; []])
              (lit "https://api.skywork.ai/open/message?sessionId=a")
              (make_payload
                 {| query_text := build_query sample_request;
                    use_network_text := lit "true";
                    tool_name := lit "gen_doc"; export_ext := lit "docx";
                    secret_id := lit "id"; sign := lit "00";
                    exts := default_exts |}
                 [(lit "sessionId", JString (lit "a"))]))
    as (_ & Hname & _).
  - vm_compute. reflexivity.
  - vm_compute. left. reflexivity.
  - exact Hname.
Defined.

(** ** The link that is reported *)

Lemma replace_go_prefix (old : str) (a : N) (p : str) :
  ~ In a p ->
  forall s, startswith (replace_go old [a] 0 s) p = true -> startswith s p = true.
Proof.
  induction p as [|x p IH]; intros Hnotin s; [reflexivity|].
  destruct s as [|c rest]; cbn [replace_go]; [auto|].
  destruct (startswith (c :: rest) old).
  - cbn [app startswith]. intros H. apply andb_prop in H as [H _].
    apply N.eqb_eq in H. elim Hnotin. now left.
  - cbn [startswith]. intros H. apply andb_prop in H as [Hx Hp].
    rewrite Hx. cbn [andb]. apply IH; [|exact Hp].
    intros Hin. apply Hnotin. now right.
Qed.

Lemma replace_go_clean (old : str) (a : N) :
  old <> [] -> ~ In a old ->
  forall s skip, contains (replace_go old [a] skip s) old = false.
Proof.
  intros Hne Hnotin. induction s as [|c rest IH]; intros skip.
  - cbn [replace_go contains]. destruct old; [congruence|reflexivity].
  - cbn [replace_go]. destruct skip as [|k]; [|apply IH].
    destruct (startswith (c :: rest) old) eqn:Hmatch.
    + cbn [app contains]. rewrite IH, orb_false_r.
      destruct old as [|x old]; [congruence|]. cbn [startswith].
      destruct (N.eqb_spec x a) as [->|]; [|reflexivity].
      elim Hnotin. now left.
    + cbn [contains]. rewrite IH, orb_false_r.
      destruct (startswith (c :: replace_go old [a] 0 rest) old) eqn:Hres;
        [|reflexivity].
      assert (Hsame : replace_go old [a] 0 (c :: rest)
                      = c :: replace_go old [a] 0 rest)
        by (cbn [replace_go]; now rewrite Hmatch).
      rewrite <- Hsame in Hres.
      apply (replace_go_prefix old a old Hnotin) in Hres. congruence.
Qed.

Lemma replace_go_same (old new : str) (x : N) (tail : str) :
  old = x :: tail ->
  forall s, ~ In x s -> replace_go old new 0 s = s.
Proof.
  intros ->. induction s as [|c rest IH]; intros Hnotin; [reflexivity|].
  cbn [replace_go startswith].
  destruct (N.eqb_spec x c) as [->|_]; [elim Hnotin; now left|].
  cbn [andb]. rewrite IH; [reflexivity|].
  intros Hin. apply Hnotin. now right.
Qed.

Section Link.
Context {rt : PyRuntime}.
Variable cl : Closure.
Variable post : str -> ToolCall -> option PyExn.

(** X19: the link a session reports never holds the escaped ampersand.
    A record whose payload has a match yields the [done] event whose data
    is the JSON object with [download_url], then the end-of-file comment;
    the link in it is one of the matches with every backslash-u0026
    written as an ampersand, so it contains no such escape, and it is the
    match itself when the match holds no backslash. *)
Theorem reported_link_is_unescaped (st : Session) (buf : list str) :
  sent_done st = false ->
  URL_RE_findall (payload_of buf) <> [] ->
  exists best link,
    In best (URL_RE_findall (payload_of buf)) /\
    ampersands_restored best link /\
    acts (flush_and_emit cl post st buf)
    = [Yield (lit "event: done" ++ [nl] ++ lit "data: "
              ++ dumps_download_url link ++ [nl; nl]);
       Yield (lit ": EOF" ++ [nl; nl])] /\
    Reference.loads (dumps_download_url link)
    = Some (JObject [(lit "download_url", JString link)]) /\
    contains link (lit "\" ++ lit "u0026") = false /\
    (~ In 92%N best -> link = best).
Proof.
  intros Hlive Hfound.
  destruct (flush_url_branch cl post st buf Hlive Hfound)
    as (best & Hin & _ & Hflush).
  exists best, (replace ESCAPED_AMP (lit "&") best).
  split; [exact Hin|]. split; [apply ampersands_restored_replace|].
  split; [rewrite Hflush, done_url_chunk_text; reflexivity|].
  split; [apply download_url_round_trip|]. split.
  - apply (replace_go_clean (lit "\" ++ lit "u0026") 38%N);
      [discriminate|cbv; intuition discriminate].
  - apply (replace_go_same ESCAPED_AMP (lit "&") 92%N (lit "u0026")).
    reflexivity.
Qed.
End Link.

(** X19 on a link whose ampersand came escaped. *)
Lemma reported_link_is_unescaped_witness :
  exists best link,
    In best (URL_RE_findall
               (payload_of [lit "data: https://x.test/a.pptx?x=1" ++ ESCAPED_AMP
                            ++ lit "token=t"])) /\
    ampersands_restored best link /\
    acts (@flush_and_emit reference_runtime sample_closure accepting_post
            initial_session
            [lit "data: https://x.test/a.pptx?x=1" ++ ESCAPED_AMP ++ lit "token=t"])
    = [Yield (lit "event: done" ++ [nl] ++ lit "data: "
              ++ dumps_download_url link ++ [nl; nl]);
       Yield (lit ": EOF" ++ [nl; nl])] /\
    Reference.loads (dumps_download_url link)
    = Some (JObject [(lit "download_url", JString link)]) /\
    contains link (lit "\" ++ lit "u0026") = false /\
    (~ In 92%N best -> link = best).
Proof.
  refine (@reported_link_is_unescaped reference_runtime sample_closure
            accepting_post initial_session
            [lit "data: https://x.test/a.pptx?x=1" ++ ESCAPED_AMP ++ lit "token=t"]
            _ _);
    vm_compute; (reflexivity || discriminate).
Defined.

(** ** The context of a session *)

Lemma dict_set_key {V} (d : dict V) (k k' : str) (v : V) :
  In k' (map fst (dict_set d k v)) -> k' = k \/ In k' (map fst d).
Proof.
  induction d as [|[k0 v0] d IH]; cbn [dict_set map fst In].
  - intros [<-|[]]. now left.
  - destruct (str_eqb k0 k); cbn [map fst In]; [tauto|].
    intros [<-|H]; [tauto|]. apply IH in H. tauto.
Qed.

Lemma dict_set_distinct {V} (d : dict V) (k : str) (v : V) :
  distinct_keys d -> distinct_keys (dict_set d k v).
Proof.
  unfold distinct_keys. induction d as [|[k0 v0] d IH]; cbn [dict_set map fst].
  - intros _. repeat constructor. intros [].
  - intros Hd. inversion Hd as [|? ? Hnotin Hrest]; subst.
    destruct (str_eqb k0 k) eqn:E; cbn [map fst]; [exact Hd|].
    constructor; [|now apply IH].
    intros Hin. apply dict_set_key in Hin as [->|Hin]; [|contradiction].
    now rewrite str_eqb_refl in E.
Qed.

Lemma dict_update_distinct {V} (other d : dict V) :
  distinct_keys d -> distinct_keys (dict_update d other).
Proof.
  unfold dict_update. revert d.
  induction other as [|[k v] other IH]; intros d Hd; [exact Hd|].
  cbn [fold_left fst snd]. apply IH. now apply dict_set_distinct.
Qed.

Lemma dict_update_get {V} (other d : dict V) (k : str) :
  distinct_keys other -> dict_get (dict_update d other) k = merged d other k.
Proof.
  unfold dict_update, merged, distinct_keys. revert d.
  induction other as [|[k0 v0] other IH]; intros d Hother; [reflexivity|].
  inversion Hother as [|? ? Hnotin Hrest]; subst.
  cbn [fold_left fst snd dict_get]. rewrite IH by assumption.
  destruct (str_eqb k0 k) eqn:E.
  - apply str_eqb_eq in E. subst k0.
    assert (dict_get other k = None) as ->.
    { clear -Hnotin. induction other as [|[k1 v1] other IH]; [reflexivity|].
      cbn [dict_get]. destruct (str_eqb k1 k) eqn:E.
      - apply str_eqb_eq in E. subst k1. elim Hnotin. now left.
      - apply IH. intros Hin. apply Hnotin. now right. }
    apply dict_get_set_same.
  - destruct (dict_get other k); [reflexivity|].
    apply dict_get_set_other. intros ->. now rewrite str_eqb_refl in E.
Qed.

Section Merge.
Context {rt : PyRuntime}.
Variable cl : Closure.
Variable post : str -> ToolCall -> option PyExn.

Lemma query_fields_distinct (q : dict (list str)) (ctx : dict JSON) :
  distinct_keys ctx -> distinct_keys (query_fields q ctx).
Proof.
  unfold query_fields. generalize query_keys. intros keys. revert ctx.
  induction keys as [|k keys IH]; intros ctx Hctx; [exact Hctx|].
  cbn [fold_left]. apply IH.
  destruct (dict_get q k) as [[|v vs]|]; auto. now apply dict_set_distinct.
Qed.

Lemma meta_keys_distinct (meta : dict JSON) (keys : list str) (ctx : dict JSON) :
  distinct_keys ctx ->
  distinct_keys
    (fold_left
       (fun ctx k =>
          match dict_get meta k with
          | Some v => dict_set ctx k v
          | None => ctx
          end)
       keys ctx).
Proof.
  revert ctx. induction keys as [|k keys IH]; intros ctx Hctx; [exact Hctx|].
  cbn [fold_left]. apply IH.
  destruct (dict_get meta k); auto. now apply dict_set_distinct.
Qed.

Lemma meta_fields_distinct (meta : dict JSON) :
  distinct_keys (snd (meta_fields meta [])).
Proof.
  unfold meta_fields. cbn [snd]. apply meta_keys_distinct.
  destruct (json_get meta (lit "context")); try constructor.
  apply dict_update_distinct. constructor.
Qed.

Lemma parsed_context_distinct (data : str) (e : option str) (ctx : dict JSON) :
  _endpoint_and_context_from_data data = Ok (e, ctx) -> distinct_keys ctx.
Proof.
  assert (Htail : forall (endpoint : JSON) (ctx0 : dict JSON),
            distinct_keys ctx0 ->
            (if negb (truthy endpoint) then Ok (None, ctx0)
             else
               match endpoint with
               | JString e0 =>
                   match (if startswith e0 (lit "/")
                          then urljoin BASE_ORIGIN e0 else Ok e0) with
                   | Raise ex => Raise ex
                   | Ok e' =>
                       Ok (Some e',
                           match url_query_params e' with
                           | Ok q => query_fields q ctx0
                           | Raise _ => ctx0
                           end)
                   end
               | _ => Raise (AttributeError (lit "startswith"))
               end) = Ok (e, ctx) ->
            distinct_keys ctx).
  { intros endpoint ctx0 Hfound.
    destruct (negb (truthy endpoint)); [now intros [= <- <-]|].
    destruct endpoint as [| | | |s| |]; try discriminate.
    destruct (if startswith s (lit "/") then urljoin BASE_ORIGIN s else Ok s)
      as [e'|ex]; [|discriminate].
    intros [= <- <-].
    destruct (url_query_params e');
      [now apply query_fields_distinct|exact Hfound]. }
  unfold _endpoint_and_context_from_data. cbv zeta.
  destruct (startswith data (lit "{"));
    [destruct (json_loads data) as [[]|]|];
    try (apply (Htail (JString data) []); constructor).
  match goal with
  | |- context [meta_fields ?meta []] =>
      pose proof (meta_fields_distinct meta) as Hmeta;
      destruct (meta_fields meta []) as [endpoint ctx0]
  end.
  now apply (Htail endpoint ctx0).
Qed.

(** X20: a handshake adds to the context of the session, it does not
    replace it.  After a handshake record is parsed, every key the parsed
    context holds has its new value and every other key keeps the value the
    session had; the context a POST of that record carries is this merged
    one, left out when it is empty. *)
Theorem handshake_merges_context (st : Session) (buf : list str)
    (e : option str) (ctx : dict JSON) :
  sent_done st = false ->
  is_handshake buf = true ->
  _endpoint_and_context_from_data (payload_of buf) = Ok (e, ctx) ->
  let s := flush_and_emit cl post st buf in
  (forall k, dict_get (context (after s)) k = merged (context st) ctx k) /\
  (forall url payload,
      In (url, payload) (posts (acts s)) ->
      tc_context payload
      = match context (after s) with [] => None | c => Some c end).
Proof.
  intros Hlive Hhs Hparse. cbv zeta.
  rewrite flush_handshake by assumption. unfold handshake. rewrite Hparse.
  cbv zeta.
  assert (Hmerged : forall k,
             dict_get (context (set_handshake st e ctx)) k
             = merged (context st) ctx k).
  { intros k. cbn [set_handshake context].
    pose proof (parsed_context_distinct _ _ _ Hparse) as Hdistinct.
    destruct ctx as [|kv rest]; [reflexivity|].
    now apply dict_update_get. }
  change (sent_done (set_handshake st e ctx)) with (sent_done st).
  rewrite Hlive.
  destruct (negb (called (set_handshake st e ctx))
            && nonempty (endpoint_url (set_handshake st e ctx))).
  - destruct (post _ _); cbn [acts after returns posts app];
      (split; [exact Hmerged|]);
      intros url payload [[= <- <-]|[]];
      cbn [tc_context make_payload context set_sent_done set_called
           set_handshake];
      match goal with
      | |- match ?c with [] => _ | _ => _ end = _ => now destruct c
      end.
  - cbn [acts after returns posts]. split; [exact Hmerged|intros ? ? []].
Qed.
End Merge.

(** X20 on a second handshake that renames the session and says nothing
    of the room. *)
Lemma handshake_merges_context_witness :
  dict_get
    (context (after (@flush_and_emit reference_runtime sample_closure
                       accepting_post named_session
                       [lit "event: endpoint";
                        lit "data: /open/message?sessionId=b"])))
    (lit "room")
  = merged (context named_session) [(lit "sessionId", JString (lit "b"))]
      (lit "room").
Proof.
  refine (proj1
            (@handshake_merges_context reference_runtime sample_closure
               accepting_post named_session
               [lit "event: endpoint"; lit "data: /open/message?sessionId=b"]
               (Some (lit "https://api.skywork.ai/open/message?sessionId=b"))
               [(lit "sessionId", JString (lit "b"))] _ _ _)
            (lit "room"));
    vm_compute; reflexivity.
Defined.

(** ** The preference list *)

Lemma split_not_nil (sep : N) (s : str) : split sep s <> [].
Proof.
  destruct s as [|c rest]; cbn [split]; [discriminate|].
  destruct (N.eqb c sep); [discriminate|].
  destruct (split sep rest); discriminate.
Qed.

Lemma join_split (sep : N) (s : str) : join_with sep (split sep s) = s.
Proof.
  induction s as [|c rest IH]; [reflexivity|].
  cbn [split]. pose proof (split_not_nil sep rest) as Hne.
  destruct (N.eqb_spec c sep) as [->|_].
  - destruct (split sep rest) as [|h t]; [congruence|].
    cbn [join_with app]. cbn [join_with] in IH. now rewrite IH.
  - destruct (split sep rest) as [|h t]; [congruence|].
    rewrite <- IH. destruct t; reflexivity.
Qed.

Lemma is_space_cases (c : N) :
  is_space c = true ->
  (c <= 0x20 \/ c = 0x85 \/ c = 0xA0 \/ c = 0x1680 \/
   (0x2000 <= c /\ c <= 0x200A) \/ c = 0x2028 \/ c = 0x2029 \/
   c = 0x202F \/ c = 0x205F \/ c = 0x3000)%N.
Proof.
  unfold is_space.
  rewrite !orb_true_iff, !andb_true_iff, !N.leb_le, !N.eqb_eq. lia.
Qed.

Lemma ci_cases (letter c : N) :
  ci letter c = true -> c = letter \/ c = (letter - 32)%N.
Proof. unfold ci. rewrite orb_true_iff, !N.eqb_eq. tauto. Qed.

Lemma lower_keeps_out_space (s : str) :
  (forall c, In c s -> is_space c = false) ->
  forall c, In c (lower s) -> is_space c = false.
Proof.
  intros Hs c Hin. unfold lower in Hin. apply in_flat_map in Hin as (x & Hx & Hc).
  unfold lower_char in Hc.
  destruct ((0x41 <=? x) && (x <=? 0x5A))%N eqn:Hupper.
  - destruct Hc as [<-|[]]. apply andb_prop in Hupper as [Hlo Hhi].
    apply N.leb_le in Hlo, Hhi.
    destruct (is_space (x + 32)) eqn:Hsp; [|reflexivity].
    apply is_space_cases in Hsp. lia.
  - destruct (x =? 0x130)%N; [destruct Hc as [<-|[<-|[]]]; reflexivity|].
    destruct (x =? 0x212A)%N; [destruct Hc as [<-|[]]; reflexivity|].
    destruct Hc as [<-|[]]. now apply Hs.
Qed.

Lemma url_has_no_space (u : str) :
  is_url u -> forall c, In c u -> is_space c = false.
Proof.
  intros (sch & body & -> & Hsch & _ & Hbody) c Hin.
  assert (Hletter : forall letter x,
            In letter [0x68; 0x74; 0x70; 0x73]%N -> ci letter x = true ->
            is_space x = false).
  { intros letter x Hl Hx. apply ci_cases in Hx.
    cbn [In] in Hl.
    destruct Hl as [<-|[<-|[<-|[<-|[]]]]], Hx as [->| ->]; reflexivity. }
  apply in_app_or in Hin as [Hin|Hin].
  - destruct sch as [|h [|t1 [|t2 [|p [|s [|x sch]]]]]]; try discriminate;
      cbn [is_scheme] in Hsch;
      repeat match goal with
             | H : _ && _ = true |- _ => apply andb_prop in H as [? ?]
             end.
    + cbn [In] in Hin.
      destruct Hin as [<-|[<-|[<-|[<-|[]]]]];
        eapply Hletter; eauto; cbn [In]; auto.
    + cbn [In] in Hin.
      destruct Hin as [<-|[<-|[<-|[<-|[<-|[]]]]]];
        try (eapply Hletter; eauto; cbn [In]; now auto).
      unfold ci_s in *.
      match goal with
      | Hs : ci _ _ || _ = true |- _ =>
          apply orb_prop in Hs as [Hs|Hs];
          [eapply Hletter; eauto; cbn [In]; auto
          |apply N.eqb_eq in Hs; now subst]
      end.
  - apply in_app_or in Hin as [Hin|Hin].
    + cbv in Hin. destruct Hin as [<-|[<-|[<-|[]]]]; reflexivity.
    + rewrite forallb_forall in Hbody. specialize (Hbody c Hin).
      unfold url_char in Hbody. apply negb_true_iff in Hbody.
      rewrite !orb_false_iff in Hbody. tauto.
Qed.

Lemma endswith_In (s p : str) :
  endswith s p = true -> forall c, In c p -> In c s.
Proof.
  unfold endswith. intros H c Hin. apply startswith_split in H.
  apply in_rev. rewrite H. apply in_or_app. left. now apply in_rev in Hin.
Qed.

(** X21: the preference list is the configured text, lower-cased and cut
    at its commas, and nothing more.  Joining its entries with commas
    gives that text back; it is never empty; and an entry that holds white
    space (as after a comma followed by a blank) ends no URL the relay
    can collect, so it never earns its bonus. *)
Theorem preference_list_is_verbatim (env : Environ) :
  join_with comma (PREFERRED_EXTS env)
  = lower (getenv (DECKPILOT_PREFERRED_EXTS env) (lit "pptx,docx,xlsx,pdf,zip")) /\
  PREFERRED_EXTS env <> [] /\
  (forall (rt : PyRuntime) (text u ext : str),
      In ext (PREFERRED_EXTS env) -> existsb is_space ext = true ->
      In u (_collect_urls_from_text text) ->
      endswith (lower u) (lit "." ++ ext) = false).
Proof.
  unfold PREFERRED_EXTS. split; [apply join_split|].
  split; [apply split_not_nil|].
  intros rt text u ext _ Hspace Hu.
  unfold _collect_urls_from_text in Hu.
  apply (proj1 (set_to_list_In _ _)) in Hu.
  apply findall_shape in Hu as [Hurl _].
  apply existsb_exists in Hspace as (c & Hc & Hsp).
  destruct (endswith (lower u) (lit "." ++ ext)) eqn:Hend; [|reflexivity].
  assert (Hin : In c (lower u)).
  { apply (endswith_In _ _ Hend). apply in_or_app. now right. }
  apply (lower_keeps_out_space u (url_has_no_space u Hurl)) in Hin. congruence.
Qed.

(** X21 on a list written with a blank after the comma. *)
Lemma preference_list_is_verbatim_witness :
  endswith (lower (lit "https://x.test/a.docx")) (lit "." ++ lit " docx") = false.
Proof.
  refine (proj2 (proj2 (preference_list_is_verbatim spaced_environ))
            reference_runtime (lit "see https://x.test/a.docx") 
            (lit "https://x.test/a.docx") (lit " docx") _ _ _).
  - vm_compute. right. left. reflexivity.
  - reflexivity.
  - vm_compute. left. reflexivity.
Defined.

(** ** The link and the order of a set *)

Section Order.
Context {rt : PyRuntime}.
Variable cl : Closure.
Variable post : str -> ToolCall -> option PyExn.

(** X22: the order in which a set lists its members decides the link
    only among equal scores.  When one match of the payload scores above
    every other, it is the link the record reports, whatever the
    runtime. *)
Theorem top_score_fixes_the_link (st : Session) (buf : list str) (best : str) :
  sent_done st = false ->
  In best (URL_RE_findall (payload_of buf)) ->
  (forall u, In u (URL_RE_findall (payload_of buf)) -> u <> best ->
             (_score_url (exts cl) u < _score_url (exts cl) best)%Z) ->
  _pick_best_url (exts cl) (_collect_urls_from_text (payload_of buf)) = Some best /\
  flush_and_emit cl post st buf
  = returns [Yield (done_url_chunk (replace ESCAPED_AMP (lit "&") best));
             Yield EOF_CHUNK]
            (set_sent_done st).
Proof.
  intros Hlive Hin Htop.
  assert (Hfound : URL_RE_findall (payload_of buf) <> [])
    by (intros Hnil; rewrite Hnil in Hin; destruct Hin).
  destruct (best_link_found (exts cl) (payload_of buf) Hfound)
    as (b & Hpick & Hnonempty & Hb & Hmax).
  assert (b = best) as ->.
  { destruct (str_eq_dec b best) as [Heq|Hne]; [exact Heq|].
    pose proof (Htop b Hb Hne). pose proof (Hmax best Hin). lia. }
  split; [exact Hpick|].
  rewrite flush_dispatches;
    [|exact Hlive|intros Hnil; rewrite Hnil in Hfound; now apply Hfound].
  unfold dispatch. rewrite Hpick, Hnonempty. reflexivity.
Qed.
End Order.

(** X22 on a payload with a page and a deck. *)
Lemma top_score_fixes_the_link_witness :
  @_pick_best_url default_exts
    (@_collect_urls_from_text reference_runtime
       (payload_of [lit "data: see https://x.test/page and https://x.test/a.pptx"]))
  = Some (lit "https://x.test/a.pptx").
Proof.
  refine (proj1 (@top_score_fixes_the_link reference_runtime sample_closure
                   accepting_post initial_session
                   [lit "data: see https://x.test/page and https://x.test/a.pptx"]
                   (lit "https://x.test/a.pptx") _ _ _)).
  - reflexivity.
  - vm_compute. right. left. reflexivity.
  - vm_compute. intros u [<-|[<-|[]]] Hne; [reflexivity|now elim Hne].
Defined.
